(** * Laboratory calculations: a shallow embedding of [calculations.py]

    The module computes with Python [float]s, which are IEEE 754 binary64
    numbers.  They are modelled by Rocq's primitive floats ([PrimFloat]),
    whose operations are the binary64 ones; the exact value of a float is
    read through [Prim2SF].  Python exceptions are modelled by an error
    monad, the dictionaries of recipe steps by [gmap string value], and the
    objects that [scale_recipe] reads and allocates by an explicit heap. *)

From Stdlib Require Import ZArith Floats Ascii String List Lia DecimalString.
From stdpp Require Import base option list gmap strings.

Open Scope string_scope.
Open Scope Z_scope.

(* Decimal literals denote the nearest binary64 value, as in Python. *)
#[global] Set Warnings "-inexact-float".

(** ** Exceptions and results *)

Inductive exn : Type :=
| ZeroDivisionError
| KeyError (key : string)
| TypeError
| OverflowError
| UnsupportedUnitError.  (* named by the specification; nothing raises it *)

Inductive result (A : Type) : Type :=
| Ok (a : A)
| Raise (e : exn).

Arguments Ok {A} a.
Arguments Raise {A} e.

#[global] Instance result_ret : MRet result := fun A a => Ok a.

#[global] Instance result_bind : MBind result := fun A B k r =>
  match r with
  | Ok a => k a
  | Raise e => Raise e
  end.

Definition is_ok {A : Type} (r : result A) : bool :=
  match r with Ok _ => true | Raise _ => false end.

(** ** Python float arithmetic *)

Module PyFloat.

(** [x >= y], [x < y], [x == y] on floats; every comparison with a NaN is
    false. *)
Definition ge (x y : float) : bool := PrimFloat.leb y x.
Definition gt (x y : float) : bool := PrimFloat.ltb y x.
Definition lt (x y : float) : bool := PrimFloat.ltb x y.
Definition eq (x y : float) : bool := PrimFloat.eqb x y.
Definition le (x y : float) : bool := PrimFloat.leb x y.

(** [x * y] never raises. *)
Definition mul (x y : float) : float := PrimFloat.mul x y.
Definition sub (x y : float) : float := PrimFloat.sub x y.

(** [x / y] raises [ZeroDivisionError] when [y == 0.0] (either zero),
    whatever [x] is. *)
Definition truediv (x y : float) : result float :=
  if eq y 0%float then Raise ZeroDivisionError else Ok (PrimFloat.div x y).

(** [float(n)] for an [int]: the nearest float, ties to even;
    [OverflowError] when it would be infinite. *)
Definition of_int (n : Z) : result float :=
  let f := SF2Prim (binary_normalize prec emax n 0 false) in
  if PrimFloat.is_infinity f then Raise OverflowError else Ok f.

(** *** Decimal rounding

    Both [round(x, 4)] and the format specification [.3f] round the exact
    binary value of the float to a number of decimals, ties to even. *)

(** The integer nearest to [n / d], ties to even ([n >= 0], [d > 0]). *)
Definition rne_div (n d : Z) : Z :=
  let q := n / d in
  let r := n mod d in
  match 2 * r ?= d with
  | Lt => q
  | Gt => q + 1
  | Eq => if Z.even q then q else q + 1
  end.

(** The integer nearest to [k * m * 2^e], ties to even. *)
Definition scaled_rne (k : Z) (m : positive) (e : Z) : Z :=
  match e with
  | Zneg p => rne_div (k * Zpos m) (2 ^ Zpos p)
  | _ => k * Zpos m * 2 ^ e
  end.

Definition sign_prefix (s : bool) : string := if s then "-" else "".

Definition string_of_nonneg (n : Z) : string :=
  NilZero.string_of_uint (N.to_uint (Z.to_N n)).

(** Exactly three digits, zero padded; [n] is in [0, 1000). *)
Definition pad3 (n : Z) : string :=
  (if Z.ltb n 100 then "0" else "") ++ (if Z.ltb n 10 then "0" else "")
    ++ string_of_nonneg n.

(** [f"{x:.3f}"] *)
Definition format_3f (x : float) : string :=
  match Prim2SF x with
  | S754_nan => "nan"
  | S754_infinity s => sign_prefix s ++ "inf"
  | S754_zero s => sign_prefix s ++ "0.000"
  | S754_finite s m e =>
      let n := scaled_rne 1000 m e in
      sign_prefix s ++ string_of_nonneg (n / 1000) ++ "." ++ pad3 (n mod 1000)
  end.

(** [round(x, 4)]: the float nearest to the decimal obtained by rounding
    the exact value of [x] to four decimals; infinities and NaN are
    returned unchanged. *)
Definition round4 (x : float) : float :=
  match Prim2SF x with
  | S754_finite s m e =>
      match scaled_rne 10000 m e with
      | Zpos n =>
          SF2Prim (SFdiv prec emax (S754_finite s n 0) (S754_finite false 10000 0))
      | _ => SF2Prim (S754_zero s)
      end
  | _ => x
  end.

End PyFloat.

(** ** Units and conversion tables *)

Inductive MassUnit : Type := GRAMS | MILLIGRAMS | MICROGRAMS | KILOGRAMS.
Inductive VolumeUnit : Type := LITERS | MILLILITERS | MICROLITERS.
Inductive ConcentrationUnit : Type :=
| MOLAR | MILLIMOLAR | MICROMOLAR | NANOMOLAR | PERCENT_WV | PERCENT_VV.

(** The [value] attribute of each enumeration member. *)
Definition MassUnit_value (u : MassUnit) : string :=
  match u with
  | GRAMS => "g" | MILLIGRAMS => "mg" | MICROGRAMS => "µg" | KILOGRAMS => "kg"
  end.

Definition VolumeUnit_value (u : VolumeUnit) : string :=
  match u with
  | LITERS => "L" | MILLILITERS => "mL" | MICROLITERS => "µL"
  end.

Definition ConcentrationUnit_value (u : ConcentrationUnit) : string :=
  match u with
  | MOLAR => "M" | MILLIMOLAR => "mM" | MICROMOLAR => "µM" | NANOMOLAR => "nM"
  | PERCENT_WV => "% w/v" | PERCENT_VV => "% v/v"
  end.

(** A unit argument is a member of any of the three enumerations: the
    functions do not check which enumeration their unit arguments come
    from. *)
Inductive unit_tag : Type :=
| Mass (u : MassUnit)
| Volume (u : VolumeUnit)
| Concentration (u : ConcentrationUnit).

Coercion Mass : MassUnit >-> unit_tag.
Coercion Volume : VolumeUnit >-> unit_tag.
Coercion Concentration : ConcentrationUnit >-> unit_tag.

(** A conversion table is a dictionary from enumeration members to
    factors; [table u = None] when [u] is not a key. *)
Definition table : Type := unit_tag -> option float.

Definition MASS_TO_GRAMS : table := fun u =>
  match u with
  | Mass KILOGRAMS => Some 1000%float
  | Mass GRAMS => Some 1%float
  | Mass MILLIGRAMS => Some 0.001%float
  | Mass MICROGRAMS => Some 0.000001%float
  | _ => None
  end.

Definition VOLUME_TO_LITERS : table := fun u =>
  match u with
  | Volume LITERS => Some 1%float
  | Volume MILLILITERS => Some 0.001%float
  | Volume MICROLITERS => Some 0.000001%float
  | _ => None
  end.

Definition CONC_TO_MOLAR : table := fun u =>
  match u with
  | Concentration MOLAR => Some 1%float
  | Concentration MILLIMOLAR => Some 0.001%float
  | Concentration MICROMOLAR => Some 0.000001%float
  | Concentration NANOMOLAR => Some 0.000000001%float
  | _ => None
  end.

(** [t.get(u, d)] *)
Definition dict_get (t : table) (u : unit_tag) (d : float) : float :=
  match t u with
  | Some f => f
  | None => d
  end.

(** The dimensions of the data model and their tables. *)
Inductive dimension : Type := DMass | DVolume | DConcentration.

Definition table_of (d : dimension) : table :=
  match d with
  | DMass => MASS_TO_GRAMS
  | DVolume => VOLUME_TO_LITERS
  | DConcentration => CONC_TO_MOLAR
  end.

(** The conversion to the base unit that every calculation starts with:
    [value * TABLE.get(unit, 1)]. *)
Definition to_base (d : dimension) (value : float) (u : unit_tag) : float :=
  PyFloat.mul value (dict_get (table_of d) u 1%float).

(** ** Formatting helpers *)

Definition format_mass (mass_g : float) : string :=
  if PyFloat.ge mass_g 1000%float then
    PyFloat.format_3f (PrimFloat.div mass_g 1000%float) ++ " kg"
  else if PyFloat.ge mass_g 1%float then
    PyFloat.format_3f mass_g ++ " g"
  else if PyFloat.ge mass_g 0.001%float then
    PyFloat.format_3f (PyFloat.mul mass_g 1000%float) ++ " mg"
  else
    PyFloat.format_3f (PyFloat.mul mass_g 1000000%float) ++ " µg".

Definition format_volume (volume_L : float) : string :=
  if PyFloat.ge volume_L 1%float then
    PyFloat.format_3f volume_L ++ " L"
  else if PyFloat.ge volume_L 0.001%float then
    PyFloat.format_3f (PyFloat.mul volume_L 1000%float) ++ " mL"
  else
    PyFloat.format_3f (PyFloat.mul volume_L 1000000%float) ++ " µL".

Definition format_concentration (conc_M : float) : string :=
  if PyFloat.ge conc_M 1%float then
    PyFloat.format_3f conc_M ++ " M"
  else if PyFloat.ge conc_M 0.001%float then
    PyFloat.format_3f (PyFloat.mul conc_M 1000%float) ++ " mM"
  else if PyFloat.ge conc_M 0.000001%float then
    PyFloat.format_3f (PyFloat.mul conc_M 1000000%float) ++ " µM"
  else
    PyFloat.format_3f (PyFloat.mul conc_M 1000000000%float) ++ " nM".

(** ** Core calculation functions *)

Definition calculate_mass (molarity volume mw purity : float)
    (volume_unit conc_unit : unit_tag) : result (float * string) :=
  let molarity_M := to_base DConcentration molarity conc_unit in
  let volume_L := to_base DVolume volume volume_unit in
  purity_fraction ← PyFloat.truediv purity 100%float;
  mass_g ← PyFloat.truediv
    (PyFloat.mul (PyFloat.mul molarity_M volume_L) mw) purity_fraction;
  mret (mass_g, format_mass mass_g).

Definition calculate_molarity (mass volume mw purity : float)
    (mass_unit volume_unit : unit_tag) : result (float * string) :=
  let mass_g := to_base DMass mass mass_unit in
  let volume_L := to_base DVolume volume volume_unit in
  if PyFloat.eq volume_L 0%float || PyFloat.eq mw 0%float then
    mret (0%float, "0 M")
  else
    purity_fraction ← PyFloat.truediv purity 100%float;
    q ← PyFloat.truediv mass_g (PyFloat.mul volume_L mw);
    let molarity_M := PyFloat.mul q purity_fraction in
    mret (molarity_M, format_concentration molarity_M).

Definition calculate_stock_volume (c1 c2 v2 : float)
    (c1_unit c2_unit v2_unit : unit_tag)
    : result (float * string * float * string) :=
  let c1_M := to_base DConcentration c1 c1_unit in
  let c2_M := to_base DConcentration c2 c2_unit in
  let v2_L := to_base DVolume v2 v2_unit in
  if PyFloat.eq c1_M 0%float then
    mret (0%float, "0 L", v2_L, format_volume v2_L)
  else
    v1_L ← PyFloat.truediv (PyFloat.mul c2_M v2_L) c1_M;
    let diluent_L := PyFloat.sub v2_L v1_L in
    mret (v1_L, format_volume v1_L, diluent_L, format_volume diluent_L).

Definition calculate_percent_solution (mass volume : float)
    (mass_unit volume_unit : unit_tag) : result float :=
  let mass_g := to_base DMass mass mass_unit in
  let volume_mL := PyFloat.mul (to_base DVolume volume volume_unit) 1000%float in
  if PyFloat.eq volume_mL 0%float then
    mret 0%float
  else
    q ← PyFloat.truediv mass_g volume_mL;
    mret (PyFloat.mul q 100%float).

(** One entry of a dilution series: [(step_number, concentration,
    formatted_string)]. *)
Definition series_entry : Type := Z * float * string.

(** The body of [for i in range(num_dilutions + 1)], run for the [k]
    remaining values of [i]: append the entry, then divide. *)
Fixpoint serial_dilution_loop (dilution_factor : float) (conc_unit : unit_tag)
    (k : nat) (i : Z) (current_conc : float) (results : list series_entry)
    : result (list series_entry) :=
  match k with
  | O => mret results
  | S k' =>
      let results' :=
        (results ++ [(i, current_conc,
                      format_concentration (to_base DConcentration current_conc conc_unit))])%list in
      current_conc' ← PyFloat.truediv current_conc dilution_factor;
      serial_dilution_loop dilution_factor conc_unit k' (i + 1) current_conc' results'
  end.

Definition calculate_serial_dilution (initial_conc dilution_factor : float)
    (num_dilutions : Z) (conc_unit : unit_tag) : result (list series_entry) :=
  serial_dilution_loop dilution_factor conc_unit
    (Z.to_nat (num_dilutions + 1)) 0 initial_conc [].

(** ** Recipe scaling

    A recipe is a Python list of dictionaries.  Both are mutable objects
    that are passed by reference, so they live in a heap and are named by
    their addresses; [scale_recipe] receives the address of the list. *)

Inductive value : Type :=
| VNone
| VInt (n : Z)
| VFloat (x : float)
| VStr (s : string).

Definition loc : Type := nat.

Inductive object : Type :=
| ODict (d : gmap string value)
| OList (items : list loc).

(** Objects are never freed: the heap is the list of all objects allocated
    so far and an address is an index in it. *)
Definition heap : Type := list object.

(** Computations that read and write the heap and may raise. *)
Definition Py (A : Type) : Type := heap -> result (A * heap).

#[global] Instance Py_ret : MRet Py := fun A a h => Ok (a, h).

#[global] Instance Py_bind : MBind Py := fun A B k m h =>
  match m h with
  | Ok (a, h') => k a h'
  | Raise e => Raise e
  end.

Definition raise {A : Type} (e : exn) : Py A := fun _ => Raise e.

Definition lift {A : Type} (r : result A) : Py A := fun h =>
  match r with
  | Ok a => Ok (a, h)
  | Raise e => Raise e
  end.

Definition alloc (o : object) : Py loc := fun h => Ok (length h, (h ++ [o])%list).

Definition load (l : loc) : Py object := fun h =>
  match h !! l with
  | Some o => Ok (o, h)
  | None => Raise TypeError
  end.

Definition store (l : loc) (o : object) : Py () := fun h => Ok ((), <[l := o]> h).

(** The elements of the list that [for step in steps] goes through.  The
    loop body does not write to that list, so the elements are read once. *)
Definition list_items (l : loc) : Py (list loc) :=
  o ← load l;
  match o with
  | OList items => mret items
  | ODict _ => raise TypeError
  end.

(** [d.copy()]: a new dictionary with the same items. *)
Definition dict_copy (l : loc) : Py loc :=
  o ← load l;
  match o with
  | ODict d => alloc (ODict d)
  | OList _ => raise TypeError
  end.

(** [d[k]] *)
Definition dict_getitem (l : loc) (k : string) : Py value :=
  o ← load l;
  match o with
  | ODict d =>
      match d !! k with
      | Some v => mret v
      | None => raise (KeyError k)
      end
  | OList _ => raise TypeError
  end.

(** [d[k] = v] *)
Definition dict_setitem (l : loc) (k : string) (v : value) : Py () :=
  o ← load l;
  match o with
  | ODict d => store l (ODict (<[k := v]> d))
  | OList _ => raise TypeError
  end.

(** [xs.append(x)] *)
Definition list_append (l : loc) (x : loc) : Py () :=
  o ← load l;
  match o with
  | OList items => store l (OList (items ++ [x])%list)
  | ODict _ => raise TypeError
  end.

(** The float that [v * scale_factor] multiplies: a float, or an int
    converted to one. *)
Definition as_float (v : value) : result float :=
  match v with
  | VFloat x => Ok x
  | VInt n => PyFloat.of_int n
  | VNone | VStr _ => Raise TypeError
  end.

(** [v * f] for a float [f] *)
Definition mul_float (v : value) (f : float) : result float :=
  x ← as_float v; mret (PyFloat.mul x f).

Fixpoint scale_recipe_loop (scale_factor : float) (scaled_steps : loc)
    (steps : list loc) : Py () :=
  match steps with
  | [] => mret ()
  | step :: rest =>
      new_step ← dict_copy step;
      amount ← dict_getitem step "amount";
      scaled ← lift (mul_float amount scale_factor);
      _ ← dict_setitem new_step "amount" (VFloat (PyFloat.round4 scaled));
      _ ← list_append scaled_steps new_step;
      scale_recipe_loop scale_factor scaled_steps rest
  end.

Definition scale_recipe (steps : loc) (new_total_volume old_total_volume : float)
    : Py loc :=
  if PyFloat.eq old_total_volume 0%float then
    mret steps
  else
    scale_factor ← lift (PyFloat.truediv new_total_volume old_total_volume);
    scaled_steps ← alloc (OList []);
    items ← list_items steps;
    _ ← scale_recipe_loop scale_factor scaled_steps items;
    mret scaled_steps.

(** The dictionaries that the list at address [steps] holds, in order. *)
Definition recipe_at (h : heap) (steps : loc) (ds : list (gmap string value)) : Prop :=
  exists items : list loc,
    h !! steps = Some (OList items) /\
    Forall2 (fun (l : loc) d => h !! l = Some (ODict d)) items ds.

(** The same, computed. *)
Definition read_recipe (h : heap) (steps : loc) : option (list (gmap string value)) :=
  match h !! steps with
  | Some (OList items) =>
      mapM (fun l : loc => match h !! l with Some (ODict d) => Some d | _ => None end) items
  | _ => None
  end.

(** The amount of a step, as the multiplication reads it. *)
Definition step_amount (d : gmap string value) : result float :=
  match d !! "amount" with
  | Some v => as_float v
  | None => Raise (KeyError "amount")
  end.

Definition example_step (n : Z) (amount : float) : gmap string value :=
  {[ "step_number" := VInt n; "reagent" := VStr "NaCl";
     "amount" := VFloat amount; "unit" := VStr "g"; "notes" := VStr "" ]}.

Definition example_heap : heap := [ODict (example_step 1 10); OList [0%nat]].

Definition example_heap_5_decimals : heap :=
  [ODict (example_step 1 0.12345); OList [0%nat]].

(** The base unit of each dimension, and a unit argument with every tag
    that is not a key of the dimension's table replaced by the base unit. *)
Definition base_unit (d : dimension) : unit_tag :=
  match d with
  | DMass => Mass GRAMS
  | DVolume => Volume LITERS
  | DConcentration => Concentration MOLAR
  end.

Definition in_table (d : dimension) (u : unit_tag) : bool :=
  match table_of d u with Some _ => true | None => false end.

Definition as_base_if_unknown (d : dimension) (u : unit_tag) : unit_tag :=
  if in_table d u then u else base_unit d.

(** [x] divided [i] times by [d]. *)
Fixpoint divided (d : float) (i : nat) (x : float) : float :=
  match i with
  | O => x
  | S i' => divided d i' (PrimFloat.div x d)
  end.

(** The concentrations of a series, without the step numbers and texts. *)
Definition raw_concentrations (entries : list series_entry) : list float :=
  map (fun entry => snd (fst entry)) entries.

(** The entry that the specification gives for step [j] of a series that
    starts at step [i] with the concentration [current]. *)
Definition entry_at (d : float) (u : unit_tag) (i : Z) (current : float) (j : nat)
    : series_entry :=
  (i + Z.of_nat j, divided d j current,
   format_concentration (to_base DConcentration (divided d j current) u)).

(** The step that [scale_recipe] builds from a step [d] whose amount is the
    float [a]: [d] with the amount replaced. *)
Definition scaled_step (factor : float) (d : gmap string value) (a : float)
    : gmap string value :=
  <["amount" := VFloat (PyFloat.round4 (PyFloat.mul a factor))]> d.


(** ** The magnitude ladders of the specification

    The specification describes each format function as the choice, in a
    ladder of units ordered from the largest to the smallest, of the first
    unit in which the value is at least 1, with a smallest unit for the
    values that no unit of the ladder fits. *)

Record rung : Type := Rung {
  rung_unit : string;
  rung_express : float -> float  (* the base value expressed in the unit *)
}.

Definition qualifies (x : float) (r : rung) : bool :=
  PyFloat.ge (rung_express r x) 1%float.

Definition format_in (r : rung) (x : float) : string :=
  PyFloat.format_3f (rung_express r x) ++ " " ++ rung_unit r.

Definition format_by_ladder (ladder : list rung) (smallest : rung) (x : float) : string :=
  match List.find (qualifies x) ladder with
  | Some r => format_in r x
  | None => format_in smallest x
  end.

Definition ladder_of (d : dimension) : list rung :=
  match d with
  | DMass =>
      [Rung "kg" (fun x => PrimFloat.div x 1000%float);
       Rung "g" (fun x => x);
       Rung "mg" (fun x => PyFloat.mul x 1000%float)]
  | DVolume =>
      [Rung "L" (fun x => x);
       Rung "mL" (fun x => PyFloat.mul x 1000%float)]
  | DConcentration =>
      [Rung "M" (fun x => x);
       Rung "mM" (fun x => PyFloat.mul x 1000%float);
       Rung "µM" (fun x => PyFloat.mul x 1000000%float)]
  end.

Definition smallest_of (d : dimension) : rung :=
  match d with
  | DMass => Rung "µg" (fun x => PyFloat.mul x 1000000%float)
  | DVolume => Rung "µL" (fun x => PyFloat.mul x 1000000%float)
  | DConcentration => Rung "nM" (fun x => PyFloat.mul x 1000000000%float)
  end.

(** The format function of each dimension. *)
Definition format (d : dimension) : float -> string :=
  match d with
  | DMass => format_mass
  | DVolume => format_volume
  | DConcentration => format_concentration
  end.

(** The symbol of the largest unit of each ladder. *)
Definition largest_unit (d : dimension) : string :=
  match d with
  | DMass => "kg"
  | DVolume => "L"
  | DConcentration => "M"
  end.

(** ** Rounding of binary64 numbers

    The definitions that the proofs about [PrimFloat.mul] and
    [PrimFloat.div] use: what the rounding of [SpecFloat] computes, written
    with divisions of integers. *)

(** The location of a remainder [r] of a division by [d]. *)
Definition location_of (r d : Z) : location :=
  if r =? 0 then loc_Exact else loc_Inexact (2 * r ?= d).

(** A shift record holds the quotient of [n] by [d] and the location of
    the remainder. *)
Definition represents (n d : Z) (mrs : shr_record) : Prop :=
  shr_m mrs = n / d /\ loc_of_shr_record mrs = location_of (n mod d) d.

(** What [binary_round_aux] computes from the quotient of [n] by [d] and
    the location of the remainder, at exponent [e]. *)
Definition round_model (s : bool) (n d e : Z) : spec_float :=
  let k := Z.max 0 (fexp prec emax (Zdigits2 (n / d) + e) - e) in
  let m1 := PyFloat.rne_div n (d * 2 ^ k) in
  let e1 := e + k in
  let k2 := Z.max 0 (fexp prec emax (Zdigits2 m1 + e1) - e1) in
  match m1 / 2 ^ k2 with
  | Z0 => S754_zero s
  | Zpos m =>
      if e1 + k2 <=? emax - prec then S754_finite s m (e1 + k2) else S754_infinity s
  | Zneg _ => S754_nan
  end.

(** The exponent at which [SFdiv] computes the quotient of the mantissas. *)
Definition div_exponent (mx : positive) (ex : Z) (my : positive) (ey : Z) : Z :=
  Z.min (fexp prec emax (Zdigits2 (Zpos mx) + ex - (Zdigits2 (Zpos my) + ey))) (ex - ey).

(** [t'] is the float just below [t]. *)
Definition is_pred (mt' : positive) (et' : Z) (mt : positive) (et : Z) : Prop :=
  (et' = et /\ Zpos mt' + 1 = Zpos mt) \/
  (et' + 1 = et /\ Zpos mt = 2 ^ (prec - 1) /\ Zpos mt' = 2 ^ prec - 1).

(** Floats [x] with [0 <= x < inf]. *)
Definition nonneg_finite (x : float) : bool :=
  PrimFloat.leb 0 x && PrimFloat.ltb x infinity.

(** The smallest float of the second binade, [2^-1021]. *)
Definition second_binade : float := Eval compute in SF2Prim (S754_finite false 4503599627370496 (-1073)).

(** ** Validation helpers

    [validate_positive] and [validate_purity] return [None] or raise
    [ValueError] with a message. *)

Inductive validation : Type :=
| ReturnsNone
| RaisesValueError (message : string).

Definition validate_positive (value : float) (name : string) : validation :=
  if PyFloat.le value 0%float then
    RaisesValueError (name ++ " must be greater than zero.")
  else ReturnsNone.

(** [0 < purity <= 100] is [0 < purity and purity <= 100]. *)
Definition validate_purity (purity : float) : validation :=
  if negb (PyFloat.lt 0%float purity && PyFloat.le purity 100%float) then
    RaisesValueError "Purity must be between 0 and 100%."
  else ReturnsNone.

(** The subnormal floats [k * 2^-1074], and the smallest purity whose
    hundredth is not zero, [51 * 2^-1074], about [2.5e-322]. *)
Definition subnormal (k : positive) : float := SF2Prim (S754_finite false k (-1074)).

Definition smallest_safe_purity : float :=
  Eval compute in SF2Prim (S754_finite false 51 (-1074)).

(** A recipe whose second step has no amount. *)
Definition step_without_amount : gmap string value :=
  {[ "step_number" := VInt 2; "reagent" := VStr "KCl"; "unit" := VStr "g" ]}.

Definition heap_with_bad_step : heap :=
  [ODict (example_step 1 10); ODict step_without_amount; OList [0%nat; 1%nat]].

(** ** The unit dictionaries of the application

    [app.py] turns the unit symbol chosen in a select box into an
    enumeration member with a dictionary that each calculator tab builds
    before it calls the calculation, and the unit converter page has factor
    dictionaries of its own, keyed by symbol. *)

(** [d[k]] for one of these dictionaries. *)
Definition subscript {A : Type} (d : gmap string A) (k : string) : result A :=
  match d !! k with
  | Some a => Ok a
  | None => Raise (KeyError k)
  end.

(** [render_calculators], the molarity tab: the maps for [calculate_mass]
    and for [calculate_molarity] ([vol_map] is built twice, the same). *)
Module MolarityTab.
Definition conc_map : gmap string ConcentrationUnit :=
  {[ "M" := MOLAR; "mM" := MILLIMOLAR; "µM" := MICROMOLAR; "nM" := NANOMOLAR ]}.
Definition vol_map : gmap string VolumeUnit :=
  {[ "L" := LITERS; "mL" := MILLILITERS; "µL" := MICROLITERS ]}.
Definition mass_map : gmap string MassUnit :=
  {[ "g" := GRAMS; "mg" := MILLIGRAMS; "µg" := MICROGRAMS ]}.

(** [calculate_mass(molarity, volume, mw, purity,
    volume_unit=vol_map[vol_unit], conc_unit=conc_map[conc_unit])] *)
Definition calculate_mass_call (molarity volume mw purity : float)
    (vol_unit conc_unit : string) : result (float * string) :=
  volume_unit ← subscript vol_map vol_unit;
  conc_unit ← subscript conc_map conc_unit;
  calculate_mass molarity volume mw purity (Volume volume_unit) (Concentration conc_unit).

(** [calculate_molarity(mass, volume, mw, purity,
    mass_unit=mass_map[mass_unit], volume_unit=vol_map[vol_unit])] *)
Definition calculate_molarity_call (mass volume mw purity : float)
    (mass_unit vol_unit : string) : result (float * string) :=
  mass_unit ← subscript mass_map mass_unit;
  volume_unit ← subscript vol_map vol_unit;
  calculate_molarity mass volume mw purity (Mass mass_unit) (Volume volume_unit).

End MolarityTab.

(** the dilution tab, for [calculate_stock_volume] *)
Module DilutionTab.
Definition conc_map : gmap string ConcentrationUnit :=
  {[ "M" := MOLAR; "mM" := MILLIMOLAR; "µM" := MICROMOLAR ]}.
Definition vol_map : gmap string VolumeUnit :=
  {[ "L" := LITERS; "mL" := MILLILITERS; "µL" := MICROLITERS ]}.

(** [calculate_stock_volume(c1, c2, v2, c1_unit=conc_map[c1_unit],
    c2_unit=conc_map[c2_unit], v2_unit=vol_map[v2_unit])] *)
Definition calculate_stock_volume_call (c1 c2 v2 : float) (c1_unit c2_unit v2_unit : string)
    : result (float * string * float * string) :=
  c1_unit ← subscript conc_map c1_unit;
  c2_unit ← subscript conc_map c2_unit;
  v2_unit ← subscript vol_map v2_unit;
  calculate_stock_volume c1 c2 v2
    (Concentration c1_unit) (Concentration c2_unit) (Volume v2_unit).

End DilutionTab.

(** the serial dilution tab *)
Module SerialDilutionTab.
Definition unit_map : gmap string ConcentrationUnit :=
  {[ "M" := MOLAR; "mM" := MILLIMOLAR; "µM" := MICROMOLAR; "nM" := NANOMOLAR ]}.

(** [calculate_serial_dilution(initial_conc, dilution_factor, num_dilutions,
    unit_map[initial_unit])] *)
Definition calculate_serial_dilution_call (initial_conc dilution_factor : float)
    (num_dilutions : Z) (initial_unit : string) : result (list series_entry) :=
  conc_unit ← subscript unit_map initial_unit;
  calculate_serial_dilution initial_conc dilution_factor num_dilutions
    (Concentration conc_unit).

End SerialDilutionTab.

(** the percent solution tab *)
Module PercentTab.
Definition mass_map : gmap string MassUnit := {[ "g" := GRAMS; "mg" := MILLIGRAMS ]}.
Definition vol_map : gmap string VolumeUnit := {[ "mL" := MILLILITERS; "L" := LITERS ]}.

(** [calculate_percent_solution(pct_mass, pct_vol, mass_map[pct_mass_unit],
    vol_map[pct_vol_unit])] *)
Definition calculate_percent_solution_call (pct_mass pct_vol : float)
    (pct_mass_unit pct_vol_unit : string) : result float :=
  mass_unit ← subscript mass_map pct_mass_unit;
  volume_unit ← subscript vol_map pct_vol_unit;
  calculate_percent_solution pct_mass pct_vol (Mass mass_unit) (Volume volume_unit).

End PercentTab.

(** [render_protocol_designer], the stock calculation of a new step *)
Module ProtocolDesigner.
Definition c_map : gmap string ConcentrationUnit :=
  {[ "M" := MOLAR; "mM" := MILLIMOLAR; "µM" := MICROMOLAR; "nM" := NANOMOLAR ]}.
Definition v_map : gmap string VolumeUnit :=
  {[ "L" := LITERS; "mL" := MILLILITERS; "µL" := MICROLITERS ]}.

(** [calculate_stock_volume(c1, c2, prot_vol, c1_unit=c_map[c1_unit],
    c2_unit=c_map[c2_unit], v2_unit=v_map[prot_unit])]; the page runs it
    in a [try] block and shows any exception as an error message. *)
Definition calculate_stock_volume_call (c1 c2 prot_vol : float)
    (c1_unit c2_unit prot_unit : string) : result (float * string * float * string) :=
  c1_unit ← subscript c_map c1_unit;
  c2_unit ← subscript c_map c2_unit;
  v2_unit ← subscript v_map prot_unit;
  calculate_stock_volume c1 c2 prot_vol
    (Concentration c1_unit) (Concentration c2_unit) (Volume v2_unit).

End ProtocolDesigner.

(** [render_unit_converter]: [value * factors[unit]], where a symbol
    that is not a key raises [KeyError]. *)
Module UnitConverter.

Definition mass_factors : gmap string float :=
  {[ "kg" := 1000%float; "g" := 1%float; "mg" := 0.001%float; "µg" := 0.000001%float ]}.
Definition vol_factors : gmap string float :=
  {[ "L" := 1%float; "mL" := 0.001%float; "µL" := 0.000001%float ]}.
Definition conc_factors : gmap string float :=
  {[ "M" := 1%float; "mM" := 0.001%float; "µM" := 0.000001%float;
     "nM" := 0.000000001%float ]}.

Definition times_factor (factors : gmap string float) (input : float) (input_unit : string)
    : result float :=
  match factors !! input_unit with
  | Some factor => Ok (PyFloat.mul input factor)
  | None => Raise (KeyError input_unit)
  end.

Definition mass_g : float -> string -> result float := times_factor mass_factors.
Definition vol_L : float -> string -> result float := times_factor vol_factors.
Definition conc_M : float -> string -> result float := times_factor conc_factors.

End UnitConverter.

(** * Properties *)

(** ** The builtins and the scenarios of the specification, evaluated *)

Example format_3f_examples :
  PyFloat.format_3f 58.44%float = "58.440" /\
  PyFloat.format_3f 0%float = "0.000" /\
  PyFloat.format_3f (-0)%float = "-0.000" /\
  PyFloat.format_3f 0.0005%float = "0.001" /\
  PyFloat.format_3f 0.0015%float = "0.002" /\
  PyFloat.format_3f 2.5e-4%float = "0.000" /\
  PyFloat.format_3f 999.9996%float = "1000.000" /\
  PyFloat.format_3f (-9000000)%float = "-9000000.000" /\
  PyFloat.format_3f 1e22%float = "10000000000000000000000.000" /\
  PyFloat.format_3f infinity = "inf" /\
  PyFloat.format_3f nan = "nan".
Proof. vm_compute. repeat split. Qed.

Example round4_examples :
  PyFloat.round4 0.12345%float = 0.1235%float /\
  PyFloat.round4 0.00005%float = 0.0001%float /\
  PyFloat.round4 2.675%float = 2.675%float /\
  PyFloat.round4 1.00005%float = 1.0001%float /\
  PyFloat.round4 20%float = 20%float /\
  PyFloat.round4 1e300%float = 1e300%float /\
  PyFloat.round4 123456789012.12345%float = 123456789012.1234%float /\
  PyFloat.round4 neg_infinity = neg_infinity.
Proof. vm_compute. repeat split. Qed.

Example scenario_mass :
  calculate_mass 1 1 58.44 100 LITERS MOLAR = Ok (58.44%float, "58.440 g").
Proof. vm_compute. reflexivity. Qed.

Example scenario_stock :
  calculate_stock_volume 10 1 100 MOLAR MOLAR MILLILITERS
  = Ok (0.01%float, "10.000 mL", 0.09000000000000001%float, "90.000 mL").
Proof. vm_compute. reflexivity. Qed.

Example scenario_serial :
  calculate_serial_dilution 1000 10 3 MOLAR
  = Ok [(0, 1000%float, "1000.000 M"); (1, 100%float, "100.000 M");
        (2, 10%float, "10.000 M"); (3, 1%float, "1.000 M")].
Proof. vm_compute. reflexivity. Qed.

Example scenario_scale :
  (r ← scale_recipe 1%nat 200 100 example_heap; mret (read_recipe r.2 r.1))
  = Ok (Some [example_step 1 20]).
Proof. vm_compute. reflexivity. Qed.

(** ** Comparisons of floats *)

Module FloatFacts.

Lemma eq_zero_inv (x : float) :
  PyFloat.eq x 0%float = true -> x = 0%float \/ x = (-0)%float.
Proof.
  unfold PyFloat.eq. rewrite FloatAxioms.eqb_spec.
  change (Prim2SF 0) with (S754_zero false). intros H.
  rewrite <- (SF2Prim_Prim2SF x).
  destruct (Prim2SF x) as [[|]|[|]| |[|] m e]; try discriminate H; auto.
Qed.

Lemma gt_zero_neq_zero (x : float) :
  PyFloat.gt x 0%float = true -> PyFloat.eq x 0%float = false.
Proof.
  unfold PyFloat.gt, PyFloat.eq.
  rewrite FloatAxioms.eqb_spec, FloatAxioms.ltb_spec.
  change (Prim2SF 0) with (S754_zero false).
  destruct (Prim2SF x) as [[|]|[|]| |[|] m e]; try discriminate; reflexivity.
Qed.

Lemma gt_one_neq_zero (x : float) :
  PyFloat.gt x 1%float = true -> PyFloat.eq x 0%float = false.
Proof.
  unfold PyFloat.gt, PyFloat.eq.
  rewrite FloatAxioms.eqb_spec, FloatAxioms.ltb_spec.
  change (Prim2SF 0) with (S754_zero false).
  destruct (Prim2SF x) as [[|]|[|]| |[|] m e]; try discriminate; reflexivity.
Qed.

(** A negative float is below every positive float. *)
Lemma lt_zero_not_ge (x c : float) :
  PyFloat.lt x 0%float = true -> PyFloat.gt c 0%float = true ->
  PyFloat.ge x c = false.
Proof.
  unfold PyFloat.lt, PyFloat.gt, PyFloat.ge.
  rewrite FloatAxioms.leb_spec, !FloatAxioms.ltb_spec.
  change (Prim2SF 0) with (S754_zero false).
  destruct (Prim2SF x) as [[|]|[|]| |[|] m e]; try discriminate;
    destruct (Prim2SF c) as [[|]|[|]| |[|] m' e']; try discriminate; reflexivity.
Qed.

(** Zero is below every positive float. *)
Lemma zero_not_ge (x c : float) :
  PyFloat.eq x 0%float = true -> PyFloat.gt c 0%float = true ->
  PyFloat.ge x c = false.
Proof.
  intros [-> | ->]%eq_zero_inv; unfold PyFloat.gt, PyFloat.ge;
    rewrite FloatAxioms.leb_spec, FloatAxioms.ltb_spec;
    change (Prim2SF 0) with (S754_zero false);
    change (Prim2SF (-0)) with (S754_zero true);
    destruct (Prim2SF c) as [[|]|[|]| |[|] m' e']; try discriminate; reflexivity.
Qed.

End FloatFacts.

(** ** Signs through rounding *)

Module Rounding.

Lemma iter_pos_invariant {A : Type} (P : A -> Prop) (f : A -> A) :
  (forall a, P a -> P (f a)) ->
  forall (n : positive) (a : A), P a -> P (SpecFloat.iter_pos f n a).
Proof.
  intros Hf. induction n as [n IH | n IH | ]; intros a Ha; simpl; auto.
Qed.

Lemma shr_1_nonneg (mrs : shr_record) : 0 <= shr_m mrs -> 0 <= shr_m (shr_1 mrs).
Proof.
  destruct mrs as [m r s]. simpl. intros Hm.
  destruct m as [ | [p | p | ] | p]; simpl; lia.
Qed.

Lemma shr_fexp_nonneg (m e : Z) (l : location) :
  0 <= m -> 0 <= shr_m (fst (shr_fexp prec emax m e l)).
Proof.
  intros Hm. unfold shr_fexp, shr.
  assert (H0 : 0 <= shr_m (shr_record_of_loc m l)) by (destruct l as [ | [ | | ]]; exact Hm).
  destruct (fexp prec emax (Zdigits2 m + e) - e) as [ | k | k]; simpl; try exact H0.
  apply (iter_pos_invariant (fun mrs => 0 <= shr_m mrs)); [apply shr_1_nonneg | exact H0].
Qed.

Lemma round_nearest_even_nonneg (m : Z) (l : location) :
  0 <= m -> 0 <= round_nearest_even m l.
Proof.
  intros Hm. destruct l as [ | [ | | ]]; simpl; try lia.
  destruct (Z.even m); lia.
Qed.

(** Rounding a positive mantissa keeps the sign it is given. *)
Lemma binary_round_aux_sign (s : bool) (m : positive) (e : Z) (l : location) :
  let r := binary_round_aux prec emax s (Zpos m) e l in
  r = S754_zero s \/ r = S754_infinity s \/ exists m' e', r = S754_finite s m' e'.
Proof.
  unfold binary_round_aux.
  pose proof (shr_fexp_nonneg (Zpos m) e l ltac:(lia)) as H1.
  destruct (shr_fexp prec emax (Zpos m) e l) as [mrs' e'] eqn:E1. simpl in H1.
  pose proof (shr_fexp_nonneg (round_nearest_even (shr_m mrs') (loc_of_shr_record mrs'))
                e' loc_Exact (round_nearest_even_nonneg _ _ H1)) as H2.
  destruct (shr_fexp prec emax _ e' loc_Exact) as [mrs'' e''] eqn:E2. simpl in H2.
  destruct (shr_m mrs'') as [ | p | p]; [auto | | lia].
  destruct (e'' <=? emax - prec); eauto.
Qed.

(** The product of a negative float and a positive finite one is
    negative: minus infinity, a negative number or minus zero. *)
Lemma mul_negative_sign (x c : float) (mc : positive) (ec : Z) :
  PyFloat.lt x 0%float = true ->
  Prim2SF c = S754_finite false mc ec ->
  Prim2SF (PyFloat.mul x c) = S754_zero true \/
  Prim2SF (PyFloat.mul x c) = S754_infinity true \/
  exists m e, Prim2SF (PyFloat.mul x c) = S754_finite true m e.
Proof.
  unfold PyFloat.lt, PyFloat.mul. intros Hx Hc.
  rewrite FloatAxioms.ltb_spec in Hx. change (Prim2SF 0) with (S754_zero false) in Hx.
  rewrite FloatAxioms.mul_spec, Hc.
  destruct (Prim2SF x) as [[|]|[|]| |[|] m e]; try discriminate Hx; simpl; auto.
  apply (binary_round_aux_sign true).
Qed.

Lemma format_3f_negative (y : float) :
  (Prim2SF y = S754_zero true \/ Prim2SF y = S754_infinity true \/
   exists m e, Prim2SF y = S754_finite true m e) ->
  exists digits : string, PyFloat.format_3f y = String "-" digits.
Proof.
  unfold PyFloat.format_3f. intros [-> | [-> | (m & e & ->)]]; simpl; eauto.
Qed.

End Rounding.

(** ** Rounding to nearest, as divisions of integers *)

Module Binary64.

(** *** Digits *)

(** Abstract the powers of two, then call [lia] or [nia]. *)
Ltac pow_atoms :=
  repeat match goal with
    | |- context [2 ^ ?e] =>
        let x := fresh "pw" in
        set (x := 2 ^ e) in *; clearbody x
    | H : context [2 ^ ?e] |- _ =>
        let x := fresh "pw" in
        set (x := 2 ^ e) in *; clearbody x
    end.

Lemma digits2_pos_bounds (p : positive) :
  2 ^ (Zpos (digits2_pos p) - 1) <= Zpos p < 2 ^ Zpos (digits2_pos p).
Proof.
  induction p as [p IH | p IH | ]; cbn [digits2_pos].
  - rewrite Pos2Z.inj_succ. change (Zpos p~1) with (2 * Zpos p + 1).
    replace (Z.succ (Zpos (digits2_pos p)) - 1) with (Z.succ (Zpos (digits2_pos p) - 1)) by lia.
    rewrite !Z.pow_succ_r by lia. pow_atoms. lia.
  - rewrite Pos2Z.inj_succ. change (Zpos p~0) with (2 * Zpos p).
    replace (Z.succ (Zpos (digits2_pos p)) - 1) with (Z.succ (Zpos (digits2_pos p) - 1)) by lia.
    rewrite !Z.pow_succ_r by lia. pow_atoms. lia.
  - simpl. lia.
Qed.

Lemma Zdigits2_bounds (m : Z) :
  0 < m -> 2 ^ (Zdigits2 m - 1) <= m < 2 ^ Zdigits2 m.
Proof. destruct m as [ | p | p]; try lia. intros _. apply digits2_pos_bounds. Qed.

Lemma Zdigits2_nonneg (m : Z) : 0 <= Zdigits2 m.
Proof. destruct m; simpl; lia. Qed.

Lemma Zdigits2_pos (m : Z) : 0 < m -> 0 < Zdigits2 m.
Proof. destruct m; simpl; lia. Qed.

(** [m < 2^d] bounds the number of digits by [d]. *)
Lemma Zdigits2_le (m d : Z) : 0 <= m -> 0 <= d -> m < 2 ^ d -> Zdigits2 m <= d.
Proof.
  intros Hm Hd Hlt. destruct (Z.eq_dec m 0) as [-> | Hne]; [simpl; lia | ].
  destruct (Z.le_gt_cases (Zdigits2 m) d) as [ | Hgt]; [assumption | exfalso].
  pose proof (Zdigits2_bounds m ltac:(lia)) as [Hlo _].
  assert (2 ^ d <= 2 ^ (Zdigits2 m - 1)) by (apply Z.pow_le_mono_r; lia).
  lia.
Qed.

(** [2^(d-1) <= m] bounds the number of digits from below. *)
Lemma Zdigits2_ge (m d : Z) : 0 < m -> 2 ^ (d - 1) <= m -> d <= Zdigits2 m.
Proof.
  intros Hm Hle.
  destruct (Z.le_gt_cases d (Zdigits2 m)) as [ | Hgt]; [assumption | exfalso].
  pose proof (Zdigits2_bounds m Hm) as [_ Hhi].
  assert (2 ^ Zdigits2 m <= 2 ^ (d - 1)) by (apply Z.pow_le_mono_r; lia).
  lia.
Qed.

(** *** Shifting *)

Lemma shr_1_nonneg_spec (m : Z) (r s : bool) :
  0 <= m ->
  shr_1 (Build_shr_record m r s) = Build_shr_record (m / 2) (Z.odd m) (r || s).
Proof.
  intros Hm. destruct m as [ | [p | p | ] | p]; try lia; cbn [shr_1].
  - reflexivity.
  - f_equal. change (Zpos p~1) with (2 * Zpos p + 1). apply (Z.div_unique _ _ _ 1); lia.
  - f_equal. change (Zpos p~0) with (2 * Zpos p). apply (Z.div_unique _ _ _ 0); lia.
  - reflexivity.
Qed.

Lemma location_of_cases (r d : Z) :
  0 <= r < d ->
  match location_of r d with
  | loc_Exact => r = 0
  | loc_Inexact Lt => 0 < r /\ 2 * r < d
  | loc_Inexact Eq => 0 < r /\ 2 * r = d
  | loc_Inexact Gt => 0 < r /\ d < 2 * r
  end.
Proof.
  intros Hr. unfold location_of.
  destruct (Z.eqb_spec r 0); [assumption | ].
  destruct (Z.compare_spec (2 * r) d); lia.
Qed.

Lemma location_of_intro (r d : Z) (l : location) :
  0 <= r < d ->
  match l with
  | loc_Exact => r = 0
  | loc_Inexact Lt => 0 < r /\ 2 * r < d
  | loc_Inexact Eq => 0 < r /\ 2 * r = d
  | loc_Inexact Gt => 0 < r /\ d < 2 * r
  end ->
  l = location_of r d.
Proof.
  intros Hr Hl. unfold location_of.
  destruct l as [ | [ | | ]].
  - subst r. reflexivity.
  - destruct (Z.eqb_spec r 0); [lia | ]. f_equal. symmetry. apply Z.compare_eq_iff. lia.
  - destruct (Z.eqb_spec r 0); [lia | ]. f_equal. symmetry. apply Z.compare_lt_iff. lia.
  - destruct (Z.eqb_spec r 0); [lia | ]. f_equal. symmetry. apply Z.compare_gt_iff. lia.
Qed.

Lemma shr_1_represents (n d : Z) (mrs : shr_record) :
  0 <= n -> 0 < d -> represents n d mrs -> represents n (d * 2) (shr_1 mrs).
Proof.
  intros Hn Hd [Hm Hl]. destruct mrs as [m r s]. cbn [shr_m] in Hm.
  assert (Hm0 : 0 <= m) by (subst m; apply Z.div_pos; lia).
  rewrite shr_1_nonneg_spec by assumption.
  pose proof (Z.div_mod n d ltac:(lia)) as Hdm.
  pose proof (Z.mod_pos_bound n d Hd) as Hmod.
  pose proof (Z.div_mod m 2 ltac:(lia)) as Hdm2.
  pose proof (Z.mod_pos_bound m 2 ltac:(lia)) as Hmod2.
  assert (Hq : n / (d * 2) = m / 2) by (rewrite <- Z.div_div by lia; subst m; reflexivity).
  assert (Hr : n mod (d * 2) = d * (m mod 2) + n mod d).
  { rewrite Z.rem_mul_r by lia. subst m. lia. }
  split; [cbn [shr_m]; symmetry; exact Hq | ].
  pose proof (location_of_cases (n mod d) d Hmod) as Hc. rewrite <- Hl in Hc.
  apply location_of_intro; [apply Z.mod_pos_bound; lia | ].
  rewrite Hr. pose proof (Zmod_odd m) as Hodd.
  destruct (Z.odd m); rewrite Hodd;
    destruct r, s; cbn [loc_of_shr_record orb] in Hc |- *; lia.
Qed.

Lemma iter_shr_1_represents (n : Z) (k : positive) :
  0 <= n ->
  forall (d : Z) (mrs : shr_record),
    0 < d -> represents n d mrs ->
    represents n (d * 2 ^ Zpos k) (SpecFloat.iter_pos shr_1 k mrs).
Proof.
  intros Hn. induction k as [k IH | k IH | ]; intros d mrs Hd Hrep; cbn [SpecFloat.iter_pos].
  - replace (d * 2 ^ Zpos k~1) with (d * 2 * 2 ^ Zpos k * 2 ^ Zpos k).
    + apply IH; [ | apply IH; [lia | apply shr_1_represents; assumption]].
      pose proof (Z.pow_pos_nonneg 2 (Zpos k)). nia.
    + replace (Zpos k~1) with (Zpos k + Zpos k + 1) by lia.
      rewrite !Z.pow_add_r by lia. change (2 ^ 1) with 2. ring.
  - replace (d * 2 ^ Zpos k~0) with (d * 2 ^ Zpos k * 2 ^ Zpos k).
    + apply IH; [ | apply IH; assumption].
      pose proof (Z.pow_pos_nonneg 2 (Zpos k)). nia.
    + replace (Zpos k~0) with (Zpos k + Zpos k) by lia.
      rewrite Z.pow_add_r by lia. ring.
  - change (2 ^ 1) with 2. apply shr_1_represents; assumption.
Qed.

(** *** Rounding to nearest, ties to even *)

Lemma rne_div_bounds (n d : Z) : 0 < d -> n / d <= PyFloat.rne_div n d <= n / d + 1.
Proof.
  intros Hd. unfold PyFloat.rne_div.
  destruct (2 * (n mod d) ?= d); [destruct (Z.even (n / d)) | | ]; lia.
Qed.

(** A multiple of the divisor below [n] is below the rounded quotient. *)
Lemma rne_div_lower (n d m : Z) : 0 < d -> m * d <= n -> m <= PyFloat.rne_div n d.
Proof.
  intros Hd Hle. pose proof (rne_div_bounds n d Hd).
  assert (m <= n / d) by (apply Z.div_le_lower_bound; lia). lia.
Qed.

(** A multiple of the divisor above [n] is above the rounded quotient. *)
Lemma rne_div_upper (n d m : Z) : 0 < d -> n <= m * d -> PyFloat.rne_div n d <= m.
Proof.
  intros Hd Hle. unfold PyFloat.rne_div.
  pose proof (Z.div_mod n d ltac:(lia)) as Hdm.
  pose proof (Z.mod_pos_bound n d Hd) as Hmod.
  assert (Hq : n / d <= m) by (apply Z.div_le_upper_bound; lia).
  destruct (Z.eq_dec (n / d) m) as [Heq | Hne].
  - assert (n mod d = 0) by nia.
    destruct (Z.compare_spec (2 * (n mod d)) d); lia.
  - destruct (2 * (n mod d) ?= d); [destruct (Z.even (n / d)) | | ]; lia.
Qed.

Lemma rne_div_exact (m d : Z) : 0 < d -> PyFloat.rne_div (m * d) d = m.
Proof.
  intros Hd. apply Z.le_antisymm; [apply rne_div_upper | apply rne_div_lower]; lia.
Qed.

Lemma rne_div_nonneg (n d : Z) : 0 <= n -> 0 < d -> 0 <= PyFloat.rne_div n d.
Proof. intros Hn Hd. apply rne_div_lower; lia. Qed.

Lemma round_nearest_even_represents (n d : Z) (mrs : shr_record) :
  0 < d -> represents n d mrs ->
  round_nearest_even (shr_m mrs) (loc_of_shr_record mrs) = PyFloat.rne_div n d.
Proof.
  intros Hd [-> ->]. unfold PyFloat.rne_div, location_of.
  destruct (Z.eqb_spec (n mod d) 0) as [H0 | H0]; cbn [round_nearest_even].
  - rewrite H0. destruct (Z.compare_spec (2 * 0) d); lia.
  - destruct (2 * (n mod d) ?= d); reflexivity.
Qed.

Lemma shr_record_of_loc_represents (n d : Z) :
  represents n d (shr_record_of_loc (n / d) (location_of (n mod d) d)).
Proof.
  split; destruct (location_of (n mod d) d) as [ | [ | | ]]; reflexivity.
Qed.

Lemma shr_fexp_represents (n d e : Z) :
  0 <= n -> 0 < d ->
  let k := Z.max 0 (fexp prec emax (Zdigits2 (n / d) + e) - e) in
  represents n (d * 2 ^ k)
    (fst (shr_fexp prec emax (n / d) e (location_of (n mod d) d))) /\
  snd (shr_fexp prec emax (n / d) e (location_of (n mod d) d)) = e + k.
Proof.
  intros Hn Hd k. unfold shr_fexp, shr. subst k.
  pose proof (shr_record_of_loc_represents n d) as Hrep.
  destruct (fexp prec emax (Zdigits2 (n / d) + e) - e) as [ | k | k]; cbn [fst snd].
  - change (Z.max 0 0) with 0. rewrite Z.pow_0_r, Z.mul_1_r, Z.add_0_r. auto.
  - rewrite Z.max_r by lia. split; [ | reflexivity].
    apply iter_shr_1_represents; assumption.
  - rewrite Z.max_l by lia. rewrite Z.pow_0_r, Z.mul_1_r, Z.add_0_r. auto.
Qed.

Lemma binary_round_aux_model (s : bool) (n d e : Z) :
  0 <= n -> 0 < d ->
  binary_round_aux prec emax s (n / d) e (location_of (n mod d) d) = round_model s n d e.
Proof.
  intros Hn Hd. unfold binary_round_aux, round_model.
  destruct (shr_fexp_represents n d e Hn Hd) as [Hrep1 He1].
  destruct (shr_fexp prec emax (n / d) e (location_of (n mod d) d)) as [mrs1 e1].
  cbn [fst snd] in Hrep1, He1. subst e1.
  set (k := Z.max 0 (fexp prec emax (Zdigits2 (n / d) + e) - e)) in *.
  assert (Hk : 0 < d * 2 ^ k).
  { apply Z.mul_pos_pos; [assumption | apply Z.pow_pos_nonneg; lia]. }
  rewrite (round_nearest_even_represents n (d * 2 ^ k) mrs1 Hk Hrep1).
  set (m1 := PyFloat.rne_div n (d * 2 ^ k)).
  assert (Hm1 : 0 <= m1) by (apply rne_div_nonneg; assumption).
  pose proof (shr_fexp_represents m1 1 (e + k) Hm1 ltac:(lia)) as Hrep2.
  rewrite Z.div_1_r, Z.mod_1_r in Hrep2. change (location_of 0 1) with loc_Exact in Hrep2.
  destruct Hrep2 as [[Hm2 _] He2].
  destruct (shr_fexp prec emax m1 (e + k) loc_Exact) as [mrs2 e2].
  cbn [fst snd] in Hm2, He2. subst e2. rewrite Hm2, Z.mul_1_l. reflexivity.
Qed.

(** *** Thresholds *)

Ltac unfold_fexp := unfold fexp, SpecFloat.emin, prec, emax in *.

Lemma canonical_fexp (m : positive) (e : Z) :
  bounded prec emax m e = true ->
  fexp prec emax (Zdigits2 (Zpos m) + e) = e /\ e <= emax - prec.
Proof.
  unfold bounded, canonical_mantissa. intros [H1 H2]%andb_prop.
  apply Z.eqb_eq in H1. apply Z.leb_le in H2. auto.
Qed.

Lemma pow2_pos (e : Z) : 0 <= e -> 0 < 2 ^ e.
Proof. intros. apply Z.pow_pos_nonneg; lia. Qed.

Lemma pow2_lt_inv (a b : Z) : 0 <= a -> 0 <= b -> 2 ^ a < 2 ^ b -> a < b.
Proof. intros Ha Hb H. apply (Z.pow_lt_mono_r_iff 2); lia. Qed.

Lemma pow2_split (a b : Z) : 0 <= a -> 0 <= b -> 2 ^ (a + b) = 2 ^ a * 2 ^ b.
Proof. intros. apply Z.pow_add_r; assumption. Qed.

Lemma chain_lt (A T d mt n P mx X : Z) :
  0 < d -> 0 < T -> 0 < P -> 0 <= A -> A <= mt -> mt * T * d <= n * P ->
  n < (mx + 1) * d -> mx + 1 <= X -> A * T < X * P.
Proof.
  intros Hd HT HP HA HAm Hv Hn HX.
  assert (H1 : A * T * d <= mt * T * d).
  { apply Z.mul_le_mono_nonneg_r; [lia | ]. apply Z.mul_le_mono_nonneg_r; lia. }
  assert (H2 : n * P < (mx + 1) * d * P).
  { apply Z.mul_lt_mono_pos_r; lia. }
  assert (H3 : (mx + 1) * d * P <= X * d * P).
  { apply Z.mul_le_mono_nonneg_r; [lia | ]. apply Z.mul_le_mono_nonneg_r; lia. }
  assert (H4 : A * T * d < X * P * d) by lia.
  apply (Z.mul_lt_mono_pos_r d); assumption.
Qed.

Lemma chain_lt' (A T d mt n P mx X : Z) :
  0 < d -> 0 < T -> 0 < P -> 0 <= A -> A <= mx -> mx * d <= n -> n * P <= mt * T * d ->
  mt < X -> A * P < X * T.
Proof.
  intros Hd HT HP HA HAm Hn Hv HX.
  assert (H1 : A * d * P <= mx * d * P).
  { apply Z.mul_le_mono_nonneg_r; [lia | ]. apply Z.mul_le_mono_nonneg_r; lia. }
  assert (H2 : mx * d * P <= n * P).
  { apply Z.mul_le_mono_nonneg_r; lia. }
  assert (H3 : mt * T * d < X * T * d).
  { apply Z.mul_lt_mono_pos_r; [lia | ]. apply Z.mul_lt_mono_pos_r; lia. }
  assert (H4 : A * P * d < X * T * d) by lia.
  apply (Z.mul_lt_mono_pos_r d); assumption.
Qed.

Lemma cancel_le (a c p : Z) : 0 < p -> a * p <= c * p -> a <= c.
Proof. intros Hp H. apply (Z.mul_le_mono_pos_r _ _ p); assumption. Qed.

Section Thresholds.

(** The number that is rounded is [n / d * 2^e]; the threshold is the
    canonical float [mt * 2^et].  Exponents are compared above [b]. *)
Variables (n d e : Z) (mt : positive) (et b : Z).
Hypothesis n_nonneg : 0 <= n.
Hypothesis d_pos : 0 < d.
Hypothesis t_canonical : bounded prec emax mt et = true.
Hypothesis b_le_e : b <= e.
Hypothesis b_le_et : b <= et.
(** The quotient has enough digits: rounding does not shift to the left. *)
Hypothesis enough_digits : e <= fexp prec emax (Zdigits2 (n / d) + e).

Let mx := n / d.
Let e1 := fexp prec emax (Zdigits2 mx + e).
Let k := e1 - e.
Let m1 := PyFloat.rne_div n (d * 2 ^ k).
Let k2 := Z.max 0 (fexp prec emax (Zdigits2 m1 + e1) - e1).

Lemma round_model_unfold (s : bool) :
  round_model s n d e =
  match m1 / 2 ^ k2 with
  | Z0 => S754_zero s
  | Zpos m =>
      if e1 + k2 <=? emax - prec then S754_finite s m (e1 + k2) else S754_infinity s
  | Zneg _ => S754_nan
  end.
Proof.
  unfold round_model. fold mx. fold e1.
  replace (Z.max 0 (e1 - e)) with k by (unfold k, e1, mx; lia).
  replace (e + k) with e1 by (unfold k; lia).
  reflexivity.
Qed.

Lemma mx_bounds : mx * d <= n < (mx + 1) * d.
Proof.
  unfold mx. pose proof (Z.div_mod n d ltac:(lia)). pose proof (Z.mod_pos_bound n d d_pos).
  nia.
Qed.

Lemma mx_nonneg : 0 <= mx.
Proof. unfold mx. apply Z.div_pos; lia. Qed.

Lemma mx_lt_pow : mx + 1 <= 2 ^ Zdigits2 mx.
Proof.
  pose proof mx_nonneg. destruct (Z.eq_dec mx 0) as [-> | Hne]; [simpl; lia | ].
  pose proof (Zdigits2_bounds mx ltac:(lia)). lia.
Qed.

Lemma k_nonneg : 0 <= k.
Proof. unfold k, e1, mx. lia. Qed.

Lemma m1_nonneg : 0 <= m1.
Proof.
  apply rne_div_nonneg; [assumption | ].
  apply Z.mul_pos_pos; [assumption | apply pow2_pos, k_nonneg].
Qed.

Lemma e1_ge_emin : SpecFloat.emin prec emax <= e1.
Proof. unfold e1. unfold_fexp. lia. Qed.

(** When the last step shifts, the mantissa is large. *)
Lemma m2_pos_shift : 0 < k2 -> 0 < m1 / 2 ^ k2.
Proof.
  intros Hk2. pose proof e1_ge_emin as He1. pose proof m1_nonneg as Hm1.
  assert (Hk2' : k2 = Zdigits2 m1 - prec) by (unfold k2 in *; unfold_fexp; lia).
  assert (Hm1' : 0 < m1).
  { destruct (Z.eq_dec m1 0) as [H0 | H0]; [ | lia].
    rewrite H0 in Hk2'. simpl in Hk2'. unfold prec in Hk2'. lia. }
  pose proof (Zdigits2_bounds m1 Hm1') as [Hlo _].
  apply Z.div_str_pos. split; [apply pow2_pos; lia | ].
  eapply Z.le_trans; [ | exact Hlo]. apply Z.pow_le_mono_r; unfold prec in *; lia.
Qed.

Lemma t_digits :
  2 ^ (Zdigits2 (Zpos mt) - 1) <= Zpos mt < 2 ^ Zdigits2 (Zpos mt) /\
  fexp prec emax (Zdigits2 (Zpos mt) + et) = et /\ et <= emax - prec.
Proof.
  split; [apply Zdigits2_bounds; lia | apply canonical_fexp, t_canonical].
Qed.

Lemma dk_pos : 0 < d * 2 ^ k.
Proof. apply Z.mul_pos_pos; [exact d_pos | apply pow2_pos, k_nonneg]. Qed.

(** A float below the number is below the rounded number. *)
Lemma threshold_below :
  Zpos mt * 2 ^ (et - b) * d <= n * 2 ^ (e - b) ->
  SFleb (S754_finite false mt et) (round_model false n d e) = true.
Proof.
  intros Hv. destruct t_digits as ([Hlo Hhi] & Hcan & Hmax).
  pose proof mx_bounds as [Hmx1 Hmx2]. pose proof mx_lt_pow as Hmx3.
  pose proof mx_nonneg as Hmx0. pose proof k_nonneg as Hk.
  pose proof (Zdigits2_nonneg mx) as Hdmx.
  pose proof (Zdigits2_pos (Zpos mt) ltac:(lia)) as Hdt.
  pose proof (pow2_pos (e - b) ltac:(lia)) as HP.
  pose proof (pow2_pos (et - b) ltac:(lia)) as HT.
  pose proof (pow2_pos k Hk) as HK. pose proof dk_pos as Hdk.
  (* the number has at least as many digits as the float *)
  assert (Hdig : Zdigits2 (Zpos mt) + et <= Zdigits2 mx + e).
  { assert (H : Zdigits2 (Zpos mt) - 1 + (et - b) < Zdigits2 mx + (e - b)); [ | lia].
    apply pow2_lt_inv; try lia. rewrite !pow2_split by lia.
    apply (chain_lt _ _ d (Zpos mt) n _ mx); try assumption.
    apply Z.lt_le_incl, pow2_pos. lia. }
  assert (He1 : et <= e1) by (unfold e1; unfold_fexp; lia).
  (* the rounded mantissa *)
  assert (Hm1 : et = e1 -> Zpos mt <= m1).
  { intros Heq. apply rne_div_lower; [exact Hdk | ].
    assert (Hsplit : 2 ^ (et - b) = 2 ^ k * 2 ^ (e - b)).
    { rewrite <- pow2_split by lia. f_equal. unfold k. lia. }
    rewrite Hsplit in Hv. apply (cancel_le _ _ (2 ^ (e - b)) HP).
    replace (Zpos mt * (d * 2 ^ k) * 2 ^ (e - b))
      with (Zpos mt * (2 ^ k * 2 ^ (e - b)) * d) by ring.
    exact Hv. }
  assert (Hm1' : et < e1 -> 1 <= m1).
  { intros Hlt. apply rne_div_lower; [exact Hdk | ].
    assert (Hk' : k = Zdigits2 mx - prec) by (unfold k, e1 in *; unfold_fexp; lia).
    assert (Hmxpos : 0 < mx).
    { destruct (Z.eq_dec mx 0) as [H0 | H0]; [ | lia].
      rewrite H0 in Hk'. simpl in Hk'. unfold prec in Hk'. lia. }
    pose proof (Zdigits2_bounds mx Hmxpos) as [Hlo' _].
    assert (H2k : 2 ^ k <= 2 ^ (Zdigits2 mx - 1))
      by (apply Z.pow_le_mono_r; unfold prec in *; lia).
    assert (H3 : 2 ^ k * d <= mx * d) by (apply Z.mul_le_mono_nonneg_r; lia).
    replace (1 * (d * 2 ^ k)) with (2 ^ k * d) by ring. lia. }
  assert (Hm2 : 0 < m1 / 2 ^ k2).
  { destruct (Z.eq_dec k2 0) as [H0 | H0].
    - rewrite H0, Z.pow_0_r, Z.div_1_r.
      destruct (Z.eq_dec et e1); [specialize (Hm1 ltac:(assumption)) | ]; lia.
    - apply m2_pos_shift. unfold k2 in *. lia. }
  assert (Hm2' : et = e1 + k2 -> Zpos mt <= m1 / 2 ^ k2).
  { intros Heq. assert (H0 : k2 = 0) by (unfold k2 in *; lia).
    rewrite H0, Z.pow_0_r, Z.div_1_r. apply Hm1. lia. }
  assert (He2 : et <= e1 + k2) by (unfold k2; lia).
  rewrite round_model_unfold.
  destruct (m1 / 2 ^ k2) as [ | m2 | m2]; try lia.
  destruct (e1 + k2 <=? emax - prec); [ | reflexivity].
  unfold SFleb, SFcompare.
  destruct (Z.compare_spec et (e1 + k2)) as [Heq | Hlt | Hgt]; [ | reflexivity | lia].
  specialize (Hm2' Heq). change (Pos.compare_cont Eq mt m2) with (mt ?= m2)%positive.
  rewrite Pos2Z.inj_compare.
  destruct (Z.compare_spec (Zpos mt) (Zpos m2)); try reflexivity; lia.
Qed.

(** A float above the number is above the rounded number. *)
Lemma threshold_above :
  n * 2 ^ (e - b) <= Zpos mt * 2 ^ (et - b) * d ->
  SFleb (round_model false n d e) (S754_finite false mt et) = true.
Proof.
  intros Hv. destruct t_digits as ([Hlo Hhi] & Hcan & Hmax).
  pose proof mx_bounds as [Hmx1 Hmx2]. pose proof mx_lt_pow as Hmx3.
  pose proof mx_nonneg as Hmx0. pose proof k_nonneg as Hk.
  pose proof (Zdigits2_nonneg mx) as Hdmx.
  pose proof (Zdigits2_pos (Zpos mt) ltac:(lia)) as Hdt.
  pose proof (pow2_pos (e - b) ltac:(lia)) as HP.
  pose proof (pow2_pos (et - b) ltac:(lia)) as HT.
  pose proof (pow2_pos k Hk) as HK. pose proof m1_nonneg as Hm1.
  pose proof e1_ge_emin as Hemin. pose proof dk_pos as Hdk.
  assert (He1 : e1 <= et).
  { destruct (Z.eq_dec mx 0) as [H0 | H0].
    - unfold e1. rewrite H0. pose proof enough_digits as Hd. fold mx in Hd.
      rewrite H0 in Hd. simpl in Hd |- *. unfold_fexp. lia.
    - pose proof (Zdigits2_bounds mx ltac:(lia)) as [Hlo' _].
      pose proof (Zdigits2_pos mx ltac:(lia)) as Hdmx'.
      assert (H : Zdigits2 mx - 1 + (e - b) < Zdigits2 (Zpos mt) + (et - b)).
      { apply pow2_lt_inv; try lia. rewrite !pow2_split by lia.
        apply (chain_lt' _ _ d (Zpos mt) n _ mx); try assumption; try lia. }
      unfold e1. unfold_fexp. lia. }
  assert (Hgoal : e1 + k2 <= et /\ (e1 + k2 = et -> m1 / 2 ^ k2 <= Zpos mt)).
  { destruct (Z.eq_dec e1 et) as [Heq | Hne].
    - (* same exponent *)
      assert (Hle : m1 <= Zpos mt).
      { apply rne_div_upper; [exact Hdk | ].
        assert (Hsplit : 2 ^ (et - b) = 2 ^ k * 2 ^ (e - b)).
        { rewrite <- pow2_split by lia. f_equal. unfold k. lia. }
        rewrite Hsplit in Hv. apply (cancel_le _ _ (2 ^ (e - b)) HP).
        replace (Zpos mt * (d * 2 ^ k) * 2 ^ (e - b))
          with (Zpos mt * (2 ^ k * 2 ^ (e - b)) * d) by ring.
        exact Hv. }
      assert (Hd1 : Zdigits2 m1 <= Zdigits2 (Zpos mt)) by (apply Zdigits2_le; lia).
      assert (H0 : k2 = 0) by (unfold k2; unfold_fexp; lia).
      rewrite H0, Z.pow_0_r, Z.div_1_r. lia.
    - (* the float is in a higher binade, so it is normal *)
      assert (Hdt53 : Zdigits2 (Zpos mt) = prec) by (unfold_fexp; lia).
      rewrite Hdt53 in Hlo.
      assert (Hm1le : m1 <= 2 ^ prec).
      { apply rne_div_upper; [exact Hdk | ].
        assert (Hdk' : Zdigits2 mx <= prec + k) by (unfold k, e1; unfold_fexp; lia).
        assert (H2 : 2 ^ Zdigits2 mx <= 2 ^ (prec + k)) by (apply Z.pow_le_mono_r; lia).
        rewrite pow2_split in H2 by (unfold prec; lia).
        assert (H3 : (mx + 1) * d <= 2 ^ prec * 2 ^ k * d)
          by (apply Z.mul_le_mono_nonneg_r; lia).
        replace (2 ^ prec * (d * 2 ^ k)) with (2 ^ prec * 2 ^ k * d) by ring. lia. }
      destruct (Z.eq_dec m1 (2 ^ prec)) as [Hcarry | Hnocarry].
      + assert (H1 : k2 = 1).
        { unfold k2. rewrite Hcarry. change (Zdigits2 (2 ^ prec)) with 54.
          unfold_fexp. lia. }
        rewrite H1, Hcarry. change (2 ^ prec / 2 ^ 1) with (2 ^ (prec - 1)). lia.
      + assert (Hd1 : Zdigits2 m1 <= prec) by (apply Zdigits2_le; unfold prec in *; lia).
        assert (H0 : k2 = 0) by (unfold k2; unfold_fexp; lia).
        rewrite H0, Z.pow_0_r, Z.div_1_r. lia. }
  destruct Hgoal as [He2 Hm2].
  assert (Hm2nn : 0 <= m1 / 2 ^ k2) by (apply Z.div_pos; [lia | apply pow2_pos; unfold k2; lia]).
  rewrite round_model_unfold.
  destruct (m1 / 2 ^ k2) as [ | m2 | m2]; [reflexivity | | lia].
  replace (e1 + k2 <=? emax - prec) with true by (symmetry; apply Z.leb_le; lia).
  unfold SFleb, SFcompare.
  destruct (Z.compare_spec (e1 + k2) et) as [Heq | Hlt | Hgt]; [ | reflexivity | lia].
  specialize (Hm2 Heq). change (Pos.compare_cont Eq m2 mt) with (m2 ?= mt)%positive.
  rewrite Pos2Z.inj_compare.
  destruct (Z.compare_spec (Zpos m2) (Zpos mt)); try reflexivity; lia.
Qed.

End Thresholds.

(** *** Order of canonical numbers *)

Lemma canonical_digits_le (m : positive) (e : Z) :
  bounded prec emax m e = true ->
  Zdigits2 (Zpos m) <= prec /\ SpecFloat.emin prec emax <= e /\
  (SpecFloat.emin prec emax < e -> Zdigits2 (Zpos m) = prec).
Proof.
  intros [H _]%canonical_fexp. unfold_fexp. lia.
Qed.

(** On canonical numbers the order of [SFcompare], by exponent first, is
    the order of the values. *)
Lemma canonical_le_value (mc : positive) (ec : Z) (mx : positive) (ex b : Z) :
  bounded prec emax mc ec = true ->
  bounded prec emax mx ex = true ->
  b <= ec -> b <= ex ->
  SFleb (S754_finite false mc ec) (S754_finite false mx ex) = true ->
  Zpos mc * 2 ^ (ec - b) <= Zpos mx * 2 ^ (ex - b).
Proof.
  intros Hc Hx Hbc Hbx Hle.
  destruct (canonical_digits_le mc ec Hc) as (Hdc & Hec & _).
  destruct (canonical_digits_le mx ex Hx) as (Hdx & Hex & Hnx).
  pose proof (Zdigits2_bounds (Zpos mc) ltac:(lia)) as [_ Hmc].
  pose proof (Zdigits2_bounds (Zpos mx) ltac:(lia)) as [Hmx _].
  pose proof (pow2_pos (ec - b) ltac:(lia)) as HPc.
  unfold SFleb, SFcompare in Hle.
  destruct (Z.compare_spec ec ex) as [Heq | Hlt | Hgt]; [ | | discriminate Hle].
  - subst ex. apply Z.mul_le_mono_nonneg_r; [lia | ].
    change (Pos.compare_cont Eq mc mx) with (mc ?= mx)%positive in Hle.
    rewrite Pos2Z.inj_compare in Hle.
    destruct (Z.compare_spec (Zpos mc) (Zpos mx)); try discriminate Hle; lia.
  - rewrite (Hnx ltac:(lia)) in Hmx.
    assert (H1 : Zpos mc < 2 ^ prec).
    { eapply Z.lt_le_trans; [exact Hmc | ]. apply Z.pow_le_mono_r; lia. }
    assert (H2 : 2 ^ (ex - b) = 2 ^ (ex - ec) * 2 ^ (ec - b)).
    { rewrite <- pow2_split by lia. f_equal. lia. }
    assert (H3 : 2 <= 2 ^ (ex - ec)).
    { change 2 with (2 ^ 1) at 1. apply Z.pow_le_mono_r; lia. }
    rewrite H2.
    assert (H4 : 2 ^ prec <= Zpos mx * 2 ^ (ex - ec)).
    { change (2 ^ prec) with (2 ^ (prec - 1) * 2).
      apply Z.mul_le_mono_nonneg; lia. }
    replace (Zpos mx * (2 ^ (ex - ec) * 2 ^ (ec - b)))
      with (Zpos mx * 2 ^ (ex - ec) * 2 ^ (ec - b)) by ring.
    apply Z.mul_le_mono_nonneg_r; lia.
Qed.

(** *** Products and quotients *)

Lemma round_model_opp (n d e : Z) :
  round_model true n d e = SFopp (round_model false n d e).
Proof.
  unfold round_model.
  destruct (_ / _) as [ | m | m]; try reflexivity.
  destruct (_ <=? _); reflexivity.
Qed.

Lemma SFmul_model (sx : bool) (mx : positive) (ex : Z) (mk : positive) (ek : Z) :
  SFmul prec emax (S754_finite sx mx ex) (S754_finite false mk ek)
  = round_model sx (Zpos mx * Zpos mk) 1 (ex + ek).
Proof.
  cbn [SFmul]. rewrite xorb_false_r.
  rewrite <- binary_round_aux_model by lia.
  rewrite Z.div_1_r, Z.mod_1_r. reflexivity.
Qed.

(** The product of a mantissa and a full mantissa has enough digits. *)
Lemma enough_digits_mul (mx : positive) (ex : Z) (mk : positive) (ek : Z) :
  Zdigits2 (Zpos mk) = prec ->
  ex + ek <= fexp prec emax (Zdigits2 (Zpos mx * Zpos mk / 1) + (ex + ek)).
Proof.
  intros Hk. rewrite Z.div_1_r.
  pose proof (Zdigits2_bounds (Zpos mx) ltac:(lia)) as [Hx _].
  pose proof (Zdigits2_bounds (Zpos mk) ltac:(lia)) as [Hk' _].
  pose proof (Zdigits2_pos (Zpos mx) ltac:(lia)) as Hdx.
  rewrite Hk in Hk'.
  assert (H : Zdigits2 (Zpos mx) + prec - 1 <= Zdigits2 (Zpos mx * Zpos mk)).
  { apply Zdigits2_ge; [lia | ].
    replace (Zdigits2 (Zpos mx) + prec - 1 - 1)
      with ((Zdigits2 (Zpos mx) - 1) + (prec - 1)) by lia.
    rewrite pow2_split by (unfold prec; lia).
    apply Z.mul_le_mono_nonneg; try lia; apply Z.lt_le_incl, pow2_pos; unfold prec; lia. }
  unfold_fexp. lia.
Qed.

Lemma new_location_location_of (d r : Z) :
  0 < d -> 0 <= r < d -> new_location d r = location_of r d.
Proof.
  intros Hd Hr. unfold new_location, new_location_even, new_location_odd, location_of.
  destruct (Z.even d) eqn:Heven; [reflexivity | ].
  destruct (Z.eqb_spec r 0); [reflexivity | ]. f_equal.
  assert (Hodd : Z.odd d = true) by (rewrite <- Z.negb_even, Heven; reflexivity).
  apply Z.odd_spec in Hodd as [c Hc].
  destruct (Z.compare_spec (2 * r + 1) d); destruct (Z.compare_spec (2 * r) d);
    try reflexivity; lia.
Qed.

Lemma SFdiv_model (sx : bool) (mx : positive) (ex : Z) (sy : bool) (my : positive) (ey : Z) :
  SFdiv prec emax (S754_finite sx mx ex) (S754_finite sy my ey)
  = round_model (xorb sx sy)
      (Zpos mx * 2 ^ (ex - ey - div_exponent mx ex my ey)) (Zpos my)
      (div_exponent mx ex my ey).
Proof.
  cbn [SFdiv]. unfold SFdiv_core_binary. fold (div_exponent mx ex my ey).
  set (e' := div_exponent mx ex my ey).
  assert (Hs : 0 <= ex - ey - e') by (unfold e', div_exponent; lia).
  set (n := Zpos mx * 2 ^ (ex - ey - e')).
  assert (Hn : match ex - ey - e' with
               | Z0 => Zpos mx
               | Zpos _ => Z.shiftl (Zpos mx) (ex - ey - e')
               | Zneg _ => 0
               end = n).
  { unfold n. destruct (ex - ey - e') as [ | s | s] eqn:Es.
    - rewrite Z.pow_0_r. lia.
    - rewrite Z.shiftl_mul_pow2 by lia. reflexivity.
    - lia. }
  rewrite Hn.
  assert (Hn0 : 0 <= n) by (unfold n; apply Z.mul_nonneg_nonneg; [lia | apply Z.lt_le_incl, pow2_pos, Hs]).
  pose proof (Z.mod_pos_bound n (Zpos my) ltac:(lia)) as Hmod.
  assert (Hq : Z.div_eucl n (Zpos my) = (n / Zpos my, n mod Zpos my)).
  { unfold Z.div, Z.modulo. destruct (Z.div_eucl n (Zpos my)). reflexivity. }
  rewrite Hq, new_location_location_of by lia.
  apply binary_round_aux_model; lia.
Qed.

(** The quotient of the mantissas has enough digits. *)
Lemma enough_digits_div (mx : positive) (ex : Z) (my : positive) (ey : Z) :
  let e' := div_exponent mx ex my ey in
  e' <= fexp prec emax (Zdigits2 (Zpos mx * 2 ^ (ex - ey - e') / Zpos my) + e').
Proof.
  intros e'.
  assert (Hs : 0 <= ex - ey - e') by (unfold e', div_exponent; lia).
  destruct (Z.le_gt_cases e' (SpecFloat.emin prec emax)) as [Hle | Hgt];
    [unfold_fexp; lia | ].
  pose proof (Zdigits2_bounds (Zpos mx) ltac:(lia)) as [Hx _].
  pose proof (Zdigits2_bounds (Zpos my) ltac:(lia)) as [_ Hy].
  pose proof (Zdigits2_pos (Zpos mx) ltac:(lia)) as Hdx.
  pose proof (Zdigits2_pos (Zpos my) ltac:(lia)) as Hdy.
  set (dx := Zdigits2 (Zpos mx)) in *. set (dy := Zdigits2 (Zpos my)) in *.
  assert (Hs' : prec + dy - dx <= ex - ey - e').
  { unfold e', div_exponent in *. fold dx dy in Hgt |- *. unfold_fexp. lia. }
  set (s := ex - ey - e') in *.
  assert (Hq : 2 ^ (prec - 1) <= Zpos mx * 2 ^ s / Zpos my).
  { apply Z.div_le_lower_bound; [lia | ].
    assert (H1 : 2 ^ (dx - 1) * 2 ^ s <= Zpos mx * 2 ^ s).
    { apply Z.mul_le_mono_nonneg_r; [apply Z.lt_le_incl, pow2_pos; lia | lia]. }
    rewrite <- pow2_split in H1 by lia.
    assert (H2 : 2 ^ (dy + (prec - 1)) <= 2 ^ (dx - 1 + s)).
    { apply Z.pow_le_mono_r; unfold prec in *; lia. }
    rewrite pow2_split in H2 by (unfold prec; lia).
    assert (H3 : Zpos my * 2 ^ (prec - 1) <= 2 ^ dy * 2 ^ (prec - 1)).
    { apply Z.mul_le_mono_nonneg_r; [apply Z.lt_le_incl, pow2_pos; unfold prec; lia | lia]. }
    lia. }
  assert (Hd : prec <= Zdigits2 (Zpos mx * 2 ^ s / Zpos my)).
  { apply Zdigits2_ge; [ | exact Hq].
    eapply Z.lt_le_trans; [ | exact Hq]. apply pow2_pos. unfold prec. lia. }
  unfold_fexp. lia.
Qed.

Lemma round_model_nonneg_cases (n d e : Z) :
  0 <= n -> 0 < d ->
  round_model false n d e = S754_zero false \/
  round_model false n d e = S754_infinity false \/
  exists m e', round_model false n d e = S754_finite false m e'.
Proof.
  intros Hn Hd. unfold round_model.
  set (k := Z.max 0 _). set (m1 := PyFloat.rne_div n (d * 2 ^ k)). set (k2 := Z.max 0 _).
  assert (0 <= m1 / 2 ^ k2).
  { apply Z.div_pos; [ | apply pow2_pos; unfold k2; lia].
    apply rne_div_nonneg; [exact Hn | ].
    apply Z.mul_pos_pos; [exact Hd | apply pow2_pos; unfold k; lia]. }
  destruct (m1 / 2 ^ k2) as [ | m | m]; [auto | | lia].
  destruct (_ <=? _); eauto.
Qed.

(** What is not positive is below every positive float. *)
Lemma SFleb_opp_nonneg (r : spec_float) (mt : positive) (et : Z) :
  (r = S754_zero false \/ r = S754_infinity false \/
   exists m e', r = S754_finite false m e') ->
  SFleb (SFopp r) (S754_finite false mt et) = true.
Proof. intros [-> | [-> | (m & e' & ->)]]; reflexivity. Qed.

(** *** Floats: multiplying and dividing by a constant *)

Lemma Prim2SF_bounded (x : float) (s : bool) (m : positive) (e : Z) :
  Prim2SF x = S754_finite s m e -> bounded prec emax m e = true.
Proof. intros H. pose proof (Prim2SF_valid x) as Hv. rewrite H in Hv. exact Hv. Qed.

Section Constant.

(** [c], [K] and [t] are positive finite floats, [K] is normal. *)
Variables (c K t : float) (mc mk mt : positive) (ec ek et b : Z).
Hypothesis c_finite : Prim2SF c = S754_finite false mc ec.
Hypothesis K_finite : Prim2SF K = S754_finite false mk ek.
Hypothesis t_finite : Prim2SF t = S754_finite false mt et.
Hypothesis K_normal : Zdigits2 (Zpos mk) = prec.
Hypothesis b_small : b <= SpecFloat.emin prec emax /\ b <= SpecFloat.emin prec emax + ek /\
                     b <= SpecFloat.emin prec emax - ek /\ b <= et.

Lemma constants_bounded :
  bounded prec emax mc ec = true /\ bounded prec emax mk ek = true /\
  bounded prec emax mt et = true /\ SpecFloat.emin prec emax <= ec.
Proof.
  pose proof (Prim2SF_bounded c _ _ _ c_finite) as Hc.
  pose proof (Prim2SF_bounded K _ _ _ K_finite) as HK.
  pose proof (Prim2SF_bounded t _ _ _ t_finite) as Ht.
  destruct (canonical_digits_le mc ec Hc) as (_ & He & _). auto.
Qed.

(** [t <= c * K] exactly gives [t <= x * K] for every float [x >= c]. *)
Lemma mul_constant_ge :
  Zpos mt * 2 ^ (et - b) <= Zpos mc * Zpos mk * 2 ^ (ec + ek - b) ->
  forall x : float, PrimFloat.leb c x = true -> PrimFloat.leb t (PrimFloat.mul x K) = true.
Proof.
  intros Hconst x Hx. destruct constants_bounded as (Hc & HK & Ht & Hec).
  rewrite FloatAxioms.leb_spec in Hx |- *.
  rewrite FloatAxioms.mul_spec, c_finite in *. rewrite K_finite, t_finite.
  pose proof (Prim2SF_valid x) as Hvx.
  destruct (Prim2SF x) as [[|]|[|]| |[|] mx ex]; try discriminate Hx; try reflexivity.
  cbn [valid_binary] in Hvx. rewrite SFmul_model.
  destruct (canonical_digits_le mx ex Hvx) as (_ & Hex & _).
  apply (threshold_below _ 1 _ mt et b); try lia; try assumption.
  - apply enough_digits_mul, K_normal.
  - pose proof (canonical_le_value mc ec mx ex (b - ek) Hc Hvx ltac:(lia) ltac:(lia) Hx) as Hval.
    replace (ec - (b - ek)) with (ec + ek - b) in Hval by lia.
    replace (ex - (b - ek)) with (ex + ek - b) in Hval by lia.
    rewrite Z.mul_1_r. eapply Z.le_trans; [exact Hconst | ].
    replace (Zpos mc * Zpos mk * 2 ^ (ec + ek - b))
      with (Zpos mc * 2 ^ (ec + ek - b) * Zpos mk) by ring.
    replace (Zpos mx * Zpos mk * 2 ^ (ex + ek - b))
      with (Zpos mx * 2 ^ (ex + ek - b) * Zpos mk) by ring.
    apply Z.mul_le_mono_nonneg_r; lia.
Qed.

(** [c * K <= t] exactly gives [x * K <= t] for every float [x <= c]. *)
Lemma mul_constant_le :
  Zpos mc * Zpos mk * 2 ^ (ec + ek - b) <= Zpos mt * 2 ^ (et - b) ->
  forall x : float, PrimFloat.leb x c = true -> PrimFloat.leb (PrimFloat.mul x K) t = true.
Proof.
  intros Hconst x Hx. destruct constants_bounded as (Hc & HK & Ht & Hec).
  rewrite FloatAxioms.leb_spec in Hx |- *.
  rewrite FloatAxioms.mul_spec, c_finite in *. rewrite K_finite, t_finite.
  pose proof (Prim2SF_valid x) as Hvx.
  destruct (Prim2SF x) as [[|]|[|]| |[|] mx ex]; try discriminate Hx; try reflexivity.
  - rewrite SFmul_model, round_model_opp.
    apply SFleb_opp_nonneg, round_model_nonneg_cases; lia.
  - cbn [valid_binary] in Hvx. rewrite SFmul_model.
    destruct (canonical_digits_le mx ex Hvx) as (_ & Hex & _).
    apply (threshold_above _ 1 _ mt et b); try lia; try assumption.
    + apply enough_digits_mul, K_normal.
    + pose proof (canonical_le_value mx ex mc ec (b - ek) Hvx Hc ltac:(lia) ltac:(lia) Hx) as Hval.
      replace (ec - (b - ek)) with (ec + ek - b) in Hval by lia.
      replace (ex - (b - ek)) with (ex + ek - b) in Hval by lia.
      rewrite Z.mul_1_r. eapply Z.le_trans; [ | exact Hconst].
      replace (Zpos mc * Zpos mk * 2 ^ (ec + ek - b))
        with (Zpos mc * 2 ^ (ec + ek - b) * Zpos mk) by ring.
      replace (Zpos mx * Zpos mk * 2 ^ (ex + ek - b))
        with (Zpos mx * 2 ^ (ex + ek - b) * Zpos mk) by ring.
      apply Z.mul_le_mono_nonneg_r; lia.
Qed.

Lemma div_exponent_ge (mx : positive) (ex : Z) :
  SpecFloat.emin prec emax <= ex -> b <= div_exponent mx ex mk ek.
Proof. intros Hex. unfold div_exponent. unfold_fexp. lia. Qed.

Lemma div_value (mx : positive) (ex : Z) :
  SpecFloat.emin prec emax <= ex ->
  Zpos mx * 2 ^ (ex - ek - div_exponent mx ex mk ek) * 2 ^ (div_exponent mx ex mk ek - b)
  = Zpos mx * 2 ^ (ex - ek - b).
Proof.
  intros Hex. pose proof (div_exponent_ge mx ex Hex) as Hb.
  assert (Hs : 0 <= ex - ek - div_exponent mx ex mk ek) by (unfold div_exponent; lia).
  rewrite <- Z.mul_assoc, <- pow2_split by lia. do 2 f_equal. lia.
Qed.

(** [t * K <= c] exactly gives [t <= x / K] for every float [x >= c]. *)
Lemma div_constant_ge :
  Zpos mt * 2 ^ (et - b) * Zpos mk <= Zpos mc * 2 ^ (ec - ek - b) ->
  forall x : float, PrimFloat.leb c x = true -> PrimFloat.leb t (PrimFloat.div x K) = true.
Proof.
  intros Hconst x Hx. destruct constants_bounded as (Hc & HK & Ht & Hec).
  rewrite FloatAxioms.leb_spec in Hx |- *.
  rewrite FloatAxioms.div_spec, c_finite in *. rewrite K_finite, t_finite.
  pose proof (Prim2SF_valid x) as Hvx.
  destruct (Prim2SF x) as [[|]|[|]| |[|] mx ex]; try discriminate Hx; try reflexivity.
  cbn [valid_binary] in Hvx. unfold SF64div. rewrite SFdiv_model.
  destruct (canonical_digits_le mx ex Hvx) as (_ & Hex & _).
  cbn [xorb].
  assert (Hn : 0 <= Zpos mx * 2 ^ (ex - ek - div_exponent mx ex mk ek)).
  { apply Z.mul_nonneg_nonneg; [lia | apply Z.lt_le_incl, pow2_pos].
    unfold div_exponent. lia. }
  pose proof (div_exponent_ge mx ex Hex) as Hb.
  pose proof (enough_digits_div mx ex mk ek) as Hdig. cbn zeta in Hdig.
  assert (Hval : Zpos mt * 2 ^ (et - b) * Zpos mk
                 <= Zpos mx * 2 ^ (ex - ek - div_exponent mx ex mk ek)
                    * 2 ^ (div_exponent mx ex mk ek - b)).
  { rewrite div_value by exact Hex. eapply Z.le_trans; [exact Hconst | ].
    pose proof (canonical_le_value mc ec mx ex (b + ek) Hc Hvx ltac:(lia) ltac:(lia) Hx) as Hval.
    replace (ec - (b + ek)) with (ec - ek - b) in Hval by lia.
    replace (ex - (b + ek)) with (ex - ek - b) in Hval by lia.
    exact Hval. }
  apply (threshold_below _ _ _ mt et b); solve [assumption | lia].
Qed.

(** [c <= t * K] exactly gives [x / K <= t] for every float [x <= c]. *)
Lemma div_constant_le :
  Zpos mc * 2 ^ (ec - ek - b) <= Zpos mt * 2 ^ (et - b) * Zpos mk ->
  forall x : float, PrimFloat.leb x c = true -> PrimFloat.leb (PrimFloat.div x K) t = true.
Proof.
  intros Hconst x Hx. destruct constants_bounded as (Hc & HK & Ht & Hec).
  rewrite FloatAxioms.leb_spec in Hx |- *.
  rewrite FloatAxioms.div_spec, c_finite in *. rewrite K_finite, t_finite.
  pose proof (Prim2SF_valid x) as Hvx.
  destruct (Prim2SF x) as [[|]|[|]| |[|] mx ex]; try discriminate Hx; try reflexivity.
  - unfold SF64div. rewrite SFdiv_model. cbn [xorb]. rewrite round_model_opp.
    apply SFleb_opp_nonneg, round_model_nonneg_cases; [ | lia].
    apply Z.mul_nonneg_nonneg; [lia | apply Z.lt_le_incl, pow2_pos].
    unfold div_exponent. lia.
  - cbn [valid_binary] in Hvx. unfold SF64div. rewrite SFdiv_model.
    destruct (canonical_digits_le mx ex Hvx) as (_ & Hex & _).
    cbn [xorb].
    assert (Hn : 0 <= Zpos mx * 2 ^ (ex - ek - div_exponent mx ex mk ek)).
    { apply Z.mul_nonneg_nonneg; [lia | apply Z.lt_le_incl, pow2_pos].
      unfold div_exponent. lia. }
    pose proof (div_exponent_ge mx ex Hex) as Hb.
    pose proof (enough_digits_div mx ex mk ek) as Hdig. cbn zeta in Hdig.
    assert (Hval : Zpos mx * 2 ^ (ex - ek - div_exponent mx ex mk ek)
                     * 2 ^ (div_exponent mx ex mk ek - b)
                   <= Zpos mt * 2 ^ (et - b) * Zpos mk).
    { rewrite div_value by exact Hex. eapply Z.le_trans; [ | exact Hconst].
      pose proof (canonical_le_value mx ex mc ec (b + ek) Hvx Hc ltac:(lia) ltac:(lia) Hx) as Hval.
      replace (ec - (b + ek)) with (ec - ek - b) in Hval by lia.
      replace (ex - (b + ek)) with (ex - ek - b) in Hval by lia.
      exact Hval. }
    apply (threshold_above _ _ _ mt et b); solve [assumption | lia].
Qed.

End Constant.

(** *** The order of floats *)

Ltac compare_cases :=
  change (Pos.compare_cont Eq) with Pos.compare in *;
  repeat match goal with
    | H : context [Z.compare ?a ?b] |- _ => destruct (Z.compare_spec a b)
    | |- context [Z.compare ?a ?b] => destruct (Z.compare_spec a b)
    | H : context [Pos.compare ?a ?b] |- _ => destruct (Pos.compare_spec a b)
    | |- context [Pos.compare ?a ?b] => destruct (Pos.compare_spec a b)
    end;
  try discriminate; try reflexivity; try lia.

(** A float that is not above a positive float is a NaN or is below it. *)
Lemma SFleb_false_cases (mt : positive) (et : Z) (x : spec_float) :
  SFleb (S754_finite false mt et) x = false ->
  x = S754_nan \/ SFltb x (S754_finite false mt et) = true.
Proof.
  unfold SFleb, SFltb, SFcompare.
  destruct x as [[|]|[|]| |[|] mx ex]; intros H; auto; right; compare_cases.
Qed.

(** Below a float that is below [t] means below [t], and not above it. *)
Lemma SFleb_ltb_trans (y : spec_float) (mt' : positive) (et' : Z) (mt : positive) (et : Z) :
  SFleb y (S754_finite false mt' et') = true ->
  SFltb (S754_finite false mt' et') (S754_finite false mt et) = true ->
  SFltb y (S754_finite false mt et) = true /\ SFleb (S754_finite false mt et) y = false.
Proof.
  unfold SFleb, SFltb, SFcompare.
  destruct y as [[|]|[|]| |[|] my ey]; intros H1 H2; split; compare_cases.
Qed.

(** Above a float that is above [t] means not below [t]. *)
Lemma SFltb_leb_trans (y : spec_float) (mt' : positive) (et' : Z) (mt : positive) (et : Z) :
  SFleb (S754_finite false mt' et') y = true ->
  SFleb (S754_finite false mt et) (S754_finite false mt' et') = true ->
  SFleb (S754_finite false mt et) y = true.
Proof.
  unfold SFleb, SFltb, SFcompare.
  destruct y as [[|]|[|]| |[|] my ey]; intros H1 H2; compare_cases.
Qed.

Lemma SFltb_pred (x : spec_float) (mt' : positive) (et' : Z) (mt : positive) (et : Z) :
  valid_binary x = true ->
  SpecFloat.emin prec emax <= et' ->
  is_pred mt' et' mt et ->
  SFltb x (S754_finite false mt et) = true ->
  SFleb x (S754_finite false mt' et') = true.
Proof.
  intros Hvx Het' Hpred. unfold SFleb, SFltb, SFcompare.
  destruct x as [[|]|[|]| |[|] mx ex]; intros H; try discriminate H; try reflexivity.
  cbn [valid_binary] in Hvx.
  destruct (canonical_digits_le mx ex Hvx) as (Hdx & Hex & Hnx).
  pose proof (Zdigits2_bounds (Zpos mx) ltac:(lia)) as [Hlo Hhi].
  assert (Hmx : Zpos mx < 2 ^ prec).
  { eapply Z.lt_le_trans; [exact Hhi | ]. apply Z.pow_le_mono_r; lia. }
  destruct Hpred as [[-> Hm] | (He & Hm & Hm')].
  - compare_cases.
  - destruct (Z.compare_spec ex et) as [Heq | Hlt | Hgt]; try discriminate H.
    + rewrite (Hnx ltac:(lia)) in Hlo. rewrite <- Hm in Hlo.
      change (Pos.compare_cont Eq mx mt) with (mx ?= mt)%positive in H.
      destruct (Pos.compare_spec mx mt); try discriminate H; lia.
    + compare_cases.
Qed.

Section FloatOrder.

(** [t] and [t'] are positive finite floats. *)
Variables (t t' : float) (mt mt' : positive) (et et' : Z).
Hypothesis t_finite : Prim2SF t = S754_finite false mt et.
Hypothesis t'_finite : Prim2SF t' = S754_finite false mt' et'.

Lemma leb_false_cases (x : float) :
  PrimFloat.leb t x = false -> Prim2SF x = S754_nan \/ PrimFloat.ltb x t = true.
Proof.
  rewrite FloatAxioms.leb_spec, FloatAxioms.ltb_spec, t_finite.
  apply SFleb_false_cases.
Qed.

Lemma leb_ltb_trans (y : float) :
  PrimFloat.ltb t' t = true -> PrimFloat.leb y t' = true ->
  PrimFloat.ltb y t = true /\ PrimFloat.leb t y = false.
Proof.
  rewrite !FloatAxioms.leb_spec, !FloatAxioms.ltb_spec, t_finite, t'_finite.
  intros H1 H2. apply (SFleb_ltb_trans _ mt' et'); assumption.
Qed.

Lemma leb_trans (y : float) :
  PrimFloat.leb t t' = true -> PrimFloat.leb t' y = true -> PrimFloat.leb t y = true.
Proof.
  rewrite !FloatAxioms.leb_spec, t_finite, t'_finite.
  intros H1 H2. apply (SFltb_leb_trans _ mt' et'); assumption.
Qed.

(** When [t'] is the float just below [t]: *)
Hypothesis t'_pred : is_pred mt' et' mt et.

Lemma ltb_pred (x : float) : PrimFloat.ltb x t = true -> PrimFloat.leb x t' = true.
Proof.
  rewrite FloatAxioms.leb_spec, FloatAxioms.ltb_spec, t_finite, t'_finite.
  pose proof (Prim2SF_bounded t' _ _ _ t'_finite) as Hb.
  destruct (canonical_digits_le _ _ Hb) as (_ & He & _).
  apply SFltb_pred; [apply Prim2SF_valid | exact He | exact t'_pred].
Qed.

Lemma leb_succ (x : float) :
  PrimFloat.leb t' x = true -> x = t' \/ PrimFloat.leb t x = true.
Proof.
  rewrite !FloatAxioms.leb_spec, t_finite, t'_finite. intros H.
  pose proof (Prim2SF_valid x) as Hvx.
  pose proof (Prim2SF_bounded t _ _ _ t_finite) as Hbt.
  destruct (canonical_digits_le _ _ Hbt) as (_ & _ & Hnt).
  pose proof (Prim2SF_bounded t' _ _ _ t'_finite) as Hbt'.
  destruct (canonical_digits_le _ _ Hbt') as (_ & Het' & _).
  assert (Hcases : Prim2SF x = S754_finite false mt' et' \/
                   SFleb (S754_finite false mt et) (Prim2SF x) = true).
  { unfold SFleb, SFcompare in H |- *.
    destruct (Prim2SF x) as [[|]|[|]| |[|] mx ex]; try discriminate H; auto.
    cbn [valid_binary] in Hvx.
    destruct (canonical_digits_le mx ex Hvx) as (Hdx & Hex & Hnx).
    pose proof (Zdigits2_bounds (Zpos mx) ltac:(lia)) as [Hlo Hhi].
    assert (Hmx : Zpos mx < 2 ^ prec).
    { eapply Z.lt_le_trans; [exact Hhi | ]. apply Z.pow_le_mono_r; lia. }
    destruct t'_pred as [[-> Hm] | (He & Hm & Hm')].
    - destruct (Z.compare_spec et ex) as [Heq | Hlt | Hgt]; try discriminate H; auto.
      subst ex. change (Pos.compare_cont Eq) with Pos.compare in *.
      destruct (Pos.compare_spec mt' mx) as [-> | Hlt | Hgt]; try discriminate H; auto.
      right. destruct (Pos.compare_spec mt mx); try reflexivity; lia.
    - destruct (Z.compare_spec et' ex) as [Heq | Hlt | Hgt]; try discriminate H.
      + subst ex. change (Pos.compare_cont Eq) with Pos.compare in *.
        destruct (Pos.compare_spec mt' mx) as [-> | Hlt' | Hgt']; try discriminate H; auto.
        lia.
      + right. destruct (Z.compare_spec et ex) as [Heq | Hlt' | Hgt']; try reflexivity; [ | lia].
        subst ex. rewrite (Hnx ltac:(lia)) in Hlo.
        change (Pos.compare_cont Eq) with Pos.compare in *.
        destruct (Pos.compare_spec mt mx); try reflexivity; lia. }
  destruct Hcases as [Heq | Hle]; [left | right; exact Hle].
  apply Prim2SF_inj. rewrite Heq, t'_finite. reflexivity.
Qed.

End FloatOrder.

Section FloatOrderEq.

Variables (t : float) (mt : positive) (et : Z).
Hypothesis t_finite : Prim2SF t = S754_finite false mt et.

Lemma leb_eq_or_ltb (x : float) :
  PrimFloat.leb x t = true -> x = t \/ PrimFloat.ltb x t = true.
Proof.
  rewrite FloatAxioms.leb_spec, FloatAxioms.ltb_spec, t_finite. intros H.
  assert (Hcases : Prim2SF x = S754_finite false mt et \/
                   SFltb (Prim2SF x) (S754_finite false mt et) = true).
  { unfold SFleb, SFltb, SFcompare in H |- *.
    destruct (Prim2SF x) as [[|]|[|]| |[|] mx ex]; try discriminate H; auto.
    destruct (Z.compare_spec ex et) as [Heq | Hlt | Hgt]; try discriminate H; auto.
    subst ex. change (Pos.compare_cont Eq) with Pos.compare in *.
    destruct (Pos.compare_spec mx mt) as [Heq | Hlt | Hgt]; try discriminate H; auto.
    left. rewrite Heq. reflexivity. }
  destruct Hcases as [Heq | Hlt]; [left | right; exact Hlt].
  apply Prim2SF_inj. rewrite Heq, t_finite. reflexivity.
Qed.

Lemma ltb_leb (x : float) : PrimFloat.ltb x t = true -> PrimFloat.leb x t = true.
Proof.
  rewrite FloatAxioms.leb_spec, FloatAxioms.ltb_spec.
  unfold SFleb, SFltb. destruct (SFcompare _ _) as [[ | | ] | ]; auto.
Qed.

Lemma leb_nan (x : float) : Prim2SF x = S754_nan -> PrimFloat.leb t x = false.
Proof.
  intros H. rewrite FloatAxioms.leb_spec, H, t_finite. reflexivity.
Qed.

End FloatOrderEq.

Lemma mul_nan (x K : float) : Prim2SF x = S754_nan -> Prim2SF (PrimFloat.mul x K) = S754_nan.
Proof. intros H. rewrite FloatAxioms.mul_spec, H. reflexivity. Qed.

Lemma div_nan (x K : float) : Prim2SF x = S754_nan -> Prim2SF (PrimFloat.div x K) = S754_nan.
Proof. intros H. rewrite FloatAxioms.div_spec, H. reflexivity. Qed.

(** *** Exact products and quotients *)

Lemma SFleb_antisym_finite (r : spec_float) (m : positive) (e : Z) :
  SFleb (S754_finite false m e) r = true ->
  SFleb r (S754_finite false m e) = true ->
  r = S754_finite false m e.
Proof.
  unfold SFleb, SFcompare.
  destruct r as [[|]|[|]| |[|] mr er]; intros H1 H2; try discriminate.
  destruct (Z.compare_spec e er) as [Heq | Hlt | Hgt]; try discriminate H1.
  - subst er. rewrite Z.compare_refl in H2.
    change (Pos.compare_cont Eq) with Pos.compare in *.
    destruct (Pos.compare_spec m mr) as [Heq | Hlt | Hgt]; try discriminate H1.
    + subst mr. reflexivity.
    + destruct (Pos.compare_spec mr m); try discriminate H2; lia.
  - destruct (Z.compare_spec er e); try discriminate H2; lia.
Qed.

(** Rounding a number that is a canonical float gives that float. *)
Lemma round_model_exact (s : bool) (n d e : Z) (m : positive) (et b : Z) :
  0 <= n -> 0 < d ->
  bounded prec emax m et = true ->
  b <= e -> b <= et ->
  e <= fexp prec emax (Zdigits2 (n / d) + e) ->
  n * 2 ^ (e - b) = Zpos m * 2 ^ (et - b) * d ->
  round_model s n d e = S754_finite s m et.
Proof.
  intros Hn Hd Hm Hbe Hbt Hdig Hval.
  assert (H : round_model false n d e = S754_finite false m et).
  { apply SFleb_antisym_finite.
    - apply (threshold_below n d e m et b); solve [assumption | lia].
    - apply (threshold_above n d e m et b); solve [assumption | lia]. }
  destruct s; [rewrite round_model_opp, H; reflexivity | exact H].
Qed.

Lemma mul_one (x : float) : PrimFloat.mul x 1 = x.
Proof.
  apply Prim2SF_inj. rewrite FloatAxioms.mul_spec.
  change (Prim2SF 1) with (S754_finite false 4503599627370496 (-52)).
  pose proof (Prim2SF_valid x) as Hv.
  destruct (Prim2SF x) as [[|]|[|]| |s m e]; try reflexivity.
  cbn [valid_binary] in Hv. unfold SF64mul. rewrite SFmul_model.
  pose proof (enough_digits_mul m e 4503599627370496 (-52) eq_refl) as Hdig.
  assert (Hval : Zpos m * 4503599627370496 * 2 ^ (e + -52 - (e + -52))
                 = Zpos m * 2 ^ (e - (e + -52)) * 1).
  { replace (e + -52 - (e + -52)) with 0 by lia.
    replace (e - (e + -52)) with 52 by lia. lia. }
  apply (round_model_exact s _ 1 _ m e (e + -52)); solve [assumption | lia].
Qed.

Lemma div_self (v : float) (s : bool) (m : positive) (e : Z) :
  Prim2SF v = S754_finite s m e -> PrimFloat.div v v = 1%float.
Proof.
  intros Hv. apply Prim2SF_inj. rewrite FloatAxioms.div_spec, Hv.
  change (Prim2SF 1) with (S754_finite false 4503599627370496 (-52)).
  unfold SF64div. rewrite SFdiv_model, xorb_nilpotent.
  assert (He : div_exponent m e m e = -53).
  { unfold div_exponent.
    replace (Zdigits2 (Zpos m) + e - (Zdigits2 (Zpos m) + e)) with 0 by lia.
    replace (e - e) with 0 by lia. reflexivity. }
  pose proof (enough_digits_div m e m e) as Hdig. cbn zeta in Hdig.
  rewrite He in *. replace (e - e - -53) with 53 in * by lia.
  assert (Hval : Zpos m * 2 ^ 53 * 2 ^ (-53 - -53)
                 = 4503599627370496 * 2 ^ (-52 - -53) * Zpos m).
  { change (2 ^ (-53 - -53)) with 1. change (2 ^ (-52 - -53)) with 2. lia. }
  apply (round_model_exact false _ _ _ 4503599627370496 (-52) (-53));
    solve [assumption | lia | reflexivity].
Qed.

(** *** Dividing by a float above one *)

(** A canonical float above 1 has a full mantissa and an exponent of at
    least -52; its value is at least 1 + 2^-52. *)
Lemma above_one (md : positive) (ed : Z) :
  bounded prec emax md ed = true ->
  SFltb (S754_finite false 4503599627370496 (-52)) (S754_finite false md ed) = true ->
  -52 <= ed /\ 2 ^ (prec - 1) <= Zpos md /\
  SFleb (S754_finite false 4503599627370497 (-52)) (S754_finite false md ed) = true.
Proof.
  intros Hd Hlt. destruct (canonical_digits_le md ed Hd) as (_ & _ & Hn).
  pose proof (Zdigits2_bounds (Zpos md) ltac:(lia)) as [Hlo _].
  unfold SFltb, SFleb, SFcompare in *.
  change (Pos.compare_cont Eq) with Pos.compare in *.
  rewrite Pos2Z.inj_compare in *.
  destruct (Z.compare_spec (-52) ed) as [Heq | Hlt' | Hgt]; try discriminate Hlt.
  - subst ed.
    assert (Hnn : Zdigits2 (Zpos md) = prec) by (apply Hn; unfold SpecFloat.emin, prec, emax; lia).
    rewrite Hnn in Hlo.
    split; [lia | ]. split; [exact Hlo | ].
    destruct (Z.compare_spec 4503599627370496 (Zpos md)); try discriminate Hlt.
    destruct (Z.compare_spec 4503599627370497 (Zpos md)); try reflexivity. lia.
  - assert (Hnn : Zdigits2 (Zpos md) = prec) by (apply Hn; unfold SpecFloat.emin, prec, emax; lia).
    rewrite Hnn in Hlo. repeat split; try lia; try exact Hlo.
Qed.

Section DivideAboveOne.

Variables (ma : positive) (ea : Z) (md : positive) (ed : Z).
Hypothesis a_bounded : bounded prec emax ma ea = true.
Hypothesis d_bounded : bounded prec emax md ed = true.
Hypothesis d_above_one :
  SFltb (S754_finite false 4503599627370496 (-52)) (S754_finite false md ed) = true.

Let e' := div_exponent ma ea md ed.
Let n := Zpos ma * 2 ^ (ea - ed - e').
Let b := -2200.

Lemma divide_facts :
  SpecFloat.emin prec emax <= ea /\ ea <= emax - prec /\ ed <= emax - prec /\
  0 <= ea - ed - e' /\ b <= e' /\ b <= ea - 1 /\ 0 <= n /\
  n * 2 ^ (e' - b) = Zpos ma * 2 ^ (ea - ed - b) /\
  e' <= fexp prec emax (Zdigits2 (n / Zpos md) + e').
Proof.
  destruct (canonical_digits_le ma ea a_bounded) as (_ & Hea & _).
  destruct (canonical_fexp ma ea a_bounded) as [_ Hea'].
  destruct (canonical_fexp md ed d_bounded) as [_ Hed'].
  destruct (above_one md ed d_bounded d_above_one) as (Hed & _ & _).
  assert (Hs : 0 <= ea - ed - e') by (unfold e', div_exponent; lia).
  assert (Hb : b <= e') by (unfold e', div_exponent, b; unfold_fexp; lia).
  assert (Hb' : b <= ea - 1) by (unfold b; unfold_fexp; lia).
  assert (Hn : 0 <= n).
  { unfold n. apply Z.mul_nonneg_nonneg; [lia | apply Z.lt_le_incl, pow2_pos, Hs]. }
  assert (Hval : n * 2 ^ (e' - b) = Zpos ma * 2 ^ (ea - ed - b)).
  { unfold n. rewrite <- Z.mul_assoc, <- pow2_split by lia. do 2 f_equal. lia. }
  pose proof (enough_digits_div ma ea md ed) as Hdig. cbn zeta in Hdig.
  repeat split; assumption.
Qed.

(** The value of the divisor, scaled: [(2^52 + 1) * 2^-52 <= d]. *)
Lemma divisor_value :
  (2 ^ 52 + 1) * 2 ^ (ea - ed - b) <= Zpos md * 2 ^ (ea - b) * 2 ^ 52.
Proof.
  destruct divide_facts as (Hea & Hea' & Hed' & Hs & Hb & Hb' & _).
  destruct (above_one md ed d_bounded d_above_one) as (Hed & _ & Hle).
  pose proof (canonical_le_value 4503599627370497 (-52) md ed (ed + b - ea - 52)
                eq_refl d_bounded ltac:(unfold e', div_exponent in *; lia) ltac:(lia) Hle) as H.
  replace (-52 - (ed + b - ea - 52)) with (ea - ed - b) in H by lia.
  replace (ed - (ed + b - ea - 52)) with (ea - b + 52) in H by lia.
  rewrite pow2_split in H by lia.
  change (2 ^ 52 + 1) with 4503599627370497. lia.
Qed.

(** The quotient is at most the dividend. *)
Lemma divide_le :
  SFleb (round_model false n (Zpos md) e') (S754_finite false ma ea) = true.
Proof.
  destruct divide_facts as (Hea & Hea' & Hed' & Hs & Hb & Hb' & Hn & Hval & Hdig).
  pose proof divisor_value as Hd.
  pose proof (pow2_pos (ea - ed - b) ltac:(lia)) as HP.
  pose proof (pow2_pos (ea - b) ltac:(lia)) as HQ.
  apply (threshold_above n (Zpos md) e' ma ea b); try assumption; try lia.
  rewrite Hval.
  assert (H1 : 2 ^ 52 * 2 ^ (ea - ed - b) <= Zpos md * 2 ^ (ea - b) * 2 ^ 52) by lia.
  assert (H2 : 2 ^ (ea - ed - b) <= Zpos md * 2 ^ (ea - b)).
  { apply (cancel_le _ _ (2 ^ 52)); lia. }
  replace (Zpos ma * 2 ^ (ea - b) * Zpos md) with (Zpos md * 2 ^ (ea - b) * Zpos ma) by ring.
  rewrite (Z.mul_comm (Zpos ma)). apply Z.mul_le_mono_nonneg_r; lia.
Qed.

(** The same for a dividend above the smallest binade: the quotient is
    below the dividend. *)
Hypothesis a_large : SpecFloat.emin prec emax < ea.

Lemma a_mantissa : 2 ^ 52 <= Zpos ma < 2 ^ 53.
Proof.
  destruct (canonical_digits_le ma ea a_bounded) as (_ & _ & Hn).
  pose proof (Zdigits2_bounds (Zpos ma) ltac:(lia)) as Hb.
  rewrite (Hn a_large) in Hb. exact Hb.
Qed.

Lemma full_mantissa_bounded (m : positive) (e : Z) :
  2 ^ 52 <= Zpos m < 2 ^ 53 ->
  SpecFloat.emin prec emax <= e -> e <= emax - prec ->
  bounded prec emax m e = true.
Proof.
  intros [Hlo Hhi] He1 He2.
  assert (Hd : Zdigits2 (Zpos m) = prec).
  { apply Z.le_antisymm; [apply Zdigits2_le | apply Zdigits2_ge]; unfold prec; lia. }
  unfold bounded, canonical_mantissa. apply andb_true_intro. split.
  - apply Z.eqb_eq. change (Zpos (digits2_pos m)) with (Zdigits2 (Zpos m)).
    rewrite Hd. unfold_fexp. lia.
  - apply Z.leb_le. exact He2.
Qed.

Lemma divide_lt :
  SFltb (round_model false n (Zpos md) e') (S754_finite false ma ea) = true.
Proof.
  destruct divide_facts as (Hea & Hea' & Hed' & Hs & Hb & Hb' & Hn & Hval & Hdig).
  pose proof divisor_value as Hd. pose proof a_mantissa as [Hlo Hhi].
  pose proof (pow2_pos (ea - ed - b) ltac:(lia)) as HP.
  set (P := 2 ^ (ea - ed - b)) in *.
  change (2 ^ 52) with 4503599627370496 in *. change (2 ^ 53) with 9007199254740992 in *.
  destruct (Z.eq_dec (Zpos ma) 4503599627370496) as [Hpow | Hnpow].
  - (* a power of two: the float below is in the binade below *)
    assert (Hbp : bounded prec emax 9007199254740991 (ea - 1) = true).
    { apply full_mantissa_bounded; [ | lia | lia].
      change (2 ^ 52) with 4503599627370496. change (2 ^ 53) with 9007199254740992. lia. }
    apply (SFleb_ltb_trans _ 9007199254740991 (ea - 1)).
    + apply (threshold_above n (Zpos md) e' _ (ea - 1) b); try assumption; try lia.
      rewrite Hval. fold P. rewrite Hpow.
      pose proof (pow2_pos (ea - 1 - b) ltac:(lia)) as HQ'.
      assert (HQ : 2 ^ (ea - b) = 2 * 2 ^ (ea - 1 - b)).
      { replace (ea - b) with (1 + (ea - 1 - b)) by lia. rewrite pow2_split by lia.
        reflexivity. }
      rewrite HQ in Hd. set (Q' := 2 ^ (ea - 1 - b)) in *.
      assert (HDQ : 0 < Zpos md * Q') by (apply Z.mul_pos_pos; lia).
      set (DQ := Zpos md * Q') in *.
      replace (Zpos md * (2 * Q') * 4503599627370496)
        with (9007199254740992 * DQ) in Hd by (unfold DQ; ring).
      replace (9007199254740991 * Q' * Zpos md) with (9007199254740991 * DQ)
        by (unfold DQ; ring).
      apply (cancel_le _ _ 4503599627370497); lia.
    + unfold SFltb, SFcompare.
      destruct (Z.compare_spec (ea - 1) ea); try reflexivity; lia.
  - (* otherwise the float below has the mantissa minus one *)
    assert (Hp : Zpos (Pos.pred ma) = Zpos ma - 1) by (rewrite Pos2Z.inj_pred; lia).
    assert (Hbp : bounded prec emax (Pos.pred ma) ea = true).
    { apply full_mantissa_bounded; [ | lia | lia].
      change (2 ^ 52) with 4503599627370496. change (2 ^ 53) with 9007199254740992. lia. }
    apply (SFleb_ltb_trans _ (Pos.pred ma) ea).
    + apply (threshold_above n (Zpos md) e' _ ea b); try assumption; try lia.
      rewrite Hval, Hp. fold P.
      pose proof (pow2_pos (ea - b) ltac:(lia)) as HQ.
      assert (HDQ : 0 < Zpos md * 2 ^ (ea - b)) by (apply Z.mul_pos_pos; lia).
      set (DQ := Zpos md * 2 ^ (ea - b)) in *.
      replace ((Zpos ma - 1) * 2 ^ (ea - b) * Zpos md) with ((Zpos ma - 1) * DQ)
        by (unfold DQ; ring).
      apply (cancel_le _ _ 4503599627370496); [lia | ].
      assert (H1 : Zpos ma * P * 4503599627370496
                   <= (Zpos ma - 1) * (4503599627370497 * P)).
      { replace (Zpos ma * P * 4503599627370496)
          with (Zpos ma * 4503599627370496 * P) by ring.
        replace ((Zpos ma - 1) * (4503599627370497 * P))
          with ((Zpos ma - 1) * 4503599627370497 * P) by ring.
        apply Z.mul_le_mono_nonneg_r; lia. }
      assert (H2 : (Zpos ma - 1) * (4503599627370497 * P)
                   <= (Zpos ma - 1) * (DQ * 4503599627370496)).
      { apply Z.mul_le_mono_nonneg_l; lia. }
      replace ((Zpos ma - 1) * DQ * 4503599627370496)
        with ((Zpos ma - 1) * (DQ * 4503599627370496)) by ring.
      lia.
    + unfold SFltb, SFcompare. rewrite Z.compare_refl.
      change (Pos.compare_cont Eq) with Pos.compare. rewrite Pos2Z.inj_compare, Hp.
      destruct (Z.compare_spec (Zpos ma - 1) (Zpos ma)); try reflexivity; lia.
Qed.

End DivideAboveOne.

Lemma nonneg_finite_cases (x : float) :
  nonneg_finite x = true ->
  (exists s, Prim2SF x = S754_zero s) \/ exists m e, Prim2SF x = S754_finite false m e.
Proof.
  unfold nonneg_finite. intros [H1 H2]%andb_prop.
  rewrite FloatAxioms.leb_spec in H1. rewrite FloatAxioms.ltb_spec in H2.
  change (Prim2SF 0) with (S754_zero false) in H1.
  change (Prim2SF infinity) with (S754_infinity false) in H2.
  destruct (Prim2SF x) as [s|[|]| |[|] m e]; try discriminate; eauto.
Qed.

Lemma nonneg_finite_intro (x : float) :
  ((exists s, Prim2SF x = S754_zero s) \/ exists m e, Prim2SF x = S754_finite false m e) ->
  nonneg_finite x = true.
Proof.
  unfold nonneg_finite. rewrite FloatAxioms.leb_spec, FloatAxioms.ltb_spec.
  change (Prim2SF 0) with (S754_zero false).
  change (Prim2SF infinity) with (S754_infinity false).
  intros [[s ->] | (m & e & ->)]; reflexivity.
Qed.

Lemma div_above_one (a d : float) :
  nonneg_finite a = true ->
  PrimFloat.ltb 1 d = true ->
  nonneg_finite (PrimFloat.div a d) = true /\
  PrimFloat.leb (PrimFloat.div a d) a = true /\
  (PrimFloat.leb second_binade a = true -> PrimFloat.ltb (PrimFloat.div a d) a = true).
Proof.
  intros Ha Hd. apply nonneg_finite_cases in Ha.
  rewrite FloatAxioms.ltb_spec in Hd.
  change (Prim2SF 1) with (S754_finite false 4503599627370496 (-52)) in Hd.
  rewrite !FloatAxioms.leb_spec, FloatAxioms.ltb_spec.
  change (Prim2SF second_binade) with (S754_finite false 4503599627370496 (-1073)).
  pose proof (Prim2SF_valid d) as Hvd.
  assert (Hq : Prim2SF (PrimFloat.div a d) = SFdiv prec emax (Prim2SF a) (Prim2SF d))
    by apply FloatAxioms.div_spec.
  destruct Ha as [[s Ha] | (ma & ea & Ha)].
  - (* zero divided by a positive float *)
    rewrite Ha in *.
    assert (Hz : Prim2SF (PrimFloat.div a d) = S754_zero s).
    { rewrite Hq. destruct (Prim2SF d) as [[|]|[|]| |[|] md ed]; try discriminate Hd;
        destruct s; reflexivity. }
    rewrite Hz. split; [apply nonneg_finite_intro; left; eauto | ].
    split; [destruct s; reflexivity | discriminate].
  - pose proof (Prim2SF_bounded a _ _ _ Ha) as Hba. rewrite Ha in *.
    destruct (Prim2SF d) as [[|]|[|]| |[|] md ed] eqn:Ed; try discriminate Hd.
    + (* divided by infinity *)
      cbn [SFdiv xorb] in Hq. rewrite Hq.
      split; [apply nonneg_finite_intro; left; eauto | ].
      split; reflexivity.
    + cbn [valid_binary] in Hvd. rewrite SFdiv_model in Hq. cbn [xorb] in Hq.
      pose proof (divide_le ma ea md ed Hba Hvd Hd) as Hle.
      cbv zeta in Hle. rewrite <- Hq in Hle.
      split; [ | split; [exact Hle | ]].
      * apply nonneg_finite_intro.
        destruct (round_model_nonneg_cases
                    (Zpos ma * 2 ^ (ea - ed - div_exponent ma ea md ed)) (Zpos md)
                    (div_exponent ma ea md ed)) as [Hr | [Hr | (m & e & Hr)]].
        -- apply Z.mul_nonneg_nonneg; [lia | apply Z.lt_le_incl, pow2_pos].
           unfold div_exponent. lia.
        -- lia.
        -- left. exists false. rewrite Hq. exact Hr.
        -- rewrite Hq, Hr in Hle. discriminate Hle.
        -- right. exists m, e. rewrite Hq. exact Hr.
      * intros Hlarge.
        assert (Hea : SpecFloat.emin prec emax < ea).
        { unfold SFleb, SFcompare in Hlarge.
          destruct (Z.compare_spec (-1073) ea); try discriminate Hlarge;
            unfold SpecFloat.emin, prec, emax; lia. }
        pose proof (divide_lt ma ea md ed Hba Hvd Hd Hea) as Hlt.
        cbv zeta in Hlt. rewrite <- Hq in Hlt. exact Hlt.
Qed.

(** *** The thresholds of the format functions *)

Ltac constant_side := repeat split; solve [reflexivity | apply Z.leb_le; vm_compute; reflexivity].
Ltac pred_side := vm_compute; solve [left; split; reflexivity | right; repeat split; reflexivity].

Lemma ge_scaled_1000 (x : float) :
  PrimFloat.leb 1 (PrimFloat.mul x 1000) = PrimFloat.leb 0.001 x.
Proof.
  destruct (PrimFloat.leb 0.001 x) eqn:Hx.
  - revert Hx. eapply (mul_constant_ge 0.001 1000 1 _ _ _ _ _ _ (-2200)); constant_side.
  - eapply (leb_false_cases 0.001) in Hx as [Hnan | Hlt]; [ | | reflexivity].
    + eapply leb_nan; [reflexivity | apply mul_nan, Hnan].
    + eapply (ltb_pred 0.001 (next_down 0.001)) in Hlt; [ | reflexivity | reflexivity | pred_side].
      eapply (mul_constant_le (next_down 0.001) 1000 (next_down 1) _ _ _ _ _ _ (-2200)) in Hlt;
        [ | constant_side ..].
      eapply (leb_ltb_trans 1 (next_down 1)); [reflexivity | reflexivity | reflexivity | exact Hlt].
Qed.

Lemma ge_scaled_1000000 (x : float) :
  PrimFloat.leb 1 (PrimFloat.mul x 1000000) = PrimFloat.leb 0.000001 x.
Proof.
  destruct (PrimFloat.leb 0.000001 x) eqn:Hx.
  - eapply (leb_succ (next_up 0.000001) 0.000001) in Hx as [-> | Hx];
      [reflexivity | | reflexivity | reflexivity | pred_side].
    revert Hx.
    eapply (mul_constant_ge (next_up 0.000001) 1000000 1 _ _ _ _ _ _ (-2200)); constant_side.
  - eapply (leb_false_cases 0.000001) in Hx as [Hnan | Hlt]; [ | | reflexivity].
    + eapply leb_nan; [reflexivity | apply mul_nan, Hnan].
    + eapply (ltb_pred 0.000001 (next_down 0.000001)) in Hlt;
        [ | reflexivity | reflexivity | pred_side].
      eapply (mul_constant_le (next_down 0.000001) 1000000 (next_down 1) _ _ _ _ _ _ (-2200))
        in Hlt; [ | constant_side ..].
      eapply (leb_ltb_trans 1 (next_down 1)); [reflexivity | reflexivity | reflexivity | exact Hlt].
Qed.

Lemma ge_divided_1000 (x : float) :
  PrimFloat.leb 1 (PrimFloat.div x 1000) = PrimFloat.leb 1000 x.
Proof.
  destruct (PrimFloat.leb 1000 x) eqn:Hx.
  - revert Hx. eapply (div_constant_ge 1000 1000 1 _ _ _ _ _ _ (-2200)); constant_side.
  - eapply (leb_false_cases 1000) in Hx as [Hnan | Hlt]; [ | | reflexivity].
    + eapply leb_nan; [reflexivity | apply div_nan, Hnan].
    + eapply (ltb_pred 1000 (next_down 1000)) in Hlt; [ | reflexivity | reflexivity | pred_side].
      eapply (div_constant_le (next_down 1000) 1000 (next_down 1) _ _ _ _ _ _ (-2200)) in Hlt;
        [ | constant_side ..].
      eapply (leb_ltb_trans 1 (next_down 1)); [reflexivity | reflexivity | reflexivity | exact Hlt].
Qed.

Lemma lt_scaled_1000 (x : float) :
  PrimFloat.ltb x 1 = true -> PrimFloat.ltb (PrimFloat.mul x 1000) 1000 = true.
Proof.
  intros Hx.
  eapply (ltb_pred 1 (next_down 1)) in Hx; [ | reflexivity | reflexivity | pred_side].
  eapply (leb_eq_or_ltb (next_down 1)) in Hx as [-> | Hx]; [reflexivity | | reflexivity].
  eapply (ltb_pred (next_down 1) (next_down (next_down 1))) in Hx;
    [ | reflexivity | reflexivity | pred_side].
  eapply (mul_constant_le (next_down (next_down 1)) 1000 (next_down 1000) _ _ _ _ _ _ (-2200))
    in Hx; [ | constant_side ..].
  eapply (leb_ltb_trans 1000 (next_down 1000)); [reflexivity | reflexivity | reflexivity | exact Hx].
Qed.

Lemma lt_scaled_1000000 (x : float) :
  PrimFloat.ltb x 0.001 = true -> PrimFloat.ltb (PrimFloat.mul x 1000000) 1000 = true.
Proof.
  intros Hx.
  eapply (ltb_pred 0.001 (next_down 0.001)) in Hx; [ | reflexivity | reflexivity | pred_side].
  eapply (mul_constant_le (next_down 0.001) 1000000 (next_down 1000) _ _ _ _ _ _ (-2200))
    in Hx; [ | constant_side ..].
  eapply (leb_ltb_trans 1000 (next_down 1000)); [reflexivity | reflexivity | reflexivity | exact Hx].
Qed.

End Binary64.

(** ** Units outside a conversion table *)

Section UnknownUnits.

Lemma dict_get_unknown (d : dimension) (u : unit_tag) :
  dict_get (table_of d) (as_base_if_unknown d u) 1%float = dict_get (table_of d) u 1%float.
Proof.
  unfold as_base_if_unknown, in_table, dict_get.
  destruct (table_of d u) eqn:E; [rewrite E; reflexivity | ].
  destruct d; reflexivity.
Qed.

Lemma to_base_unknown (d : dimension) (value : float) (u : unit_tag) :
  to_base d value (as_base_if_unknown d u) = to_base d value u.
Proof. unfold to_base. rewrite dict_get_unknown. reflexivity. Qed.

Lemma calculate_mass_unknown molarity volume mw purity volume_unit conc_unit :
  calculate_mass molarity volume mw purity volume_unit conc_unit
  = calculate_mass molarity volume mw purity
      (as_base_if_unknown DVolume volume_unit)
      (as_base_if_unknown DConcentration conc_unit).
Proof. unfold calculate_mass. rewrite !to_base_unknown. reflexivity. Qed.

Lemma calculate_molarity_unknown mass volume mw purity mass_unit volume_unit :
  calculate_molarity mass volume mw purity mass_unit volume_unit
  = calculate_molarity mass volume mw purity
      (as_base_if_unknown DMass mass_unit)
      (as_base_if_unknown DVolume volume_unit).
Proof. unfold calculate_molarity. rewrite !to_base_unknown. reflexivity. Qed.

Lemma calculate_stock_volume_unknown c1 c2 v2 c1_unit c2_unit v2_unit :
  calculate_stock_volume c1 c2 v2 c1_unit c2_unit v2_unit
  = calculate_stock_volume c1 c2 v2
      (as_base_if_unknown DConcentration c1_unit)
      (as_base_if_unknown DConcentration c2_unit)
      (as_base_if_unknown DVolume v2_unit).
Proof. unfold calculate_stock_volume. rewrite !to_base_unknown. reflexivity. Qed.

Lemma calculate_percent_solution_unknown mass volume mass_unit volume_unit :
  calculate_percent_solution mass volume mass_unit volume_unit
  = calculate_percent_solution mass volume
      (as_base_if_unknown DMass mass_unit)
      (as_base_if_unknown DVolume volume_unit).
Proof. unfold calculate_percent_solution. rewrite !to_base_unknown. reflexivity. Qed.

Lemma serial_dilution_loop_unknown factor conc_unit k :
  forall i current results,
    serial_dilution_loop factor conc_unit k i current results
    = serial_dilution_loop factor (as_base_if_unknown DConcentration conc_unit)
        k i current results.
Proof.
  induction k as [ | k IH]; intros i current results; simpl; [reflexivity | ].
  rewrite to_base_unknown.
  destruct (PyFloat.truediv current factor); simpl; [apply IH | reflexivity].
Qed.

Lemma calculate_serial_dilution_unknown initial_conc factor num_dilutions conc_unit :
  calculate_serial_dilution initial_conc factor num_dilutions conc_unit
  = calculate_serial_dilution initial_conc factor num_dilutions
      (as_base_if_unknown DConcentration conc_unit).
Proof. apply serial_dilution_loop_unknown. Qed.

End UnknownUnits.

(** C1, as the specification states it, fails: with the concentration unit
    [% w/v], which is not a key of [CONC_TO_MOLAR], [calculate_mass] does
    not fail with [UnsupportedUnitError]; it returns the mass computed with
    the factor 1. *)
Lemma unknown_unit_is_not_an_error :
  in_table DConcentration PERCENT_WV = false /\
  calculate_mass 1 1 58.44 100 LITERS PERCENT_WV = Ok (58.44%float, "58.440 g") /\
  calculate_mass 1 1 58.44 100 LITERS PERCENT_WV <> Raise UnsupportedUnitError.
Proof. vm_compute. repeat split. discriminate. Qed.

(** ** Zero denominators *)

(** C9: with a purity that is exactly zero, [purity / 100.0] is a zero and
    the division of the mass by it raises [ZeroDivisionError]; nothing in
    [calculate_mass] catches it, so the call raises, whatever the other
    arguments are. *)
Theorem calculate_mass_zero_purity_raises
    (molarity volume mw purity : float) (volume_unit conc_unit : unit_tag) :
  PyFloat.eq purity 0%float = true ->
  PyFloat.truediv purity 100%float = Ok (PrimFloat.div purity 100%float) /\
  PyFloat.eq (PrimFloat.div purity 100%float) 0%float = true /\
  calculate_mass molarity volume mw purity volume_unit conc_unit
  = Raise ZeroDivisionError.
Proof.
  intros [-> | ->]%FloatFacts.eq_zero_inv; repeat split.
Qed.

Lemma calculate_mass_zero_purity_raises_witness :
  calculate_mass 1 1 58.44 0 LITERS MOLAR = Raise ZeroDivisionError.
Proof.
  apply (calculate_mass_zero_purity_raises 1 1 58.44 0 LITERS MOLAR). reflexivity.
Defined.

(** C7: when the stock concentration, converted to molar, is exactly zero,
    [calculate_stock_volume] returns at once the stock volume [0.0] with the
    string ["0 L"] and, as diluent, the whole target volume in liters with
    its formatted string.  No division takes place: the division that the
    other branch starts with would have raised. *)
Theorem calculate_stock_volume_zero_stock
    (c1 c2 v2 : float) (c1_unit c2_unit v2_unit : unit_tag) :
  PyFloat.eq (to_base DConcentration c1 c1_unit) 0%float = true ->
  let v2_L := to_base DVolume v2 v2_unit in
  calculate_stock_volume c1 c2 v2 c1_unit c2_unit v2_unit
  = Ok (0%float, "0 L", v2_L, format_volume v2_L) /\
  PyFloat.truediv (PyFloat.mul (to_base DConcentration c2 c2_unit) v2_L)
    (to_base DConcentration c1 c1_unit)
  = Raise ZeroDivisionError.
Proof.
  intros Hc1 v2_L. unfold calculate_stock_volume, PyFloat.truediv.
  rewrite Hc1. split; reflexivity.
Qed.

Lemma calculate_stock_volume_zero_stock_witness :
  calculate_stock_volume 0 1 100 MOLAR MOLAR MILLILITERS
  = Ok (0%float, "0 L", 0.1%float, "100.000 mL").
Proof.
  apply (calculate_stock_volume_zero_stock 0 1 100 MOLAR MOLAR MILLILITERS).
  reflexivity.
Defined.

(** ** Negative values *)

Section Negative.

Variable x : float.
Hypothesis x_negative : PyFloat.lt x 0%float = true.

Lemma negative_not_ge (c : float) : PyFloat.gt c 0%float = true -> PyFloat.ge x c = false.
Proof. apply FloatFacts.lt_zero_not_ge, x_negative. Qed.

Lemma format_mass_negative :
  format_mass x = PyFloat.format_3f (PyFloat.mul x 1000000%float) ++ " µg".
Proof. unfold format_mass. rewrite !negative_not_ge; reflexivity. Qed.

Lemma format_volume_negative :
  format_volume x = PyFloat.format_3f (PyFloat.mul x 1000000%float) ++ " µL".
Proof. unfold format_volume. rewrite !negative_not_ge; reflexivity. Qed.

Lemma format_concentration_negative :
  format_concentration x
  = PyFloat.format_3f (PyFloat.mul x 1000000000%float) ++ " nM".
Proof. unfold format_concentration. rewrite !negative_not_ge; reflexivity. Qed.

Lemma format_3f_scaled_negative (c : float) (mc : positive) (ec : Z) :
  Prim2SF c = S754_finite false mc ec ->
  exists digits : string, PyFloat.format_3f (PyFloat.mul x c) = String "-" digits.
Proof.
  intros Hc. apply Rounding.format_3f_negative.
  exact (Rounding.mul_negative_sign x c mc ec x_negative Hc).
Qed.

End Negative.

(** C10: a negative base value fails every [>=] test of the three format
    functions, so each of them takes its last branch: the value times
    [1000000] (times [1000000000] for a concentration) with three decimals
    and the smallest unit, and the text starts with a minus sign.  In
    particular, a negative diluent volume returned by
    [calculate_stock_volume] comes with that text in microliters. *)
Theorem negative_values_format_in_smallest_unit (x : float) :
  PyFloat.lt x 0%float = true ->
  format_mass x = PyFloat.format_3f (PyFloat.mul x 1000000%float) ++ " µg" /\
  format_volume x = PyFloat.format_3f (PyFloat.mul x 1000000%float) ++ " µL" /\
  format_concentration x
  = PyFloat.format_3f (PyFloat.mul x 1000000000%float) ++ " nM" /\
  (exists digits, PyFloat.format_3f (PyFloat.mul x 1000000%float) = String "-" digits) /\
  (exists digits, PyFloat.format_3f (PyFloat.mul x 1000000000%float) = String "-" digits) /\
  (forall c1 c2 v2 c1_unit c2_unit v2_unit v1_L formatted_v1 formatted_diluent,
      calculate_stock_volume c1 c2 v2 c1_unit c2_unit v2_unit
      = Ok (v1_L, formatted_v1, x, formatted_diluent) ->
      formatted_diluent = PyFloat.format_3f (PyFloat.mul x 1000000%float) ++ " µL").
Proof.
  intros Hx. repeat split.
  - apply format_mass_negative, Hx.
  - apply format_volume_negative, Hx.
  - apply format_concentration_negative, Hx.
  - eapply format_3f_scaled_negative; [exact Hx | reflexivity].
  - eapply format_3f_scaled_negative; [exact Hx | reflexivity].
  - intros c1 c2 v2 c1_unit c2_unit v2_unit v1_L formatted_v1 formatted_diluent.
    unfold calculate_stock_volume.
    destruct (PyFloat.eq (to_base DConcentration c1 c1_unit) 0%float).
    + intros [= _ _ <- <-]. apply format_volume_negative, Hx.
    + destruct (PyFloat.truediv _ _) as [v1 | e]; simpl; [ | discriminate].
      intros [= _ _ <- <-]. apply format_volume_negative, Hx.
Qed.

Lemma negative_values_format_in_smallest_unit_witness :
  format_volume (-9) = "-9000000.000 µL" /\
  calculate_stock_volume 1 10 1 MOLAR MOLAR LITERS
  = Ok (10%float, "10.000 L", (-9)%float, "-9000000.000 µL").
Proof.
  destruct (negative_values_format_in_smallest_unit (-9) eq_refl) as (_ & H & _).
  split; [rewrite H | ]; reflexivity.
Defined.

(** ** Serial dilution *)

Section SerialDilution.

Variables (dilution_factor : float) (conc_unit : unit_tag).
Hypothesis factor_nonzero : PyFloat.eq dilution_factor 0%float = false.

Lemma truediv_factor (x : float) :
  PyFloat.truediv x dilution_factor = Ok (PrimFloat.div x dilution_factor).
Proof. unfold PyFloat.truediv. rewrite factor_nonzero. reflexivity. Qed.

Lemma serial_dilution_loop_entries (k : nat) :
  forall (i : Z) (current : float) (results : list series_entry),
    serial_dilution_loop dilution_factor conc_unit k i current results
    = Ok (results ++ map (entry_at dilution_factor conc_unit i current) (seq 0 k))%list.
Proof.
  induction k as [ | k IH]; intros i current results; simpl.
  - rewrite app_nil_r. reflexivity.
  - rewrite truediv_factor. simpl. rewrite IH, <- app_assoc. simpl.
    do 3 f_equal.
    + unfold entry_at. simpl. rewrite Z.add_0_r. reflexivity.
    + rewrite <- seq_shift, map_map. apply map_ext. intros j.
      unfold entry_at. simpl. do 2 f_equal. lia.
Qed.

Lemma calculate_serial_dilution_entries (initial_conc : float) (num_dilutions : Z) :
  calculate_serial_dilution initial_conc dilution_factor num_dilutions conc_unit
  = Ok (map (entry_at dilution_factor conc_unit 0 initial_conc)
          (seq 0 (Z.to_nat (num_dilutions + 1)))).
Proof. unfold calculate_serial_dilution. apply serial_dilution_loop_entries. Qed.

Lemma raw_concentrations_entries (i : Z) (current : float) (k : nat) :
  raw_concentrations (map (entry_at dilution_factor conc_unit i current) (seq 0 k))
  = map (fun j => divided dilution_factor j current) (seq 0 k).
Proof. unfold raw_concentrations. rewrite map_map. reflexivity. Qed.

Lemma divided_succ (j : nat) (x : float) :
  divided dilution_factor (S j) x
  = PrimFloat.div (divided dilution_factor j x) dilution_factor.
Proof. revert x. induction j as [ | j IH]; intros x; [reflexivity | apply (IH _)]. Qed.

End SerialDilution.

(** C6, as the specification states it, fails for the dilution factor 0:
    the division that follows each entry, the last one included, raises
    [ZeroDivisionError], so no entry is returned, not even for
    [num_dilutions = 0]. *)
Lemma serial_dilution_by_zero_raises :
  calculate_serial_dilution 1000 0 3 MOLAR = Raise ZeroDivisionError /\
  calculate_serial_dilution 1000 0 0 MOLAR = Raise ZeroDivisionError.
Proof. split; reflexivity. Qed.

(** C6 (amended): for every initial concentration, every dilution factor
    other than zero and every [num_dilutions >= 0], the series has exactly
    [num_dilutions + 1] entries, and entry [i] is the triple of [i], the
    initial concentration divided [i] times by the factor (in the caller's
    unit) and the formatted text of that concentration times the unit's
    factor to molar. *)
Theorem serial_dilution_series
    (initial_conc dilution_factor : float) (num_dilutions : Z) (conc_unit : unit_tag) :
  PyFloat.eq dilution_factor 0%float = false ->
  0 <= num_dilutions ->
  exists entries : list series_entry,
    calculate_serial_dilution initial_conc dilution_factor num_dilutions conc_unit
    = Ok entries /\
    Z.of_nat (length entries) = num_dilutions + 1 /\
    forall i : nat,
      Z.of_nat i <= num_dilutions ->
      entries !! i
      = Some (Z.of_nat i,
              divided dilution_factor i initial_conc,
              format_concentration
                (to_base DConcentration (divided dilution_factor i initial_conc) conc_unit)).
Proof.
  intros Hd Hn. eexists. split; [apply calculate_serial_dilution_entries, Hd | ].
  split.
  - rewrite length_map, length_seq. lia.
  - intros i Hi. rewrite list_lookup_fmap.
    rewrite (lookup_seq_lt 0 (Z.to_nat (num_dilutions + 1)) i) by lia.
    reflexivity.
Qed.

Lemma serial_dilution_series_witness :
  exists entries : list series_entry,
    calculate_serial_dilution 1000 10 3 MOLAR = Ok entries /\
    Z.of_nat (length entries) = 4 /\
    entries !! 0%nat = Some (0, 1000%float, "1000.000 M") /\
    entries !! 1%nat = Some (1, 100%float, "100.000 M") /\
    entries !! 2%nat = Some (2, 10%float, "10.000 M") /\
    entries !! 3%nat = Some (3, 1%float, "1.000 M").
Proof.
  destruct (serial_dilution_series 1000 10 3 MOLAR eq_refl ltac:(lia))
    as (entries & Hrun & Hlen & Hentry).
  exists entries. split; [exact Hrun | ]. split; [exact Hlen | ].
  repeat split.
  - exact (Hentry 0%nat ltac:(lia)).
  - exact (Hentry 1%nat ltac:(lia)).
  - exact (Hentry 2%nat ltac:(lia)).
  - exact (Hentry 3%nat ltac:(lia)).
Defined.

(** C4, as the specification states it, fails for the initial
    concentration 0 (and for negative ones): with the factor 10 the series
    is 0, 0 and the second concentration is not below the first. *)
Lemma serial_dilution_of_zero_does_not_decrease :
  PyFloat.gt 10 1 = true /\
  calculate_serial_dilution 0 10 1 MOLAR
  = Ok [(0, 0%float, "0.000 nM"); (1, 0%float, "0.000 nM")] /\
  PyFloat.lt 0 0 = false /\
  calculate_serial_dilution (-1) 10 1 MOLAR
  = Ok [(0, (-1)%float, "-1000000000.000 nM"); (1, (-0.1)%float, "-100000000.000 nM")] /\
  PyFloat.lt (-0.1) (-1) = false.
Proof. vm_compute. repeat split. Qed.

(** ** Recipe scaling on the heap *)

Section ScaleRecipe.

Implicit Types (h : heap) (l : loc) (d : gmap string value).

Open Scope list_scope.

Lemma bind_ok {A B : Type} (m : Py A) (k : A -> Py B) h (a : A) h' :
  m h = Ok (a, h') -> (m ≫= k) h = k a h'.
Proof. intros H. unfold mbind, Py_bind. rewrite H. reflexivity. Qed.

Lemma dict_copy_ok h l d :
  h !! l = Some (ODict d) -> dict_copy l h = Ok (length h, h ++ [ODict d]).
Proof. intros H. unfold dict_copy, load, mbind, Py_bind. rewrite H. reflexivity. Qed.

Lemma dict_getitem_ok h l d (k : string) (v : value) :
  h !! l = Some (ODict d) -> d !! k = Some v -> dict_getitem l k h = Ok (v, h).
Proof.
  intros H Hk. unfold dict_getitem, load, mbind, Py_bind. rewrite H, Hk. reflexivity.
Qed.

Lemma dict_setitem_ok h l d (k : string) (v : value) :
  h !! l = Some (ODict d) ->
  dict_setitem l k v h = Ok ((), <[l := ODict (<[k := v]> d)]> h).
Proof. intros H. unfold dict_setitem, load, mbind, Py_bind. rewrite H. reflexivity. Qed.

Lemma list_append_ok h l (items : list loc) (x : loc) :
  h !! l = Some (OList items) ->
  list_append l x h = Ok ((), <[l := OList (items ++ [x])]> h).
Proof. intros H. unfold list_append, load, mbind, Py_bind. rewrite H. reflexivity. Qed.

Lemma list_items_ok h l (items : list loc) :
  h !! l = Some (OList items) -> list_items l h = Ok (items, h).
Proof. intros H. unfold list_items, load, mbind, Py_bind. rewrite H. reflexivity. Qed.

(** One iteration of the loop: a copy of the step with the new amount is
    allocated at the end of the heap and its address is appended to the
    list under construction; nothing else changes. *)
Lemma scale_recipe_loop_step factor (scaled_steps : loc) h (acc : list loc)
    (step : loc) (rest : list loc) d (a : float) :
  h !! step = Some (ODict d) ->
  step_amount d = Ok a ->
  h !! scaled_steps = Some (OList acc) ->
  scale_recipe_loop factor scaled_steps (step :: rest) h
  = scale_recipe_loop factor scaled_steps rest
      (<[scaled_steps := OList (acc ++ [length h])]>
         (h ++ [ODict (scaled_step factor d a)])).
Proof.
  intros Hstep Hamount Hscaled.
  pose proof (lookup_lt_Some _ _ _ Hstep) as Hlt1.
  pose proof (lookup_lt_Some _ _ _ Hscaled) as Hlt2.
  unfold step_amount in Hamount.
  destruct (d !! "amount") as [v | ] eqn:Hv; [ | discriminate Hamount].
  cbn [scale_recipe_loop].
  rewrite (bind_ok _ _ _ _ _ (dict_copy_ok h step d Hstep)).
  assert (Hstep' : (h ++ [ODict d]) !! step = Some (ODict d))
    by (rewrite lookup_app_l; assumption).
  rewrite (bind_ok _ _ _ _ _ (dict_getitem_ok _ step d "amount" v Hstep' Hv)).
  assert (Hmul : lift (mul_float v factor) (h ++ [ODict d])
                 = Ok (PyFloat.mul a factor, h ++ [ODict d])).
  { unfold lift, mul_float. rewrite Hamount. reflexivity. }
  rewrite (bind_ok _ _ _ _ _ Hmul).
  assert (Hnew : (h ++ [ODict d]) !! length h = Some (ODict d))
    by (apply list_lookup_middle; reflexivity).
  rewrite (bind_ok _ _ _ _ _ (dict_setitem_ok _ _ d "amount" _ Hnew)).
  rewrite (insert_app_r_alt h _ (length h)) by lia.
  rewrite Nat.sub_diag. cbn [insert list_insert].
  assert (Hscaled' : (h ++ [ODict (scaled_step factor d a)]) !! scaled_steps
                     = Some (OList acc))
    by (rewrite lookup_app_l; assumption).
  rewrite (bind_ok _ _ _ _ _ (list_append_ok _ _ acc (length h) Hscaled')).
  reflexivity.
Qed.

(** The whole loop: the new steps are allocated above the old heap, in
    order, and only the list under construction is written to. *)
Lemma scale_recipe_loop_spec factor (scaled_steps : loc) :
  forall (items : list loc) (ds : list (gmap string value)) (amounts : list float)
         h (acc : list loc),
    Forall2 (fun l d => h !! l = Some (ODict d)) items ds ->
    Forall2 (fun d a => step_amount d = Ok a) ds amounts ->
    h !! scaled_steps = Some (OList acc) ->
    exists h' (new_steps : list loc),
      scale_recipe_loop factor scaled_steps items h = Ok ((), h') /\
      h' !! scaled_steps = Some (OList (acc ++ new_steps)) /\
      Forall2 (fun l d => h' !! l = Some (ODict d)) new_steps
        (zip_with (scaled_step factor) ds amounts) /\
      (forall l o, l <> scaled_steps -> h !! l = Some o -> h' !! l = Some o) /\
      Forall (fun l => length h <= l)%nat new_steps.
Proof.
  induction items as [ | step rest IH]; intros ds amounts h acc Hitems Hamounts Hscaled.
  - apply Forall2_nil_inv_l in Hitems as ->.
    apply Forall2_nil_inv_l in Hamounts as ->.
    exists h, []. rewrite app_nil_r. repeat split; try constructor; auto.
  - apply Forall2_cons_inv_l in Hitems as (d & ds' & Hstep & Hrest & ->).
    apply Forall2_cons_inv_l in Hamounts as (a & amounts' & Ha & Hamounts' & ->).
    rewrite (scale_recipe_loop_step factor scaled_steps h acc step rest d a Hstep Ha Hscaled).
    pose proof (lookup_lt_Some _ _ _ Hscaled) as Hlt.
    set (h1 := <[scaled_steps := OList (acc ++ [length h])]>
                 (h ++ [ODict (scaled_step factor d a)])).
    assert (Hframe1 : forall l o, l <> scaled_steps -> h !! l = Some o -> h1 !! l = Some o).
    { intros l o Hne Hl. unfold h1.
      rewrite list_lookup_insert_ne by auto.
      rewrite lookup_app_l by (eapply lookup_lt_Some; eassumption). exact Hl. }
    assert (Hscaled1 : h1 !! scaled_steps = Some (OList (acc ++ [length h]))).
    { unfold h1. apply list_lookup_insert_eq. rewrite length_app. lia. }
    assert (Hnew1 : h1 !! length h = Some (ODict (scaled_step factor d a))).
    { unfold h1. rewrite list_lookup_insert_ne by lia.
      apply list_lookup_middle. reflexivity. }
    assert (Hlen1 : length h1 = S (length h)).
    { unfold h1. rewrite length_insert, length_app. simpl. lia. }
    assert (Hrest1 : Forall2 (fun l d => h1 !! l = Some (ODict d)) rest ds').
    { eapply Forall2_impl; [exact Hrest | ]. intros l d' Hl. cbn beta in *.
      apply Hframe1; [ | exact Hl]. intros ->. rewrite Hscaled in Hl. discriminate Hl. }
    destruct (IH ds' amounts' h1 (acc ++ [length h]) Hrest1 Hamounts' Hscaled1)
      as (h' & new_steps & Hrun & Hscaled' & Hnew' & Hframe' & Hfresh').
    exists h', (length h :: new_steps). repeat split.
    + exact Hrun.
    + rewrite Hscaled', <- app_assoc. reflexivity.
    + cbn [zip_with]. constructor; [ | exact Hnew'].
      apply Hframe'; [lia | exact Hnew1].
    + intros l o Hne Hl. apply Hframe'; [exact Hne | ]. apply Hframe1; assumption.
    + constructor; [lia | ].
      eapply Forall_impl; [exact Hfresh' | ]. intros l Hl. cbn beta in Hl. lia.
Qed.

(** [scale_recipe] with a nonzero old volume: a new list of new steps; every
    object of the given heap is left as it was. *)
Lemma scale_recipe_spec h (steps : loc) (ds : list (gmap string value))
    (amounts : list float) (new_total_volume old_total_volume : float) :
  recipe_at h steps ds ->
  Forall2 (fun d a => step_amount d = Ok a) ds amounts ->
  PyFloat.eq old_total_volume 0%float = false ->
  exists (out : loc) h',
    scale_recipe steps new_total_volume old_total_volume h = Ok (out, h') /\
    recipe_at h' out
      (zip_with (scaled_step (PrimFloat.div new_total_volume old_total_volume))
         ds amounts) /\
    h !! out = None /\
    (forall l o, h !! l = Some o -> h' !! l = Some o).
Proof.
  intros (items & Hsteps & Hitems) Hamounts Hold.
  unfold scale_recipe, PyFloat.truediv. rewrite Hold.
  set (factor := PrimFloat.div new_total_volume old_total_volume).
  set (h0 := h ++ [OList []]).
  assert (Hext : forall l o, h !! l = Some o -> h0 !! l = Some o).
  { intros l o Hl. unfold h0.
    rewrite lookup_app_l by (eapply lookup_lt_Some; eassumption). exact Hl. }
  assert (Hscaled0 : h0 !! length h = Some (OList [])).
  { unfold h0. apply list_lookup_middle. reflexivity. }
  assert (Hitems0 : Forall2 (fun l d => h0 !! l = Some (ODict d)) items ds).
  { eapply Forall2_impl; [exact Hitems | ]. intros l d Hl. apply Hext, Hl. }
  destruct (scale_recipe_loop_spec factor (length h) items ds amounts h0 []
              Hitems0 Hamounts Hscaled0)
    as (h' & new_steps & Hrun & Hscaled' & Hnew' & Hframe' & _).
  exists (length h), h'. repeat split.
  - assert (H1 : lift (Ok factor) h = Ok (factor, h)) by reflexivity.
    rewrite (bind_ok _ _ _ _ _ H1).
    assert (H2 : alloc (OList []) h = Ok (length h, h0)) by reflexivity.
    rewrite (bind_ok _ _ _ _ _ H2).
    rewrite (bind_ok _ _ _ _ _ (list_items_ok h0 steps items (Hext _ _ Hsteps))).
    rewrite (bind_ok _ _ _ _ _ Hrun). reflexivity.
  - exists new_steps. split; [exact Hscaled' | exact Hnew'].
  - apply lookup_ge_None_2. lia.
  - intros l o Hl. apply Hframe'; [ | apply Hext, Hl].
    apply lookup_lt_Some in Hl. lia.
Qed.

End ScaleRecipe.

(** C2: for every recipe, that is, a list of steps that each have a numeric
    amount, and all volumes [old > 0] and [new > 0], [scale_recipe] returns
    a new list with the same number of steps in the same order; the amount
    of step [i] is [round(amount * (new / old), 4)] and every other key of
    the step has the value it has in the given step.  The given list and
    its steps, like every object that existed before the call, are left as
    they were. *)
Theorem scale_recipe_proportional
    (h : heap) (steps : loc) (ds : list (gmap string value)) (amounts : list float)
    (new_total_volume old_total_volume : float) :
  recipe_at h steps ds ->
  Forall2 (fun d a => step_amount d = Ok a) ds amounts ->
  PyFloat.gt old_total_volume 0%float = true ->
  PyFloat.gt new_total_volume 0%float = true ->
  exists (out : loc) (h' : heap) (ds' : list (gmap string value)),
    scale_recipe steps new_total_volume old_total_volume h = Ok (out, h') /\
    recipe_at h' out ds' /\
    length ds' = length ds /\
    (forall (i : nat) d (a : float),
        ds !! i = Some d -> amounts !! i = Some a ->
        exists d',
          ds' !! i = Some d' /\
          d' !! "amount"
          = Some (VFloat (PyFloat.round4
                            (PyFloat.mul a (PrimFloat.div new_total_volume old_total_volume)))) /\
          forall k : string, k <> "amount" -> d' !! k = d !! k) /\
    h !! out = None /\
    (forall l o, h !! l = Some o -> h' !! l = Some o) /\
    recipe_at h' steps ds.
Proof.
  intros Hrecipe Hamounts Hold _.
  destruct (scale_recipe_spec h steps ds amounts new_total_volume old_total_volume
              Hrecipe Hamounts (FloatFacts.gt_zero_neq_zero _ Hold))
    as (out & h' & Hrun & Hout & Hfresh & Hframe).
  exists out, h', (zip_with (scaled_step (PrimFloat.div new_total_volume old_total_volume))
                     ds amounts).
  pose proof (Forall2_length _ _ _ Hamounts) as Hlen.
  repeat split; try assumption.
  - rewrite length_zip_with. lia.
  - intros i d a Hd Ha. exists (scaled_step (PrimFloat.div new_total_volume old_total_volume) d a).
    repeat split.
    + rewrite lookup_zip_with, Hd, Ha. reflexivity.
    + apply lookup_insert_eq.
    + intros k Hk. apply lookup_insert_ne. congruence.
  - destruct Hrecipe as (items & Hsteps & Hitems). exists items. split; [auto | ].
    eapply Forall2_impl; [exact Hitems | ]. intros l d Hl. apply Hframe, Hl.
Qed.

Lemma scale_recipe_proportional_witness :
  exists (out : loc) (h' : heap) (ds' : list (gmap string value)),
    scale_recipe 1%nat 200 100 example_heap = Ok (out, h') /\
    recipe_at h' out ds' /\
    length ds' = 1%nat /\
    (exists d', ds' !! 0%nat = Some d' /\ d' !! "amount" = Some (VFloat 20)) /\
    recipe_at h' 1%nat [example_step 1 10].
Proof.
  assert (Hrecipe : recipe_at example_heap 1%nat [example_step 1 10]).
  { exists [0%nat]. split; [reflexivity | ]. repeat constructor. }
  assert (Hamounts : Forall2 (fun d a => step_amount d = Ok a)
                       [example_step 1 10] [10%float]).
  { repeat constructor. }
  destruct (scale_recipe_proportional example_heap 1%nat [example_step 1 10] [10%float]
              200 100 Hrecipe Hamounts eq_refl eq_refl)
    as (out & h' & ds' & Hrun & Hout & Hlen & Hstep & _ & _ & Hin).
  exists out, h', ds'. repeat split; try assumption.
  destruct (Hstep 0%nat (example_step 1 10) 10%float eq_refl eq_refl) as (d' & Hd' & Ha & _).
  exists d'. split; [exact Hd' | exact Ha].
Defined.

(** C3, as the specification states it, fails: scaling a step whose amount
    is 0.12345 from the volume 1 to the volume 1 returns a step whose
    amount is 0.1235, a different number. *)
Lemma scale_recipe_same_volume_rounds :
  PyFloat.gt 1 0 = true /\
  read_recipe example_heap_5_decimals 1%nat = Some [example_step 1 0.12345] /\
  (r ← scale_recipe 1%nat 1 1 example_heap_5_decimals; mret (read_recipe r.2 r.1))
  = Ok (Some [example_step 1 0.1235]) /\
  PyFloat.eq 0.1235 0.12345 = false /\
  example_step 1 0.1235 <> example_step 1 0.12345.
Proof.
  repeat split; try (vm_compute; reflexivity).
  intros H.
  assert (H' : example_step 1 0.1235 !! "amount" = example_step 1 0.12345 !! "amount")
    by (rewrite H; reflexivity).
  apply (f_equal (fun o => match o with
                            | Some (VFloat a) => PyFloat.eq 0.1235 a
                            | _ => false
                            end)) in H'.
  vm_compute in H'. discriminate H'.
Qed.

Section SameVolume.

Variable v : float.
Hypothesis v_positive : PyFloat.gt v 0%float = true.
Hypothesis v_finite : PyFloat.lt v infinity = true.

(** A finite volume above zero divided by itself is 1.0, and multiplying
    by 1.0 changes no float. *)
Lemma same_volume_factor : PrimFloat.div v v = 1%float.
Proof.
  assert (H : exists m e, Prim2SF v = S754_finite false m e).
  { unfold PyFloat.gt, PyFloat.lt in *.
    rewrite FloatAxioms.ltb_spec in v_positive, v_finite.
    change (Prim2SF 0) with (S754_zero false) in v_positive.
    change (Prim2SF infinity) with (S754_infinity false) in v_finite.
    destruct (Prim2SF v) as [[|]|[|]| |[|] m e]; try discriminate; eauto. }
  destruct H as (m & e & H). exact (Binary64.div_self v false m e H).
Qed.

Lemma scaled_step_same_volume (d : gmap string value) (a : float) :
  scaled_step (PrimFloat.div v v) d a = <["amount" := VFloat (PyFloat.round4 a)]> d.
Proof.
  unfold scaled_step, PyFloat.mul. rewrite same_volume_factor, Binary64.mul_one.
  reflexivity.
Qed.

End SameVolume.

(** C3 (amended): for every recipe and every finite volume [v > 0],
    [scale_recipe(S, v, v)] returns the steps of [S] in the same order with
    each amount [a] replaced by [round(a, 4)] and nothing else changed; it
    returns steps equal to those of [S] when every amount is a float that
    the rounding to four decimals leaves as it is. *)
Theorem scale_recipe_same_volume
    (h : heap) (steps : loc) (ds : list (gmap string value)) (amounts : list float)
    (v : float) :
  recipe_at h steps ds ->
  Forall2 (fun d a => step_amount d = Ok a) ds amounts ->
  PyFloat.gt v 0%float = true ->
  PyFloat.lt v infinity = true ->
  exists (out : loc) (h' : heap),
    scale_recipe steps v v h = Ok (out, h') /\
    recipe_at h' out
      (zip_with (fun d a => <["amount" := VFloat (PyFloat.round4 a)]> d) ds amounts) /\
    (Forall2 (fun d a => d !! "amount" = Some (VFloat a) /\ PyFloat.round4 a = a)
       ds amounts ->
     recipe_at h' out ds).
Proof.
  intros Hrecipe Hamounts Hv Hfin.
  destruct (scale_recipe_spec h steps ds amounts v v
              Hrecipe Hamounts (FloatFacts.gt_zero_neq_zero _ Hv))
    as (out & h' & Hrun & Hout & _ & _).
  assert (Hsteps : zip_with (scaled_step (PrimFloat.div v v)) ds amounts
                   = zip_with (fun d a => <["amount" := VFloat (PyFloat.round4 a)]> d)
                       ds amounts).
  { clear -Hv Hfin. revert amounts.
    induction ds as [ | d ds IH]; intros [ | a amounts]; try reflexivity.
    cbn [zip_with]. rewrite IH, (scaled_step_same_volume v Hv Hfin). reflexivity. }
  rewrite Hsteps in Hout.
  exists out, h'. split; [exact Hrun | ]. split; [exact Hout | ].
  intros Hfixed.
  assert (Heq : zip_with (fun d a => <["amount" := VFloat (PyFloat.round4 a)]> d) ds amounts
                = ds).
  { clear -Hfixed. induction Hfixed as [ | d a ds amounts [Hd Ha] _ IH]; [reflexivity | ].
    cbn [zip_with]. rewrite IH, Ha. f_equal. apply insert_id, Hd. }
  rewrite Heq in Hout. exact Hout.
Qed.

Lemma scale_recipe_same_volume_witness :
  exists (out : loc) (h' : heap),
    scale_recipe 1%nat 100 100 example_heap = Ok (out, h') /\
    recipe_at h' out [example_step 1 10].
Proof.
  assert (Hrecipe : recipe_at example_heap 1%nat [example_step 1 10]).
  { exists [0%nat]. split; [reflexivity | ]. repeat constructor. }
  assert (Hamounts : Forall2 (fun d a => step_amount d = Ok a)
                       [example_step 1 10] [10%float]).
  { repeat constructor. }
  destruct (scale_recipe_same_volume example_heap 1%nat [example_step 1 10] [10%float]
              100 Hrecipe Hamounts eq_refl eq_refl)
    as (out & h' & Hrun & _ & Hsame).
  exists out, h'. split; [exact Hrun | ].
  apply Hsame. repeat constructor.
Defined.

(** ** Decreasing series *)

Section Decreasing.

Variable dilution_factor : float.
Hypothesis factor_above_one : PyFloat.gt dilution_factor 1%float = true.

Lemma divided_nonneg_finite (i : nat) :
  forall x : float,
    nonneg_finite x = true -> nonneg_finite (divided dilution_factor i x) = true.
Proof.
  induction i as [ | i IH]; intros x Hx; [exact Hx | ].
  cbn [divided]. apply IH.
  apply (Binary64.div_above_one x dilution_factor Hx factor_above_one).
Qed.

End Decreasing.

(** C4 (amended): for every finite initial concentration that is not
    negative, every dilution factor above 1 and every number of dilutions, a
    series is returned in which each raw concentration after the first is
    the one before it divided by the factor and is not above it; it is
    below it whenever the one before is at least [2^-1021] (about
    4.45e-308), that is, until the concentrations underflow. *)
Theorem serial_dilution_decreases
    (initial_conc dilution_factor : float) (num_dilutions : Z) (conc_unit : unit_tag) :
  nonneg_finite initial_conc = true ->
  PyFloat.gt dilution_factor 1%float = true ->
  exists entries : list series_entry,
    calculate_serial_dilution initial_conc dilution_factor num_dilutions conc_unit
    = Ok entries /\
    forall (i : nat) (a b : float),
      raw_concentrations entries !! i = Some a ->
      raw_concentrations entries !! S i = Some b ->
      b = PrimFloat.div a dilution_factor /\
      PyFloat.ge a b = true /\
      (PyFloat.ge a second_binade = true -> PyFloat.lt b a = true).
Proof.
  intros Hinit Hd.
  eexists. split;
    [apply calculate_serial_dilution_entries, FloatFacts.gt_one_neq_zero, Hd | ].
  intros i a b. rewrite raw_concentrations_entries, !list_lookup_fmap.
  destruct (seq 0 (Z.to_nat (num_dilutions + 1)) !! S i) as [j' | ] eqn:Hj'; [ | discriminate].
  destruct (seq 0 (Z.to_nat (num_dilutions + 1)) !! i) as [j | ] eqn:Hj; [ | discriminate].
  apply lookup_seq in Hj as [-> _]. apply lookup_seq in Hj' as [-> _].
  simpl. intros [= <-] [= <-].
  change (divided dilution_factor i (PrimFloat.div initial_conc dilution_factor))
    with (divided dilution_factor (S i) initial_conc).
  rewrite (divided_succ dilution_factor).
  split; [reflexivity | ].
  apply (Binary64.div_above_one _ dilution_factor
           (divided_nonneg_finite dilution_factor Hd i initial_conc Hinit) Hd).
Qed.

Lemma serial_dilution_decreases_witness :
  exists entries : list series_entry,
    calculate_serial_dilution 1000 10 3 MOLAR = Ok entries /\
    raw_concentrations entries = [1000; 100; 10; 1]%float /\
    PyFloat.lt 100 1000 = true.
Proof.
  destruct (serial_dilution_decreases 1000 10 3 MOLAR eq_refl eq_refl)
    as (entries & Hrun & Hstep).
  exists entries. split; [exact Hrun | ].
  assert (Hraw : raw_concentrations entries = [1000; 100; 10; 1]%float).
  { vm_compute in Hrun.
    apply (f_equal (fun r => match r with Ok l => raw_concentrations l | Raise _ => [] end))
      in Hrun.
    symmetry. exact Hrun. }
  split; [exact Hraw | ].
  rewrite Hraw in Hstep.
  destruct (Hstep 0%nat 1000%float 100%float eq_refl eq_refl) as (_ & _ & Hlt).
  apply Hlt. reflexivity.
Defined.

(** ** The format functions and the magnitude ladders *)

Section Ladder.

Variable x : float.

(** The thresholds of the code, which compare the base value, agree with
    the test of the specification, which compares the value expressed in
    the unit with 1. *)
Lemma qualifies_divided_1000 :
  PyFloat.ge (PrimFloat.div x 1000) 1 = PyFloat.ge x 1000.
Proof. apply Binary64.ge_divided_1000. Qed.

Lemma qualifies_scaled_1000 :
  PyFloat.ge (PyFloat.mul x 1000) 1 = PyFloat.ge x 0.001.
Proof. apply Binary64.ge_scaled_1000. Qed.

Lemma qualifies_scaled_1000000 :
  PyFloat.ge (PyFloat.mul x 1000000) 1 = PyFloat.ge x 0.000001.
Proof. apply Binary64.ge_scaled_1000000. Qed.

Lemma format_follows_ladder (d : dimension) :
  format d x = format_by_ladder (ladder_of d) (smallest_of d) x.
Proof.
  destruct d;
    unfold format, format_by_ladder, ladder_of, smallest_of, qualifies;
    cbn [List.find rung_express rung_unit];
    rewrite ?qualifies_divided_1000, ?qualifies_scaled_1000, ?qualifies_scaled_1000000;
    unfold format_mass, format_volume, format_concentration;
    repeat (destruct (PyFloat.ge x _)); reflexivity.
Qed.

(** A value that fails the threshold [hi] and passes the threshold [lo] is
    below [hi]: it is not a NaN. *)
Lemma between_thresholds (lo hi : float) (mlo mhi : positive) (elo ehi : Z) :
  Prim2SF lo = S754_finite false mlo elo ->
  Prim2SF hi = S754_finite false mhi ehi ->
  PyFloat.ge x hi = false -> PyFloat.ge x lo = true -> PyFloat.lt x hi = true.
Proof.
  unfold PyFloat.ge, PyFloat.lt. intros Hlo Hhi Hnot Hge.
  destruct (Binary64.leb_false_cases hi mhi ehi Hhi x Hnot) as [Hnan | Hlt]; [ | exact Hlt].
  rewrite (Binary64.leb_nan lo mlo elo Hlo x Hnan) in Hge. discriminate.
Qed.

Lemma milli_rung_below_1000 :
  PyFloat.ge x 1 = false -> PyFloat.ge x 0.001 = true ->
  PyFloat.lt (PyFloat.mul x 1000) 1000 = true.
Proof.
  intros Hnot Hge. apply Binary64.lt_scaled_1000.
  eapply (between_thresholds 0.001 1); [reflexivity | reflexivity | exact Hnot | exact Hge].
Qed.

Lemma micro_rung_below_1000 :
  PyFloat.ge x 0.001 = false -> PyFloat.ge x 0.000001 = true ->
  PyFloat.lt (PyFloat.mul x 1000000) 1000 = true.
Proof.
  intros Hnot Hge. apply Binary64.lt_scaled_1000000.
  eapply (between_thresholds 0.000001 0.001);
    [reflexivity | reflexivity | exact Hnot | exact Hge].
Qed.

End Ladder.

(** C8: for every base value and every dimension, the format function
    returns the value expressed in the first unit of the dimension's
    ladder, taken from the largest unit down, in which the expressed value
    is at least 1, and in the smallest unit when there is none, rendered to
    three decimals and followed by the unit symbol.  A base value of zero
    is formatted in the smallest unit: 0 grams is ["0.000 µg"]. *)
Theorem format_selects_largest_qualifying_unit (d : dimension) (x : float) :
  format d x = format_by_ladder (ladder_of d) (smallest_of d) x /\
  format d 0 = format_in (smallest_of d) 0 /\
  format d (-0) = format_in (smallest_of d) (-0) /\
  format_mass 0 = "0.000 µg".
Proof.
  split; [apply format_follows_ladder | ].
  split; [destruct d; reflexivity | ].
  split; [destruct d; reflexivity | reflexivity].
Qed.

(** C5, as the specification states it, fails in the largest unit of a
    ladder, which has no unit above it: ten million grams are formatted as
    10000 kg.  The rounding to three decimals can also show 1000 in a
    smaller unit: 999.9996 g is shown as ["1000.000 g"]. *)
Lemma largest_unit_has_no_upper_bound :
  PyFloat.gt 10000000 0 = true /\
  format_mass 10000000 = "10000.000 kg" /\
  PyFloat.lt (PrimFloat.div 10000000 1000) 1000 = false /\
  PyFloat.gt 999.9996 0 = true /\
  format_mass 999.9996 = "1000.000 g".
Proof. repeat split; reflexivity. Qed.

(** C5 (amended): for every base value and every dimension, when the format
    function selects a unit [r] of the ladder, that is, any unit but the
    smallest, the result is the value expressed in [r], rendered, and that
    value, before it is rendered to three decimals, is at least 1; it is
    below 1000 when [r] is not the largest unit of the ladder (kg, L,
    M). *)
Theorem format_number_range (d : dimension) (x : float) (r : rung) :
  List.find (qualifies x) (ladder_of d) = Some r ->
  format d x = format_in r x /\
  PyFloat.ge (rung_express r x) 1 = true /\
  (rung_unit r <> largest_unit d -> PyFloat.lt (rung_express r x) 1000 = true).
Proof.
  intros Hfind.
  split.
  { rewrite format_follows_ladder. unfold format_by_ladder. rewrite Hfind. reflexivity. }
  split.
  { apply List.find_some in Hfind as [_ Hq]. exact Hq. }
  destruct d; cbn [ladder_of List.find largest_unit] in *;
    unfold qualifies in Hfind; cbn [rung_express] in Hfind;
    rewrite ?qualifies_divided_1000, ?qualifies_scaled_1000, ?qualifies_scaled_1000000
      in Hfind.
  - destruct (PyFloat.ge x 1000) eqn:H1;
      [injection Hfind as <-; intros Hne; exfalso; apply Hne; reflexivity | ].
    destruct (PyFloat.ge x 1) eqn:H2.
    { injection Hfind as <-. intros _. cbn [rung_express].
      eapply (between_thresholds x 1 1000); [reflexivity | reflexivity | exact H1 | exact H2]. }
    destruct (PyFloat.ge x 0.001) eqn:H3; [ | discriminate].
    injection Hfind as <-. intros _. cbn [rung_express].
    apply milli_rung_below_1000; assumption.
  - destruct (PyFloat.ge x 1) eqn:H1;
      [injection Hfind as <-; intros Hne; exfalso; apply Hne; reflexivity | ].
    destruct (PyFloat.ge x 0.001) eqn:H2; [ | discriminate].
    injection Hfind as <-. intros _. cbn [rung_express].
    apply milli_rung_below_1000; assumption.
  - destruct (PyFloat.ge x 1) eqn:H1;
      [injection Hfind as <-; intros Hne; exfalso; apply Hne; reflexivity | ].
    destruct (PyFloat.ge x 0.001) eqn:H2.
    { injection Hfind as <-. intros _. cbn [rung_express].
      apply milli_rung_below_1000; assumption. }
    destruct (PyFloat.ge x 0.000001) eqn:H3; [ | discriminate].
    injection Hfind as <-. intros _. cbn [rung_express].
    apply micro_rung_below_1000; assumption.
Qed.

Lemma format_number_range_witness :
  format_mass 0.05 = "50.000 mg" /\
  PyFloat.ge (PyFloat.mul 0.05 1000) 1 = true /\
  PyFloat.lt (PyFloat.mul 0.05 1000) 1000 = true.
Proof.
  destruct (format_number_range DMass 0.05
              (Rung "mg" (fun x => PyFloat.mul x 1000%float)) eq_refl)
    as (Hformat & Hge & Hlt).
  split; [transitivity (format DMass 0.05); [reflexivity | rewrite Hformat; reflexivity] | ].
  split; [exact Hge | ].
  apply Hlt. discriminate.
Defined.

(** * More of the code

    Properties of the functions and edge cases that the properties above
    leave out. *)

(** ** More float arithmetic *)

Module MoreFloatFacts.

(** Dividing by 1.0 changes no float. *)
Lemma div_one (x : float) : PrimFloat.div x 1 = x.
Proof.
  apply Prim2SF_inj. rewrite FloatAxioms.div_spec.
  change (Prim2SF 1) with (S754_finite false 4503599627370496 (-52)).
  pose proof (Prim2SF_valid x) as Hv.
  destruct (Prim2SF x) as [[|]|[|]| |s m e]; try reflexivity.
  cbn [valid_binary] in Hv. unfold SF64div. rewrite Binary64.SFdiv_model, xorb_false_r.
  pose proof (Binary64.enough_digits_div m e 4503599627370496 (-52)) as Hdig. cbn zeta in Hdig.
  destruct (Binary64.canonical_digits_le m e Hv) as (H1 & H2 & H3).
  assert (He : div_exponent m e 4503599627370496 (-52) <= e).
  { unfold div_exponent. change (Zdigits2 4503599627370496) with 53.
    Binary64.unfold_fexp. lia. }
  set (de := div_exponent m e 4503599627370496 (-52)) in *.
  assert (Hval : Zpos m * 2 ^ (e - -52 - de) * 2 ^ (de - de)
                 = Zpos m * 2 ^ (e - de) * 4503599627370496).
  { replace (de - de) with 0 by lia.
    replace (e - -52 - de) with ((e - de) + 52) by lia.
    rewrite Binary64.pow2_split by lia. change (2 ^ 52) with 4503599627370496.
    rewrite Z.pow_0_r. ring. }
  assert (Hn : 0 <= Zpos m * 2 ^ (e - -52 - de)).
  { apply Z.mul_nonneg_nonneg; [lia | apply Z.lt_le_incl, Binary64.pow2_pos; lia]. }
  apply (Binary64.round_model_exact s _ _ _ m e de); solve [assumption | lia].
Qed.

(** Subtracting 0.0 changes no float. *)
Lemma sub_zero (x : float) : PrimFloat.sub x 0 = x.
Proof.
  apply Prim2SF_inj. rewrite FloatAxioms.sub_spec.
  change (Prim2SF 0) with (S754_zero false).
  destruct (Prim2SF x) as [[|]|[|]| |[|] m e]; reflexivity.
Qed.

(** [not (x <= 0)] holds for the floats above zero and for NaN. *)
Lemma not_le_zero_cases (x : float) :
  PyFloat.le x 0%float = false <-> PyFloat.gt x 0%float = true \/ PrimFloat.is_nan x = true.
Proof.
  unfold PyFloat.le, PyFloat.gt, PrimFloat.is_nan.
  rewrite FloatAxioms.leb_spec, FloatAxioms.ltb_spec, FloatAxioms.eqb_spec.
  change (Prim2SF 0) with (S754_zero false).
  destruct (Prim2SF x) as [[|]|[|]| |[|] m e] eqn:E; cbn;
    try rewrite Z.compare_refl, Pos.compare_cont_refl; cbn; intuition congruence.
Qed.

Lemma not_le_zero_neq_zero (x : float) :
  PyFloat.le x 0%float = false -> PyFloat.eq x 0%float = false.
Proof.
  unfold PyFloat.le, PyFloat.eq.
  rewrite FloatAxioms.leb_spec, FloatAxioms.eqb_spec.
  change (Prim2SF 0) with (S754_zero false).
  destruct (Prim2SF x) as [[|]|[|]| |[|] m e]; cbn; congruence.
Qed.

(** A float that is at least a positive float is not zero. *)
Lemma ge_positive_neq_zero (t y : float) (mt : positive) (et : Z) :
  Prim2SF t = S754_finite false mt et ->
  PrimFloat.leb t y = true -> PyFloat.eq y 0%float = false.
Proof.
  unfold PyFloat.eq. rewrite FloatAxioms.leb_spec, FloatAxioms.eqb_spec. intros ->.
  change (Prim2SF 0) with (S754_zero false).
  destruct (Prim2SF y) as [[|]|[|]| |[|] m e]; cbn; congruence.
Qed.

(** The floats between zero and [k * 2^-1074] are the [m * 2^-1074] with
    [m < k]. *)
Lemma below_subnormal (k : positive) (x : float) :
  PyFloat.gt x 0%float = true -> PrimFloat.ltb x (subnormal k) = true ->
  Prim2SF (subnormal k) = S754_finite false k (-1074) ->
  exists m : positive, (m < k)%positive /\ x = subnormal m.
Proof.
  unfold PyFloat.gt. rewrite !FloatAxioms.ltb_spec. intros Hpos Hlt Hk.
  rewrite Hk in Hlt. change (Prim2SF 0) with (S754_zero false) in Hpos.
  pose proof (Prim2SF_valid x) as Hv.
  destruct (Prim2SF x) as [[|]|[|]| |[|] m e] eqn:E; try discriminate.
  cbn [valid_binary] in Hv.
  destruct (Binary64.canonical_digits_le m e Hv) as (_ & He & _).
  unfold SpecFloat.emin, prec, emax in He.
  unfold SFltb, SFcompare in Hlt.
  destruct (Z.compare_spec e (-1074)) as [-> | Hlt' | Hgt]; try discriminate; try lia.
  exists m. split.
  - change (Pos.compare_cont Eq m k) with (m ?= k)%positive in Hlt.
    destruct (Pos.compare_spec m k); try discriminate. assumption.
  - unfold subnormal. rewrite <- E. symmetry. apply SF2Prim_Prim2SF.
Qed.

Lemma below_100 (P : positive -> bool) :
  forallb P (map Pos.of_nat (seq 1 99)) = true ->
  forall m : positive, (m < 100)%positive -> P m = true.
Proof.
  intros H m Hm. rewrite forallb_forall in H. apply H.
  rewrite <- (Pos2Nat.id m). apply in_map, in_seq. lia.
Qed.

(** The hundredth of a subnormal number [m * 2^-1074] rounds to zero
    exactly when [m <= 50]. *)
Lemma hundredth_of_subnormal (m : positive) :
  (m < 100)%positive ->
  PyFloat.eq (PrimFloat.div (subnormal m) 100) 0%float
  = negb (PyFloat.ge (subnormal m) smallest_safe_purity).
Proof.
  intros Hm.
  apply (below_100 (fun m => Bool.eqb (PyFloat.eq (PrimFloat.div (subnormal m) 100) 0%float)
                              (negb (PyFloat.ge (subnormal m) smallest_safe_purity))))
    in Hm; [ | vm_compute; reflexivity].
  apply Bool.eqb_prop in Hm. exact Hm.
Qed.

(** [purity / 100.0] is zero, for a purity above zero, exactly when the
    purity is below [51 * 2^-1074]. *)
Lemma hundredth_is_zero (purity : float) :
  PyFloat.gt purity 0%float = true ->
  PyFloat.eq (PrimFloat.div purity 100) 0%float
  = negb (PyFloat.ge purity smallest_safe_purity).
Proof.
  intros Hpos.
  destruct (PrimFloat.leb (subnormal 100) purity) eqn:Hbig.
  - assert (Hge : PyFloat.ge purity smallest_safe_purity = true).
    { unfold PyFloat.ge.
      eapply (Binary64.leb_trans smallest_safe_purity (subnormal 100));
        [reflexivity | reflexivity | reflexivity | exact Hbig]. }
    rewrite Hge. cbn [negb].
    eapply (ge_positive_neq_zero (subnormal 1)); [reflexivity | ].
    revert Hbig.
    eapply (Binary64.div_constant_ge (subnormal 100) 100 (subnormal 1) _ _ _ _ _ _ (-2200));
      Binary64.constant_side.
  - eapply (Binary64.leb_false_cases (subnormal 100)) in Hbig as [Hnan | Hlt];
      [ | | reflexivity].
    + unfold PyFloat.gt in Hpos. rewrite FloatAxioms.ltb_spec, Hnan in Hpos. discriminate.
    + destruct (below_subnormal 100 purity Hpos Hlt eq_refl) as (m & Hm & ->).
      apply hundredth_of_subnormal, Hm.
Qed.

Lemma SFeqb_refl (r : spec_float) : r <> S754_nan -> SFeqb r r = true.
Proof.
  intros Hr. unfold SFeqb, SFcompare.
  destruct r as [[|]|[|]| |[|] m e]; try reflexivity; try congruence;
    rewrite Z.compare_refl, Pos.compare_cont_refl; reflexivity.
Qed.

End MoreFloatFacts.

(** ** Conversion to the base unit *)

(** X1: a value in the base unit of its dimension (g, L, M) that is not a
    NaN is converted to itself: the factor is 1 and multiplying by 1
    changes no such float, the infinities and the zeros of either sign
    included.  (This model has one NaN, so it says nothing about the bits
    of a NaN.) *)
Theorem to_base_of_base_unit (d : dimension) (value : float) :
  PrimFloat.is_nan value = false ->
  to_base d value (base_unit d) = value.
Proof.
  intros _. unfold to_base, PyFloat.mul.
  replace (dict_get (table_of d) (base_unit d) 1) with 1%float by (destruct d; reflexivity).
  apply Binary64.mul_one.
Qed.

Lemma to_base_of_base_unit_witness :
  to_base DVolume 2.5 LITERS = 2.5%float /\ to_base DMass (-0) GRAMS = (-0)%float.
Proof.
  split.
  - exact (to_base_of_base_unit DVolume 2.5 eq_refl).
  - exact (to_base_of_base_unit DMass (-0) eq_refl).
Defined.

(** ** [calculate_mass] *)

Lemma calculate_mass_cases (molarity volume mw purity : float) (volume_unit conc_unit : unit_tag) :
  calculate_mass molarity volume mw purity volume_unit conc_unit
  = if PyFloat.eq (PrimFloat.div purity 100) 0%float then Raise ZeroDivisionError
    else
      let mass_g :=
        PrimFloat.div
          (PyFloat.mul (PyFloat.mul (to_base DConcentration molarity conc_unit)
                          (to_base DVolume volume volume_unit)) mw)
          (PrimFloat.div purity 100) in
      Ok (mass_g, format_mass mass_g).
Proof.
  unfold calculate_mass, PyFloat.truediv.
  change (PyFloat.eq 100 0) with false. cbn [mbind result_bind].
  destruct (PyFloat.eq (PrimFloat.div purity 100) 0); reflexivity.
Qed.

(** X2: with the purity 100.0, the default, [calculate_mass] never raises
    and the purity adjustment changes nothing: the mass is exactly
    [molarity_M * volume_L * mw], for all inputs and units. *)
Theorem calculate_mass_pure_reagent
    (molarity volume mw : float) (volume_unit conc_unit : unit_tag) :
  calculate_mass molarity volume mw 100 volume_unit conc_unit
  = let mass_g :=
      PyFloat.mul (PyFloat.mul (to_base DConcentration molarity conc_unit)
                     (to_base DVolume volume volume_unit)) mw in
    Ok (mass_g, format_mass mass_g).
Proof.
  rewrite calculate_mass_cases.
  change (PrimFloat.div 100 100) with 1%float.
  change (PyFloat.eq 1 0) with false. cbn zeta.
  rewrite MoreFloatFacts.div_one. reflexivity.
Qed.

Lemma validate_purity_accepts (purity : float) :
  validate_purity purity = ReturnsNone ->
  PyFloat.gt purity 0%float = true /\ PyFloat.le purity 100%float = true.
Proof.
  unfold validate_purity, PyFloat.gt, PyFloat.lt.
  destruct (PrimFloat.ltb 0 purity); [ | discriminate].
  destruct (PyFloat.le purity 100); [auto | discriminate].
Qed.

(** X3: a purity that [validate_purity] accepts does not keep
    [calculate_mass] from raising: the call returns a mass when the purity
    is at least [51 * 2^-1074] (about 2.5e-322) and raises
    [ZeroDivisionError] when it is below, because [purity / 100.0] is then
    zero. *)
Theorem validated_purity_and_calculate_mass
    (molarity volume mw purity : float) (volume_unit conc_unit : unit_tag) :
  validate_purity purity = ReturnsNone ->
  if PyFloat.ge purity smallest_safe_purity then
    exists mass_g : float,
      calculate_mass molarity volume mw purity volume_unit conc_unit
      = Ok (mass_g, format_mass mass_g)
  else
    calculate_mass molarity volume mw purity volume_unit conc_unit
    = Raise ZeroDivisionError.
Proof.
  intros [Hpos _]%validate_purity_accepts.
  rewrite calculate_mass_cases, (MoreFloatFacts.hundredth_is_zero purity Hpos).
  destruct (PyFloat.ge purity smallest_safe_purity); cbn [negb]; [eexists | ]; reflexivity.
Qed.

Lemma validated_purity_and_calculate_mass_witness :
  (exists mass_g : float,
      calculate_mass 1 1 58.44 99.5 LITERS MOLAR = Ok (mass_g, format_mass mass_g)) /\
  calculate_mass 1 1 58.44 5e-324 LITERS MOLAR = Raise ZeroDivisionError.
Proof.
  split.
  - exact (validated_purity_and_calculate_mass 1 1 58.44 99.5 LITERS MOLAR eq_refl).
  - exact (validated_purity_and_calculate_mass 1 1 58.44 5e-324 LITERS MOLAR eq_refl).
Defined.

(** ** [calculate_molarity] *)

(** X4: [calculate_molarity] returns [(0.0, "0 M")] when the volume in
    liters or the molecular weight is zero, whatever the mass and the
    purity are.  Otherwise it raises [ZeroDivisionError] exactly when the
    product [volume_L * mw] of the two nonzero numbers underflows to zero,
    which the guard does not test, and returns a molarity with its text in
    every other case. *)
Theorem calculate_molarity_outcomes
    (mass volume mw purity : float) (mass_unit volume_unit : unit_tag) :
  let volume_L := to_base DVolume volume volume_unit in
  if PyFloat.eq volume_L 0%float || PyFloat.eq mw 0%float then
    calculate_molarity mass volume mw purity mass_unit volume_unit = Ok (0%float, "0 M")
  else if PyFloat.eq (PyFloat.mul volume_L mw) 0%float then
    calculate_molarity mass volume mw purity mass_unit volume_unit = Raise ZeroDivisionError
  else
    exists molarity_M : float,
      calculate_molarity mass volume mw purity mass_unit volume_unit
      = Ok (molarity_M, format_concentration molarity_M).
Proof.
  cbn zeta. unfold calculate_molarity, PyFloat.truediv.
  change (PyFloat.eq 100 0) with false. cbn [mbind result_bind].
  destruct (PyFloat.eq (to_base DVolume volume volume_unit) 0 || PyFloat.eq mw 0);
    [reflexivity | ].
  destruct (PyFloat.eq (PyFloat.mul (to_base DVolume volume volume_unit) mw) 0);
    [reflexivity | eexists; reflexivity].
Qed.

Lemma calculate_molarity_outcomes_witness :
  calculate_molarity 1 0 58.44 100 GRAMS LITERS = Ok (0%float, "0 M") /\
  calculate_molarity 1 1e-200 1e-200 100 GRAMS LITERS = Raise ZeroDivisionError.
Proof.
  split.
  - exact (calculate_molarity_outcomes 1 0 58.44 100 GRAMS LITERS).
  - exact (calculate_molarity_outcomes 1 1e-200 1e-200 100 GRAMS LITERS).
Defined.

(** X5: with the purity 100.0, the default, the purity factor is exactly 1
    and changes nothing: when the guard passes and the divisor is not zero,
    the molarity is exactly [mass_g / (volume_L * mw)]. *)
Theorem calculate_molarity_pure_reagent
    (mass volume mw : float) (mass_unit volume_unit : unit_tag) :
  let mass_g := to_base DMass mass mass_unit in
  let volume_L := to_base DVolume volume volume_unit in
  PyFloat.eq volume_L 0%float = false ->
  PyFloat.eq mw 0%float = false ->
  PyFloat.eq (PyFloat.mul volume_L mw) 0%float = false ->
  calculate_molarity mass volume mw 100 mass_unit volume_unit
  = let molarity_M := PrimFloat.div mass_g (PyFloat.mul volume_L mw) in
    Ok (molarity_M, format_concentration molarity_M).
Proof.
  cbn zeta. intros Hv Hmw Hp. unfold calculate_molarity, PyFloat.truediv.
  rewrite Hv, Hmw, Hp. change (PyFloat.eq 100 0) with false.
  cbn [orb mbind result_bind]. change (PrimFloat.div 100 100) with 1%float.
  unfold PyFloat.mul at 1 3. rewrite Binary64.mul_one. reflexivity.
Qed.

Lemma calculate_molarity_pure_reagent_witness :
  calculate_molarity 58.44 1 58.44 100 GRAMS LITERS = Ok (1%float, "1.000 M").
Proof.
  exact (calculate_molarity_pure_reagent 58.44 1 58.44 GRAMS LITERS eq_refl eq_refl eq_refl).
Defined.

(** ** [calculate_percent_solution] and [calculate_stock_volume] *)

(** X6: [calculate_percent_solution] never raises: its guard tests the
    very number it divides by.  A volume of zero, of either sign, gives
    0.0 for every mass, NaN included, and every unit. *)
Theorem calculate_percent_solution_never_raises
    (mass volume : float) (mass_unit volume_unit : unit_tag) :
  (exists percent : float,
      calculate_percent_solution mass volume mass_unit volume_unit = Ok percent) /\
  calculate_percent_solution mass 0 mass_unit volume_unit = Ok 0%float /\
  calculate_percent_solution mass (-0) mass_unit volume_unit = Ok 0%float.
Proof.
  unfold calculate_percent_solution, PyFloat.truediv. split; [ | split].
  - destruct (PyFloat.eq (PyFloat.mul (to_base DVolume volume volume_unit) 1000) 0);
      eexists; reflexivity.
  - replace (PyFloat.eq (PyFloat.mul (to_base DVolume 0 volume_unit) 1000) 0) with true
      by (destruct volume_unit as [[]|[]|[]]; reflexivity).
    reflexivity.
  - replace (PyFloat.eq (PyFloat.mul (to_base DVolume (-0) volume_unit) 1000) 0) with true
      by (destruct volume_unit as [[]|[]|[]]; reflexivity).
    reflexivity.
Qed.

(** X7: [calculate_stock_volume] never raises, and the diluent volume it
    returns is always the final volume in liters minus the stock volume it
    returns, also when the stock concentration is zero and the stock volume
    is returned as 0.0; the diluent text is the formatted diluent
    volume. *)
Theorem calculate_stock_volume_never_raises
    (c1 c2 v2 : float) (c1_unit c2_unit v2_unit : unit_tag) :
  let v2_L := to_base DVolume v2 v2_unit in
  exists (v1_L : float) (formatted_v1 : string),
    calculate_stock_volume c1 c2 v2 c1_unit c2_unit v2_unit
    = Ok (v1_L, formatted_v1,
          PyFloat.sub v2_L v1_L, format_volume (PyFloat.sub v2_L v1_L)).
Proof.
  cbn zeta. unfold calculate_stock_volume, PyFloat.truediv.
  destruct (PyFloat.eq (to_base DConcentration c1 c1_unit) 0).
  - exists 0%float, "0 L". unfold PyFloat.sub. rewrite MoreFloatFacts.sub_zero. reflexivity.
  - do 2 eexists. reflexivity.
Qed.

(** The conversion of a zero is a zero. *)
Lemma to_base_zero (d : dimension) (x : float) (u : unit_tag) :
  PyFloat.eq x 0%float = true -> exists s : bool, Prim2SF (to_base d x u) = S754_zero s.
Proof.
  intros [-> | ->]%FloatFacts.eq_zero_inv;
    destruct d; destruct u as [[]|[]|[]]; eexists; reflexivity.
Qed.

(** X16: a target concentration of zero needs no stock.  When the stock
    concentration in molar is neither zero nor NaN and the final volume in
    liters is finite, the stock volume returned for [c2 == 0] is zero and
    the diluent volume equals the final volume in liters. *)
Theorem no_stock_for_zero_target
    (c1 c2 v2 : float) (c1_unit c2_unit v2_unit : unit_tag) :
  let c1_M := to_base DConcentration c1 c1_unit in
  let v2_L := to_base DVolume v2 v2_unit in
  PyFloat.eq c2 0%float = true ->
  PyFloat.eq c1_M 0%float = false ->
  PyFloat.eq c1_M c1_M = true ->
  PyFloat.lt v2_L infinity = true ->
  PyFloat.gt v2_L neg_infinity = true ->
  exists v1_L diluent_L : float,
    calculate_stock_volume c1 c2 v2 c1_unit c2_unit v2_unit
    = Ok (v1_L, format_volume v1_L, diluent_L, format_volume diluent_L) /\
    PyFloat.eq v1_L 0%float = true /\
    PyFloat.eq diluent_L v2_L = true.
Proof.
  cbn zeta. intros Hc2 Hc1 Hnan Hlt Hgt.
  unfold calculate_stock_volume, PyFloat.truediv. rewrite Hc1.
  cbn [mbind result_bind mret result_ret].
  do 2 eexists. split; [reflexivity | ].
  destruct (to_base_zero DConcentration c2 c2_unit Hc2) as (s & Hs).
  unfold PyFloat.eq, PyFloat.lt, PyFloat.gt, PyFloat.sub, PyFloat.mul in *.
  rewrite FloatAxioms.eqb_spec in Hc1, Hnan.
  rewrite FloatAxioms.ltb_spec in Hlt, Hgt.
  rewrite !FloatAxioms.eqb_spec, FloatAxioms.sub_spec, FloatAxioms.div_spec,
    FloatAxioms.mul_spec, Hs.
  change (Prim2SF 0) with (S754_zero false) in *.
  change (Prim2SF infinity) with (S754_infinity false) in *.
  change (Prim2SF neg_infinity) with (S754_infinity true) in *.
  destruct (Prim2SF (to_base DVolume v2 v2_unit)) as [sv|[|]| |sv mv ev] eqn:Ev;
    try discriminate;
    destruct (Prim2SF (to_base DConcentration c1 c1_unit)) as [sc|sc| |sc mc ec];
    try discriminate.
  all: cbn [SF64mul SFmul SF64div SFdiv SF64sub SFsub].
  all: split; [reflexivity | ].
  all: try (destruct sv, s, sc; reflexivity).
  all: apply MoreFloatFacts.SFeqb_refl; discriminate.
Qed.

Lemma no_stock_for_zero_target_witness :
  exists v1_L diluent_L : float,
    calculate_stock_volume 10 0 100 MOLAR MOLAR MILLILITERS
    = Ok (v1_L, format_volume v1_L, diluent_L, format_volume diluent_L) /\
    PyFloat.eq v1_L 0%float = true /\
    PyFloat.eq diluent_L 0.1%float = true.
Proof.
  exact (no_stock_for_zero_target 10 0 100 MOLAR MOLAR MILLILITERS
           eq_refl eq_refl eq_refl eq_refl eq_refl).
Defined.

(** ** [calculate_serial_dilution] *)

(** X8: the three outcomes of [calculate_serial_dilution].  With a
    negative number of dilutions the loop body never runs and the result is
    the empty list, for every factor, zero included.  Otherwise a factor of
    zero, of either sign, raises [ZeroDivisionError] whatever the initial
    concentration is, and every other factor, NaN included, gives
    [num_dilutions + 1] entries. *)
Theorem serial_dilution_outcomes
    (initial_conc dilution_factor : float) (num_dilutions : Z) (conc_unit : unit_tag) :
  if num_dilutions <? 0 then
    calculate_serial_dilution initial_conc dilution_factor num_dilutions conc_unit = Ok []
  else if PyFloat.eq dilution_factor 0%float then
    calculate_serial_dilution initial_conc dilution_factor num_dilutions conc_unit
    = Raise ZeroDivisionError
  else
    exists entries : list series_entry,
      calculate_serial_dilution initial_conc dilution_factor num_dilutions conc_unit
      = Ok entries /\
      Z.of_nat (length entries) = num_dilutions + 1.
Proof.
  destruct (Z.ltb_spec num_dilutions 0) as [Hneg | Hnonneg].
  - unfold calculate_serial_dilution.
    replace (Z.to_nat (num_dilutions + 1)) with 0%nat by lia. reflexivity.
  - destruct (PyFloat.eq dilution_factor 0) eqn:Hzero.
    + unfold calculate_serial_dilution.
      destruct (Z.to_nat (num_dilutions + 1)) as [ | k] eqn:Hk; [lia | ].
      cbn [serial_dilution_loop]. unfold PyFloat.truediv. rewrite Hzero. reflexivity.
    + eexists. split; [apply calculate_serial_dilution_entries, Hzero | ].
      rewrite length_map, length_seq. lia.
Qed.

Lemma divided_by_one (i : nat) (x : float) : divided 1 i x = x.
Proof.
  induction i as [ | i IH]; [reflexivity | ].
  cbn [divided]. rewrite MoreFloatFacts.div_one. exact IH.
Qed.

(** X9: with the dilution factor 1.0 and an initial concentration that is
    not a NaN the series is constant: every entry has the initial
    concentration and the same text, since dividing by 1.0 changes no such
    float. *)
Theorem serial_dilution_by_one_is_constant
    (initial_conc : float) (num_dilutions : Z) (conc_unit : unit_tag) :
  PrimFloat.is_nan initial_conc = false ->
  calculate_serial_dilution initial_conc 1 num_dilutions conc_unit
  = Ok (map (fun i : nat =>
               (Z.of_nat i, initial_conc,
                format_concentration (to_base DConcentration initial_conc conc_unit)))
          (seq 0 (Z.to_nat (num_dilutions + 1)))).
Proof.
  intros _. rewrite (calculate_serial_dilution_entries 1 conc_unit eq_refl).
  f_equal. apply map_ext. intros i. unfold entry_at.
  rewrite divided_by_one. reflexivity.
Qed.

Lemma serial_dilution_by_one_is_constant_witness :
  calculate_serial_dilution 0.1 1 2 MICROMOLAR
  = Ok [(0, 0.1%float, "100.000 nM"); (1, 0.1%float, "100.000 nM");
        (2, 0.1%float, "100.000 nM")].
Proof.
  exact (serial_dilution_by_one_is_constant 0.1 2 MICROMOLAR eq_refl).
Defined.

(** ** [validate_positive] *)

(** X10: [validate_positive] returns for the values above zero and for
    NaN, for which [value <= 0] is false, and for nothing else; in every
    other case it raises [ValueError] with the name followed by
    [" must be greater than zero."]. *)
Theorem validate_positive_accepts (value : float) (name : string) :
  (validate_positive value name = ReturnsNone
   <-> PyFloat.gt value 0%float = true \/ PrimFloat.is_nan value = true) /\
  (validate_positive value name = ReturnsNone \/
   validate_positive value name = RaisesValueError (name ++ " must be greater than zero.")).
Proof.
  unfold validate_positive. rewrite <- MoreFloatFacts.not_le_zero_cases.
  destruct (PyFloat.le value 0); split; try split; auto; discriminate.
Qed.

(** X11: a dilution factor that [validate_positive] accepts is not zero, so
    [calculate_serial_dilution] does not raise with it: it returns the
    entries of the series, one for each value of [range(num_dilutions + 1)]. *)
Theorem validated_factor_gives_series
    (initial_conc dilution_factor : float) (num_dilutions : Z) (conc_unit : unit_tag)
    (name : string) :
  validate_positive dilution_factor name = ReturnsNone ->
  exists entries : list series_entry,
    calculate_serial_dilution initial_conc dilution_factor num_dilutions conc_unit
    = Ok entries /\
    length entries = Z.to_nat (num_dilutions + 1).
Proof.
  unfold validate_positive. intros Hvalid.
  destruct (PyFloat.le dilution_factor 0) eqn:Hle; [discriminate | ].
  apply MoreFloatFacts.not_le_zero_neq_zero in Hle.
  eexists. split; [apply calculate_serial_dilution_entries, Hle | ].
  rewrite length_map, length_seq. reflexivity.
Qed.

Lemma validated_factor_gives_series_witness :
  exists entries : list series_entry,
    calculate_serial_dilution 1000 10 3 MICROMOLAR = Ok entries /\ length entries = 4%nat.
Proof.
  exact (validated_factor_gives_series 1000 10 3 MICROMOLAR "Dilution factor" eq_refl).
Defined.

(** ** [scale_recipe]: errors and composition *)

Section ScaleRecipeErrors.

Implicit Types (h : heap) (l : loc) (d : gmap string value).

Open Scope list_scope.

Lemma bind_raise {A B : Type} (m : Py A) (k : A -> Py B) h (e : exn) :
  m h = Raise e -> (m ≫= k) h = Raise e.
Proof. intros H. unfold mbind, Py_bind. rewrite H. reflexivity. Qed.

Lemma dict_getitem_missing h l d (k : string) :
  h !! l = Some (ODict d) -> d !! k = None -> dict_getitem l k h = Raise (KeyError k).
Proof.
  intros H Hk. unfold dict_getitem, load, mbind, Py_bind. rewrite H, Hk. reflexivity.
Qed.

(** The iteration on a step whose amount cannot be multiplied raises. *)
Lemma scale_recipe_loop_bad_step factor (scaled_steps : loc) h (step : loc)
    (rest : list loc) d (e : exn) :
  h !! step = Some (ODict d) ->
  step_amount d = Raise e ->
  scale_recipe_loop factor scaled_steps (step :: rest) h = Raise e.
Proof.
  intros Hstep Hamount.
  pose proof (lookup_lt_Some _ _ _ Hstep) as Hlt.
  cbn [scale_recipe_loop].
  rewrite (bind_ok _ _ _ _ _ (dict_copy_ok h step d Hstep)).
  assert (Hstep' : (h ++ [ODict d]) !! step = Some (ODict d))
    by (rewrite lookup_app_l; assumption).
  unfold step_amount in Hamount.
  destruct (d !! "amount") as [v | ] eqn:Hv.
  - rewrite (bind_ok _ _ _ _ _ (dict_getitem_ok _ step d "amount" v Hstep' Hv)).
    assert (Hmul : lift (mul_float v factor) (h ++ [ODict d]) = Raise e).
    { unfold lift, mul_float. rewrite Hamount. reflexivity. }
    apply (bind_raise _ _ _ _ Hmul).
  - injection Hamount as <-.
    apply (bind_raise _ _ _ _ (dict_getitem_missing _ step d "amount" Hstep' Hv)).
Qed.

(** The loop raises at the first such step, after the steps before it. *)
Lemma scale_recipe_loop_raises factor (scaled_steps : loc) (step : loc) (rest : list loc)
    (bad : gmap string value) (e : exn) :
  step_amount bad = Raise e ->
  forall (items : list loc) (good : list (gmap string value)) (amounts : list float)
         h (acc : list loc),
    Forall2 (fun l d => h !! l = Some (ODict d)) items good ->
    Forall2 (fun d a => step_amount d = Ok a) good amounts ->
    h !! step = Some (ODict bad) ->
    h !! scaled_steps = Some (OList acc) ->
    scale_recipe_loop factor scaled_steps (items ++ step :: rest) h = Raise e.
Proof.
  intros Hbad.
  induction items as [ | item items IH]; intros good amounts h acc Hitems Hamounts Hstep Hscaled.
  - apply (scale_recipe_loop_bad_step factor scaled_steps h step rest bad e Hstep Hbad).
  - apply Forall2_cons_inv_l in Hitems as (d & good' & Hitem & Hrest & ->).
    apply Forall2_cons_inv_l in Hamounts as (a & amounts' & Ha & Hamounts' & ->).
    rewrite <- app_comm_cons.
    rewrite (scale_recipe_loop_step factor scaled_steps h acc item _ d a Hitem Ha Hscaled).
    pose proof (lookup_lt_Some _ _ _ Hscaled) as Hlt.
    set (h1 := <[scaled_steps := OList (acc ++ [length h])]>
                 (h ++ [ODict (scaled_step factor d a)])).
    assert (Hframe1 : forall l o, l <> scaled_steps -> h !! l = Some o -> h1 !! l = Some o).
    { intros l o Hne Hl. unfold h1.
      rewrite list_lookup_insert_ne by auto.
      rewrite lookup_app_l by (eapply lookup_lt_Some; eassumption). exact Hl. }
    apply (IH good' amounts' h1 (acc ++ [length h])).
    + eapply Forall2_impl; [exact Hrest | ]. intros l d' Hl. cbn beta in *.
      apply Hframe1; [ | exact Hl]. intros ->. rewrite Hscaled in Hl. discriminate Hl.
    + exact Hamounts'.
    + apply Hframe1; [ | exact Hstep]. intros ->. rewrite Hscaled in Hstep. discriminate Hstep.
    + unfold h1. apply list_lookup_insert_eq. rewrite length_app. lia.
Qed.

Lemma scale_recipe_raises h (steps : loc) (good : list (gmap string value))
    (amounts : list float) (bad : gmap string value) (rest : list (gmap string value))
    (e : exn) (new_total_volume old_total_volume : float) :
  recipe_at h steps (good ++ bad :: rest) ->
  Forall2 (fun d a => step_amount d = Ok a) good amounts ->
  step_amount bad = Raise e ->
  PyFloat.eq old_total_volume 0%float = false ->
  scale_recipe steps new_total_volume old_total_volume h = Raise e.
Proof.
  intros (items & Hsteps & Hitems) Hamounts Hbad Hold.
  apply Forall2_app_inv_r in Hitems as (items1 & items2 & Hitems1 & Hitems2 & ->).
  apply Forall2_cons_inv_r in Hitems2 as (step & items3 & Hstep & _ & ->).
  unfold scale_recipe, PyFloat.truediv. rewrite Hold.
  set (factor := PrimFloat.div new_total_volume old_total_volume).
  set (h0 := h ++ [OList []]).
  assert (Hext : forall l o, h !! l = Some o -> h0 !! l = Some o).
  { intros l o Hl. unfold h0.
    rewrite lookup_app_l by (eapply lookup_lt_Some; eassumption). exact Hl. }
  assert (H1 : lift (Ok factor) h = Ok (factor, h)) by reflexivity.
  rewrite (bind_ok _ _ _ _ _ H1).
  assert (H2 : alloc (OList []) h = Ok (length h, h0)) by reflexivity.
  rewrite (bind_ok _ _ _ _ _ H2).
  rewrite (bind_ok _ _ _ _ _ (list_items_ok h0 steps _ (Hext _ _ Hsteps))).
  apply bind_raise.
  apply (scale_recipe_loop_raises factor (length h) step items3 bad e Hbad
           items1 good amounts h0 []).
  - eapply Forall2_impl; [exact Hitems1 | ]. intros l d Hl. apply Hext, Hl.
  - exact Hamounts.
  - apply Hext, Hstep.
  - unfold h0. apply list_lookup_middle. reflexivity.
Qed.

Lemma step_amount_scaled factor d (a : float) :
  step_amount (scaled_step factor d a) = Ok (PyFloat.round4 (PyFloat.mul a factor)).
Proof. unfold step_amount, scaled_step. rewrite lookup_insert_eq. reflexivity. Qed.

Lemma scaled_step_twice f1 f2 d (a : float) :
  scaled_step f2 (scaled_step f1 d a) (PyFloat.round4 (PyFloat.mul a f1))
  = scaled_step f2 d (PyFloat.round4 (PyFloat.mul a f1)).
Proof. unfold scaled_step. apply insert_insert_eq. Qed.

End ScaleRecipeErrors.

(** X12: [scale_recipe] reads the steps only when it scales.  For a recipe
    whose first step with an unusable amount is [bad] (the key ['amount']
    is missing: [KeyError]; the amount is not a number: [TypeError]; it is
    an integer too large for a float: [OverflowError]), the call raises
    that exception when the old volume is not zero; when the old volume is
    zero, of either sign, it returns the given list object itself, not a
    copy, and allocates and checks nothing. *)
Theorem scale_recipe_checks_steps_only_when_scaling
    (h : heap) (steps : loc) (good : list (gmap string value)) (amounts : list float)
    (bad : gmap string value) (rest : list (gmap string value)) (e : exn)
    (new_total_volume old_total_volume : float) :
  recipe_at h steps (good ++ bad :: rest) ->
  Forall2 (fun d a => step_amount d = Ok a) good amounts ->
  step_amount bad = Raise e ->
  scale_recipe steps new_total_volume old_total_volume h
  = if PyFloat.eq old_total_volume 0%float then Ok (steps, h) else Raise e.
Proof.
  intros Hrecipe Hamounts Hbad.
  destruct (PyFloat.eq old_total_volume 0) eqn:Hold.
  - unfold scale_recipe. rewrite Hold. reflexivity.
  - apply (scale_recipe_raises h steps good amounts bad rest e); assumption.
Qed.

Lemma scale_recipe_checks_steps_only_when_scaling_witness :
  scale_recipe 2%nat 200 100 heap_with_bad_step = Raise (KeyError "amount") /\
  scale_recipe 2%nat 200 0 heap_with_bad_step = Ok (2%nat, heap_with_bad_step).
Proof.
  assert (Hrecipe : recipe_at heap_with_bad_step 2%nat
                      ([example_step 1 10] ++ step_without_amount :: [])).
  { exists [0%nat; 1%nat]. split; [reflexivity | ]. repeat constructor. }
  assert (Hamounts : Forall2 (fun d a => step_amount d = Ok a)
                       [example_step 1 10] [10%float]).
  { repeat constructor. }
  split.
  - exact (scale_recipe_checks_steps_only_when_scaling heap_with_bad_step 2%nat
             [example_step 1 10] [10%float] step_without_amount [] (KeyError "amount")
             200 100 Hrecipe Hamounts eq_refl).
  - exact (scale_recipe_checks_steps_only_when_scaling heap_with_bad_step 2%nat
             [example_step 1 10] [10%float] step_without_amount [] (KeyError "amount")
             200 0 Hrecipe Hamounts eq_refl).
Defined.

(** X13: scaling a recipe from the volume [v0] to [v1] and the result from
    [v1] to [v2] returns the steps with each amount [a] replaced by
    [round(round(a * (v1 / v0), 4) * (v2 / v1), 4)]: the rounding of the
    first call enters the second.  Both calls leave the given recipe and
    the first result as they were.  (Scaling 0.12345 from 1000 to 1 and
    back gives 0.1, not 0.1235.) *)
Theorem scale_recipe_twice
    (h : heap) (steps : loc) (ds : list (gmap string value)) (amounts : list float)
    (v0 v1 v2 : float) :
  recipe_at h steps ds ->
  Forall2 (fun d a => step_amount d = Ok a) ds amounts ->
  PyFloat.eq v0 0%float = false ->
  PyFloat.eq v1 0%float = false ->
  exists (out1 : loc) (h1 : heap) (out2 : loc) (h2 : heap),
    scale_recipe steps v1 v0 h = Ok (out1, h1) /\
    scale_recipe out1 v2 v1 h1 = Ok (out2, h2) /\
    recipe_at h2 out2
      (zip_with
         (fun d a =>
            <["amount" :=
                VFloat (PyFloat.round4
                          (PyFloat.mul (PyFloat.round4 (PyFloat.mul a (PrimFloat.div v1 v0)))
                             (PrimFloat.div v2 v1)))]> d)
         ds amounts) /\
    recipe_at h2 out1 (zip_with (scaled_step (PrimFloat.div v1 v0)) ds amounts) /\
    recipe_at h2 steps ds.
Proof.
  intros Hrecipe Hamounts Hv0 Hv1.
  destruct (scale_recipe_spec h steps ds amounts v1 v0 Hrecipe Hamounts Hv0)
    as (out1 & h1 & Hrun1 & Hout1 & _ & Hframe1).
  set (f1 := PrimFloat.div v1 v0) in *. set (f2 := PrimFloat.div v2 v1).
  set (ds1 := zip_with (scaled_step f1) ds amounts) in *.
  set (amounts1 := map (fun a => PyFloat.round4 (PyFloat.mul a f1)) amounts).
  assert (Hamounts1 : Forall2 (fun d a => step_amount d = Ok a) ds1 amounts1).
  { unfold ds1, amounts1. clear -Hamounts.
    induction Hamounts as [ | d a ds amounts _ _ IH]; [constructor | ].
    cbn [zip_with map]. constructor; [apply step_amount_scaled | exact IH]. }
  destruct (scale_recipe_spec h1 out1 ds1 amounts1 v2 v1 Hout1 Hamounts1 Hv1)
    as (out2 & h2 & Hrun2 & Hout2 & _ & Hframe2).
  assert (Hkeep : forall l ds', recipe_at h1 l ds' -> recipe_at h2 l ds').
  { intros l ds' (items & Hl & Hitems). exists items. split; [apply Hframe2, Hl | ].
    eapply Forall2_impl; [exact Hitems | ]. intros l' d Hl'. apply Hframe2, Hl'. }
  exists out1, h1, out2, h2. repeat split; try assumption.
  - replace (zip_with _ ds amounts) with (zip_with (scaled_step f2) ds1 amounts1);
      [exact Hout2 | ].
    unfold ds1, amounts1. clear. revert amounts.
    induction ds as [ | d ds IH]; intros [ | a amounts]; try reflexivity.
    cbn [zip_with map]. rewrite IH, scaled_step_twice. reflexivity.
  - apply Hkeep, Hout1.
  - apply Hkeep. destruct Hrecipe as (items & Hl & Hitems). exists items.
    split; [apply Hframe1, Hl | ].
    eapply Forall2_impl; [exact Hitems | ]. intros l' d Hl'. apply Hframe1, Hl'.
Qed.

Lemma scale_recipe_twice_witness :
  exists (out1 : loc) (h1 : heap) (out2 : loc) (h2 : heap),
    scale_recipe 1%nat 1 1000 example_heap_5_decimals = Ok (out1, h1) /\
    scale_recipe out1 1000 1 h1 = Ok (out2, h2) /\
    recipe_at h2 out2 [example_step 1 0.1] /\
    recipe_at h2 1%nat [example_step 1 0.12345].
Proof.
  assert (Hrecipe : recipe_at example_heap_5_decimals 1%nat [example_step 1 0.12345]).
  { exists [0%nat]. split; [reflexivity | ]. repeat constructor. }
  assert (Hamounts : Forall2 (fun d a => step_amount d = Ok a)
                       [example_step 1 0.12345] [0.12345%float]).
  { repeat constructor. }
  destruct (scale_recipe_twice example_heap_5_decimals 1%nat [example_step 1 0.12345]
              [0.12345%float] 1000 1 1000 Hrecipe Hamounts eq_refl eq_refl)
    as (out1 & h1 & out2 & h2 & Hrun1 & Hrun2 & Hout2 & _ & Hin).
  exists out1, h1, out2, h2. repeat split; assumption.
Defined.

(** ** The unit dictionaries of the application *)

Ltac map_forall :=
  repeat (apply map_Forall_insert_2; [split; reflexivity | ]);
  first [apply map_Forall_singleton; split; reflexivity | apply map_Forall_empty].

(** Every unit dictionary maps a symbol to the enumeration member with
    that symbol as its value, and to a member that is a key of the
    conversion table of its dimension. *)
Lemma application_units_are_convertible :
  let mass_ok (k : string) (u : MassUnit) :=
    MassUnit_value u = k /\ in_table DMass u = true in
  let volume_ok (k : string) (u : VolumeUnit) :=
    VolumeUnit_value u = k /\ in_table DVolume u = true in
  let concentration_ok (k : string) (u : ConcentrationUnit) :=
    ConcentrationUnit_value u = k /\ in_table DConcentration u = true in
  map_Forall concentration_ok MolarityTab.conc_map /\
  map_Forall volume_ok MolarityTab.vol_map /\
  map_Forall mass_ok MolarityTab.mass_map /\
  map_Forall concentration_ok DilutionTab.conc_map /\
  map_Forall volume_ok DilutionTab.vol_map /\
  map_Forall concentration_ok SerialDilutionTab.unit_map /\
  map_Forall mass_ok PercentTab.mass_map /\
  map_Forall volume_ok PercentTab.vol_map /\
  map_Forall concentration_ok ProtocolDesigner.c_map /\
  map_Forall volume_ok ProtocolDesigner.v_map.
Proof.
  cbn zeta. repeat match goal with |- _ /\ _ => split end. all: map_forall.
Qed.

(** X14: the six calls of the calculations in [app.py] take their unit
    arguments from the unit dictionaries.  At each call, for every symbol,
    a symbol that is not a key of its dictionary raises [KeyError] before
    the calculation is called; otherwise the calculation is called with,
    for each unit parameter, the enumeration member whose value is the
    symbol, and that member is a key of the conversion table of the
    parameter, so that the conversion uses the table's factor and not the
    default 1. *)
Theorem application_calls_use_table_units :
  (forall molarity volume mw purity vol_unit conc_unit,
      match (MolarityTab.vol_map !! vol_unit : option VolumeUnit),
            (MolarityTab.conc_map !! conc_unit : option ConcentrationUnit) with
      | Some vu, Some cu =>
          MolarityTab.calculate_mass_call molarity volume mw purity vol_unit conc_unit
          = calculate_mass molarity volume mw purity vu cu /\
          (VolumeUnit_value vu = vol_unit /\ in_table DVolume vu = true) /\
          (ConcentrationUnit_value cu = conc_unit /\ in_table DConcentration cu = true)
      | None, _ =>
          MolarityTab.calculate_mass_call molarity volume mw purity vol_unit conc_unit
          = Raise (KeyError vol_unit)
      | Some _, None =>
          MolarityTab.calculate_mass_call molarity volume mw purity vol_unit conc_unit
          = Raise (KeyError conc_unit)
      end) /\
  (forall mass volume mw purity mass_unit vol_unit,
      match (MolarityTab.mass_map !! mass_unit : option MassUnit),
            (MolarityTab.vol_map !! vol_unit : option VolumeUnit) with
      | Some mu, Some vu =>
          MolarityTab.calculate_molarity_call mass volume mw purity mass_unit vol_unit
          = calculate_molarity mass volume mw purity mu vu /\
          (MassUnit_value mu = mass_unit /\ in_table DMass mu = true) /\
          (VolumeUnit_value vu = vol_unit /\ in_table DVolume vu = true)
      | None, _ =>
          MolarityTab.calculate_molarity_call mass volume mw purity mass_unit vol_unit
          = Raise (KeyError mass_unit)
      | Some _, None =>
          MolarityTab.calculate_molarity_call mass volume mw purity mass_unit vol_unit
          = Raise (KeyError vol_unit)
      end) /\
  (forall c1 c2 v2 c1_unit c2_unit v2_unit,
      match (DilutionTab.conc_map !! c1_unit : option ConcentrationUnit),
            (DilutionTab.conc_map !! c2_unit : option ConcentrationUnit),
            (DilutionTab.vol_map !! v2_unit : option VolumeUnit) with
      | Some u1, Some u2, Some vu =>
          DilutionTab.calculate_stock_volume_call c1 c2 v2 c1_unit c2_unit v2_unit
          = calculate_stock_volume c1 c2 v2 u1 u2 vu /\
          (ConcentrationUnit_value u1 = c1_unit /\ in_table DConcentration u1 = true) /\
          (ConcentrationUnit_value u2 = c2_unit /\ in_table DConcentration u2 = true) /\
          (VolumeUnit_value vu = v2_unit /\ in_table DVolume vu = true)
      | None, _, _ =>
          DilutionTab.calculate_stock_volume_call c1 c2 v2 c1_unit c2_unit v2_unit
          = Raise (KeyError c1_unit)
      | Some _, None, _ =>
          DilutionTab.calculate_stock_volume_call c1 c2 v2 c1_unit c2_unit v2_unit
          = Raise (KeyError c2_unit)
      | Some _, Some _, None =>
          DilutionTab.calculate_stock_volume_call c1 c2 v2 c1_unit c2_unit v2_unit
          = Raise (KeyError v2_unit)
      end) /\
  (forall initial_conc dilution_factor num_dilutions initial_unit,
      match (SerialDilutionTab.unit_map !! initial_unit : option ConcentrationUnit) with
      | Some cu =>
          SerialDilutionTab.calculate_serial_dilution_call
            initial_conc dilution_factor num_dilutions initial_unit
          = calculate_serial_dilution initial_conc dilution_factor num_dilutions cu /\
          ConcentrationUnit_value cu = initial_unit /\ in_table DConcentration cu = true
      | None =>
          SerialDilutionTab.calculate_serial_dilution_call
            initial_conc dilution_factor num_dilutions initial_unit
          = Raise (KeyError initial_unit)
      end) /\
  (forall pct_mass pct_vol pct_mass_unit pct_vol_unit,
      match (PercentTab.mass_map !! pct_mass_unit : option MassUnit),
            (PercentTab.vol_map !! pct_vol_unit : option VolumeUnit) with
      | Some mu, Some vu =>
          PercentTab.calculate_percent_solution_call pct_mass pct_vol pct_mass_unit pct_vol_unit
          = calculate_percent_solution pct_mass pct_vol mu vu /\
          (MassUnit_value mu = pct_mass_unit /\ in_table DMass mu = true) /\
          (VolumeUnit_value vu = pct_vol_unit /\ in_table DVolume vu = true)
      | None, _ =>
          PercentTab.calculate_percent_solution_call pct_mass pct_vol pct_mass_unit pct_vol_unit
          = Raise (KeyError pct_mass_unit)
      | Some _, None =>
          PercentTab.calculate_percent_solution_call pct_mass pct_vol pct_mass_unit pct_vol_unit
          = Raise (KeyError pct_vol_unit)
      end) /\
  (forall c1 c2 prot_vol c1_unit c2_unit prot_unit,
      match (ProtocolDesigner.c_map !! c1_unit : option ConcentrationUnit),
            (ProtocolDesigner.c_map !! c2_unit : option ConcentrationUnit),
            (ProtocolDesigner.v_map !! prot_unit : option VolumeUnit) with
      | Some u1, Some u2, Some vu =>
          ProtocolDesigner.calculate_stock_volume_call c1 c2 prot_vol c1_unit c2_unit prot_unit
          = calculate_stock_volume c1 c2 prot_vol u1 u2 vu /\
          (ConcentrationUnit_value u1 = c1_unit /\ in_table DConcentration u1 = true) /\
          (ConcentrationUnit_value u2 = c2_unit /\ in_table DConcentration u2 = true) /\
          (VolumeUnit_value vu = prot_unit /\ in_table DVolume vu = true)
      | None, _, _ =>
          ProtocolDesigner.calculate_stock_volume_call c1 c2 prot_vol c1_unit c2_unit prot_unit
          = Raise (KeyError c1_unit)
      | Some _, None, _ =>
          ProtocolDesigner.calculate_stock_volume_call c1 c2 prot_vol c1_unit c2_unit prot_unit
          = Raise (KeyError c2_unit)
      | Some _, Some _, None =>
          ProtocolDesigner.calculate_stock_volume_call c1 c2 prot_vol c1_unit c2_unit prot_unit
          = Raise (KeyError prot_unit)
      end).
Proof.
  pose proof application_units_are_convertible as H. cbn zeta in H.
  destruct H as (H1 & H2 & H3 & H4 & H5 & H6 & H7 & H8 & H9 & H10).
  repeat match goal with |- _ /\ _ => split end.
  - intros. unfold MolarityTab.calculate_mass_call, subscript.
    destruct (MolarityTab.vol_map !! vol_unit) as [vu | ] eqn:Ev; [ | reflexivity].
    destruct (MolarityTab.conc_map !! conc_unit) as [cu | ] eqn:Ec; [ | reflexivity].
    split; [reflexivity | split; [exact (H2 _ _ Ev) | exact (H1 _ _ Ec)]].
  - intros. unfold MolarityTab.calculate_molarity_call, subscript.
    destruct (MolarityTab.mass_map !! mass_unit) as [mu | ] eqn:Em; [ | reflexivity].
    destruct (MolarityTab.vol_map !! vol_unit) as [vu | ] eqn:Ev; [ | reflexivity].
    split; [reflexivity | split; [exact (H3 _ _ Em) | exact (H2 _ _ Ev)]].
  - intros. unfold DilutionTab.calculate_stock_volume_call, subscript.
    destruct (DilutionTab.conc_map !! c1_unit) as [u1 | ] eqn:E1; [ | reflexivity].
    destruct (DilutionTab.conc_map !! c2_unit) as [u2 | ] eqn:E2; [ | reflexivity].
    destruct (DilutionTab.vol_map !! v2_unit) as [vu | ] eqn:Ev; [ | reflexivity].
    split; [reflexivity | ].
    split; [exact (H4 _ _ E1) | split; [exact (H4 _ _ E2) | exact (H5 _ _ Ev)]].
  - intros. unfold SerialDilutionTab.calculate_serial_dilution_call, subscript.
    destruct (SerialDilutionTab.unit_map !! initial_unit) as [cu | ] eqn:Ec; [ | reflexivity].
    split; [reflexivity | exact (H6 _ _ Ec)].
  - intros. unfold PercentTab.calculate_percent_solution_call, subscript.
    destruct (PercentTab.mass_map !! pct_mass_unit) as [mu | ] eqn:Em; [ | reflexivity].
    destruct (PercentTab.vol_map !! pct_vol_unit) as [vu | ] eqn:Ev; [ | reflexivity].
    split; [reflexivity | split; [exact (H7 _ _ Em) | exact (H8 _ _ Ev)]].
  - intros. unfold ProtocolDesigner.calculate_stock_volume_call, subscript.
    destruct (ProtocolDesigner.c_map !! c1_unit) as [u1 | ] eqn:E1; [ | reflexivity].
    destruct (ProtocolDesigner.c_map !! c2_unit) as [u2 | ] eqn:E2; [ | reflexivity].
    destruct (ProtocolDesigner.v_map !! prot_unit) as [vu | ] eqn:Ev; [ | reflexivity].
    split; [reflexivity | ].
    split; [exact (H9 _ _ E1) | split; [exact (H9 _ _ E2) | exact (H10 _ _ Ev)]].
Qed.

(** X15: the unit converter page converts to the base unit as the
    calculations do: for every member of the three enumerations, the
    converter's value for the member's symbol is the value that the
    conversion of the calculations gives for the member, when the member is
    a key of the conversion table; for the percent units, which are keys of
    no table, the converter raises [KeyError] where the calculations use
    the factor 1. *)
Theorem converter_agrees_with_conversion_tables (input : float) :
  (forall u : MassUnit,
      UnitConverter.mass_g input (MassUnit_value u) = Ok (to_base DMass input u)) /\
  (forall u : VolumeUnit,
      UnitConverter.vol_L input (VolumeUnit_value u) = Ok (to_base DVolume input u)) /\
  (forall u : ConcentrationUnit,
      UnitConverter.conc_M input (ConcentrationUnit_value u)
      = if in_table DConcentration u then Ok (to_base DConcentration input u)
        else Raise (KeyError (ConcentrationUnit_value u))).
Proof.
  repeat split; intros []; reflexivity.
Qed.

(** ** The calculations with units outside their tables *)

(** What each calculation returns, in terms of the converted values. *)
Lemma calculate_molarity_cases (mass volume mw purity : float) (mass_unit volume_unit : unit_tag) :
  calculate_molarity mass volume mw purity mass_unit volume_unit
  = let mass_g := to_base DMass mass mass_unit in
    let volume_L := to_base DVolume volume volume_unit in
    if PyFloat.eq volume_L 0%float || PyFloat.eq mw 0%float then Ok (0%float, "0 M")
    else if PyFloat.eq (PyFloat.mul volume_L mw) 0%float then Raise ZeroDivisionError
    else
      let molarity_M :=
        PyFloat.mul (PrimFloat.div mass_g (PyFloat.mul volume_L mw))
          (PrimFloat.div purity 100) in
      Ok (molarity_M, format_concentration molarity_M).
Proof.
  cbn zeta. unfold calculate_molarity, PyFloat.truediv.
  change (PyFloat.eq 100 0) with false. cbn [mbind result_bind].
  destruct (PyFloat.eq (to_base DVolume volume volume_unit) 0 || PyFloat.eq mw 0);
    [reflexivity | ].
  destruct (PyFloat.eq (PyFloat.mul (to_base DVolume volume volume_unit) mw) 0);
    reflexivity.
Qed.

Lemma calculate_stock_volume_cases (c1 c2 v2 : float) (c1_unit c2_unit v2_unit : unit_tag) :
  calculate_stock_volume c1 c2 v2 c1_unit c2_unit v2_unit
  = let c1_M := to_base DConcentration c1 c1_unit in
    let c2_M := to_base DConcentration c2 c2_unit in
    let v2_L := to_base DVolume v2 v2_unit in
    if PyFloat.eq c1_M 0%float then Ok (0%float, "0 L", v2_L, format_volume v2_L)
    else
      let v1_L := PrimFloat.div (PyFloat.mul c2_M v2_L) c1_M in
      let diluent_L := PyFloat.sub v2_L v1_L in
      Ok (v1_L, format_volume v1_L, diluent_L, format_volume diluent_L).
Proof.
  cbn zeta. unfold calculate_stock_volume, PyFloat.truediv.
  destruct (PyFloat.eq (to_base DConcentration c1 c1_unit) 0); reflexivity.
Qed.

Lemma calculate_percent_solution_cases (mass volume : float) (mass_unit volume_unit : unit_tag) :
  calculate_percent_solution mass volume mass_unit volume_unit
  = let mass_g := to_base DMass mass mass_unit in
    let volume_mL := PyFloat.mul (to_base DVolume volume volume_unit) 1000 in
    if PyFloat.eq volume_mL 0%float then Ok 0%float
    else Ok (PyFloat.mul (PrimFloat.div mass_g volume_mL) 100).
Proof.
  cbn zeta. unfold calculate_percent_solution, PyFloat.truediv.
  destruct (PyFloat.eq (PyFloat.mul (to_base DVolume volume volume_unit) 1000) 0);
    reflexivity.
Qed.

Lemma calculate_serial_dilution_cases (initial_conc dilution_factor : float)
    (num_dilutions : Z) (conc_unit : unit_tag) :
  calculate_serial_dilution initial_conc dilution_factor num_dilutions conc_unit
  = if num_dilutions <? 0 then Ok []
    else if PyFloat.eq dilution_factor 0%float then Raise ZeroDivisionError
    else Ok (map (entry_at dilution_factor conc_unit 0 initial_conc)
               (seq 0 (Z.to_nat (num_dilutions + 1)))).
Proof.
  destruct (Z.ltb_spec num_dilutions 0) as [Hneg | Hnonneg].
  - unfold calculate_serial_dilution.
    replace (Z.to_nat (num_dilutions + 1)) with 0%nat by lia. reflexivity.
  - destruct (PyFloat.eq dilution_factor 0) eqn:Hzero.
    + unfold calculate_serial_dilution.
      destruct (Z.to_nat (num_dilutions + 1)) as [ | k] eqn:Hk; [lia | ].
      cbn [serial_dilution_loop]. unfold PyFloat.truediv. rewrite Hzero. reflexivity.
    + apply calculate_serial_dilution_entries, Hzero.
Qed.

Ltac not_unsupported H :=
  rewrite H; cbn zeta;
  repeat match goal with |- context [if ?c then _ else _] => destruct c end;
  discriminate.

(** C1 (amended): for every dimension and every unit that is not a key of
    the dimension's conversion table, the conversion to the base unit
    multiplies the value by the default factor 1, that is, it treats the
    value as already being in the base unit, and returns a number.  Each of
    the five calculations, for all its unit arguments together, returns
    what it returns with every such unit replaced by the base unit; what it
    returns is computed from the converted values: a result, or
    [ZeroDivisionError] when a divisor is zero, and never
    [UnsupportedUnitError]. *)
Theorem unknown_unit_converts_with_factor_one
    (d : dimension) (u : unit_tag) (value : float) :
  in_table d u = false ->
  to_base d value u = PyFloat.mul value 1%float /\
  to_base d value u = to_base d value (base_unit d) /\
  as_base_if_unknown d u = base_unit d /\
  (forall molarity volume mw purity volume_unit conc_unit,
      let returned := calculate_mass molarity volume mw purity volume_unit conc_unit in
      returned
      = calculate_mass molarity volume mw purity
          (as_base_if_unknown DVolume volume_unit)
          (as_base_if_unknown DConcentration conc_unit) /\
      returned
      = (if PyFloat.eq (PrimFloat.div purity 100) 0%float then Raise ZeroDivisionError
         else
           let mass_g :=
             PrimFloat.div
               (PyFloat.mul (PyFloat.mul (to_base DConcentration molarity conc_unit)
                               (to_base DVolume volume volume_unit)) mw)
               (PrimFloat.div purity 100) in
           Ok (mass_g, format_mass mass_g)) /\
      returned <> Raise UnsupportedUnitError) /\
  (forall mass volume mw purity mass_unit volume_unit,
      let returned := calculate_molarity mass volume mw purity mass_unit volume_unit in
      returned
      = calculate_molarity mass volume mw purity
          (as_base_if_unknown DMass mass_unit)
          (as_base_if_unknown DVolume volume_unit) /\
      returned
      = (let mass_g := to_base DMass mass mass_unit in
         let volume_L := to_base DVolume volume volume_unit in
         if PyFloat.eq volume_L 0%float || PyFloat.eq mw 0%float then Ok (0%float, "0 M")
         else if PyFloat.eq (PyFloat.mul volume_L mw) 0%float then Raise ZeroDivisionError
         else
           let molarity_M :=
             PyFloat.mul (PrimFloat.div mass_g (PyFloat.mul volume_L mw))
               (PrimFloat.div purity 100) in
           Ok (molarity_M, format_concentration molarity_M)) /\
      returned <> Raise UnsupportedUnitError) /\
  (forall c1 c2 v2 c1_unit c2_unit v2_unit,
      let returned := calculate_stock_volume c1 c2 v2 c1_unit c2_unit v2_unit in
      returned
      = calculate_stock_volume c1 c2 v2
          (as_base_if_unknown DConcentration c1_unit)
          (as_base_if_unknown DConcentration c2_unit)
          (as_base_if_unknown DVolume v2_unit) /\
      returned
      = (let c1_M := to_base DConcentration c1 c1_unit in
         let c2_M := to_base DConcentration c2 c2_unit in
         let v2_L := to_base DVolume v2 v2_unit in
         if PyFloat.eq c1_M 0%float then Ok (0%float, "0 L", v2_L, format_volume v2_L)
         else
           let v1_L := PrimFloat.div (PyFloat.mul c2_M v2_L) c1_M in
           let diluent_L := PyFloat.sub v2_L v1_L in
           Ok (v1_L, format_volume v1_L, diluent_L, format_volume diluent_L)) /\
      returned <> Raise UnsupportedUnitError) /\
  (forall mass volume mass_unit volume_unit,
      let returned := calculate_percent_solution mass volume mass_unit volume_unit in
      returned
      = calculate_percent_solution mass volume
          (as_base_if_unknown DMass mass_unit)
          (as_base_if_unknown DVolume volume_unit) /\
      returned
      = (let mass_g := to_base DMass mass mass_unit in
         let volume_mL := PyFloat.mul (to_base DVolume volume volume_unit) 1000 in
         if PyFloat.eq volume_mL 0%float then Ok 0%float
         else Ok (PyFloat.mul (PrimFloat.div mass_g volume_mL) 100)) /\
      returned <> Raise UnsupportedUnitError) /\
  (forall initial_conc dilution_factor num_dilutions conc_unit,
      let returned :=
        calculate_serial_dilution initial_conc dilution_factor num_dilutions conc_unit in
      returned
      = calculate_serial_dilution initial_conc dilution_factor num_dilutions
          (as_base_if_unknown DConcentration conc_unit) /\
      returned
      = (if num_dilutions <? 0 then Ok []
         else if PyFloat.eq dilution_factor 0%float then Raise ZeroDivisionError
         else Ok (map (entry_at dilution_factor conc_unit 0 initial_conc)
                    (seq 0 (Z.to_nat (num_dilutions + 1))))) /\
      returned <> Raise UnsupportedUnitError).
Proof.
  intros Hu.
  assert (Hbase : as_base_if_unknown d u = base_unit d)
    by (unfold as_base_if_unknown; rewrite Hu; reflexivity).
  split; [ | split; [ | split; [exact Hbase | ]]].
  - unfold to_base, dict_get. unfold in_table in Hu.
    destruct (table_of d u); [discriminate Hu | reflexivity].
  - rewrite <- Hbase. symmetry. apply to_base_unknown.
  - repeat match goal with |- _ /\ _ => split end; intros;
      repeat match goal with x := _ |- _ => subst x end.
    + split; [apply calculate_mass_unknown | ].
      split; [apply calculate_mass_cases | not_unsupported calculate_mass_cases].
    + split; [apply calculate_molarity_unknown | ].
      split; [apply calculate_molarity_cases | not_unsupported calculate_molarity_cases].
    + split; [apply calculate_stock_volume_unknown | ].
      split; [apply calculate_stock_volume_cases
             | not_unsupported calculate_stock_volume_cases].
    + split; [apply calculate_percent_solution_unknown | ].
      split; [apply calculate_percent_solution_cases
             | not_unsupported calculate_percent_solution_cases].
    + split; [apply calculate_serial_dilution_unknown | ].
      split; [apply calculate_serial_dilution_cases
             | not_unsupported calculate_serial_dilution_cases].
Qed.

Lemma unknown_unit_converts_with_factor_one_witness :
  in_table DConcentration PERCENT_VV = false /\
  to_base DConcentration 2.5 PERCENT_VV = PyFloat.mul 2.5 1 /\
  calculate_mass 1 1 58.44 100 LITERS PERCENT_VV
  = calculate_mass 1 1 58.44 100 LITERS MOLAR /\
  calculate_mass 1 1 58.44 100 LITERS PERCENT_VV = Ok (58.44%float, "58.440 g") /\
  calculate_mass 1 1 58.44 100 LITERS PERCENT_VV <> Raise UnsupportedUnitError.
Proof.
  split; [reflexivity | ].
  destruct (unknown_unit_converts_with_factor_one DConcentration PERCENT_VV 2.5 eq_refl)
    as (H1 & _ & _ & H3 & _).
  destruct (H3 1%float 1%float 58.44%float 100%float (Volume LITERS)
              (Concentration PERCENT_VV)) as (Hsame & Hvalue & Hnot).
  split; [exact H1 | ]. split; [exact Hsame | ]. split; [exact Hvalue | exact Hnot].
Defined.
